(** * ClawSocial: retry orchestrator, CLI gating, configuration and quota model

    A shallow embedding of the parts of the ClawSocial command line
    (cli.ts), of the Instagram handler (platforms/instagram.ts) and of the
    configuration loader (utils/config.ts) that the compliance core of the
    specification talks about, together with the properties proved of them.

    Conventions.
    - JavaScript numbers that the code only ever uses as integers (attempt
      counters, millisecond delays, daily caps, timestamps) are [Z].
    - JavaScript strings are [string]s, read as the UTF-8 encoding of the
      text; [process.env] is a finite map from names to strings.
    - A JavaScript promise that is awaited is a computation over the state
      of the process; it returns, throws, or ends the process
      ([process.exit]).
    - The collaborators whose code lives outside these files (the browser
      session, the notifier, the runtime's [JSON.parse]) are an interface,
      a type class, and every theorem holds for all its implementations.

    The second half covers the rest of the same files: the other settings
    of the configuration loader, the commands without a retry wrapper,
    the other actions and the scrapers of the Instagram handler, the
    GraphQL client of X (graphql/client.ts) and the scroll of the LinkedIn
    scraper (scripts/linkedin-scrape-search.ts). *)

From Stdlib Require Import ZArith List String Ascii Bool Lia QArith.
From stdpp Require Import base option gmap strings pretty.

Local Open Scope Z_scope.
Local Open Scope string_scope.
Local Open Scope list_scope.
Local Set Warnings "-register-all".

(* ===================================================================== *)
(** * JavaScript values and the built-ins the code relies on              *)
(* ===================================================================== *)

Module Js.

(** A JavaScript value as far as the command line can tell values apart:
    [undefined], and what [JSON.parse] can return.  A JSON number is a
    finite double, hence a rational. *)
Inductive JsValue : Type :=
| JUndefined
| JNull
| JBool (b : bool)
| JNumber (q : Q)
| JString (s : string)
| JArray (items : list JsValue)
| JObject (props : list (string * JsValue)).

(** [ToBoolean], the test made by [if (context)] and [!contextStr]. *)
Definition truthy (v : JsValue) : bool :=
  match v with
  | JUndefined | JNull => false
  | JBool b => b
  | JNumber q => negb (Qeq_bool q 0)
  | JString s => negb (String.eqb s "")
  | JArray _ | JObject _ => true
  end.

(** Decimal digits, for array indices and for [parseInt]. *)
Definition code (c : ascii) : N := N_of_ascii c.

Definition isDigit (c : ascii) : bool := ((48 <=? code c) && (code c <=? 57))%N.

Definition digitValue (c : ascii) : Z := Z.of_N (code c) - 48.

(** Property lookup on an object, as the list of its own properties in
    the order in which JavaScript enumerates them. *)
Fixpoint getProp (k : string) (props : list (string * JsValue)) : option JsValue :=
  match props with
  | [] => None
  | (k', v) :: rest => if String.eqb k k' then Some v else getProp k rest
  end.

(** The number a string of decimal digits denotes, [None] when another
    character occurs. *)
Fixpoint decimal (acc : Z) (s : string) : option Z :=
  match s with
  | EmptyString => Some acc
  | String c rest =>
      if isDigit c then decimal (10 * acc + digitValue c) rest else None
  end.

(** An array index: a key that is the canonical decimal text of an
    integer from 0 to 2^32 - 2.  The own keys of an object are enumerated
    with the array indices first, in ascending order, and the other keys
    after them, in the order of their creation. *)
Definition arrayIndex (k : string) : option Z :=
  match k with
  | EmptyString => None
  | String c rest =>
      if Ascii.eqb c "0" && negb (String.eqb rest "")
      then None
      else match decimal 0 k with
           | Some n => if (n <=? 4294967294)%Z then Some n else None
           | None => None
           end
  end.

(** Assignment to a property that exists: the value changes, the place
    does not. *)
Fixpoint replaceProp (k : string) (v : JsValue) (props : list (string * JsValue))
  : list (string * JsValue) :=
  match props with
  | [] => []
  | (k', v') :: rest =>
      if String.eqb k k' then (k', v) :: rest else (k', v') :: replaceProp k v rest
  end.

(** A new property whose key is the array index [n] goes among the
    leading array indices, before the first greater one. *)
Fixpoint insertIndex (n : Z) (k : string) (v : JsValue) (props : list (string * JsValue))
  : list (string * JsValue) :=
  match props with
  | [] => [(k, v)]
  | (k', v') :: rest =>
      match arrayIndex k' with
      | Some m => if (m <? n)%Z then (k', v') :: insertIndex n k v rest else (k, v) :: props
      | None => (k, v) :: props
      end
  end.

(** Assignment [props[k] = v]. *)
Definition setProp (k : string) (v : JsValue) (props : list (string * JsValue))
  : list (string * JsValue) :=
  match getProp k props with
  | Some _ => replaceProp k v props
  | None =>
      match arrayIndex k with
      | Some n => insertIndex n k v props
      | None => props ++ [(k, v)]
      end
  end.

Fixpoint indexed (i : nat) (items : list JsValue) : list (string * JsValue) :=
  match items with
  | [] => []
  | v :: rest => (pretty i, v) :: indexed (S i) rest
  end.

Fixpoint chars (s : string) : list JsValue :=
  match s with
  | EmptyString => []
  | String c rest => JString (String c EmptyString) :: chars rest
  end.

(** The own enumerable properties copied by an object spread [...v]:
    the properties of an object, the indices of an array or of a string
    (one per character; exact for ASCII text), nothing for the rest. *)
Definition ownProps (v : JsValue) : list (string * JsValue) :=
  match v with
  | JObject props => props
  | JArray items => indexed 0 items
  | JString s => indexed 0 (chars s)
  | _ => []
  end.

(** [{ ...base, ...v }]: the properties of [v] are assigned to a copy of
    [base] one after the other, so later ones overwrite earlier ones. *)
Definition spread (base : list (string * JsValue)) (v : JsValue)
  : list (string * JsValue) :=
  fold_left (fun acc kv => setProp (fst kv) (snd kv) acc) (ownProps v) base.

(** The keys of an object whose only array indices were assigned after
    its creation: array indices, then the keys it was created with, then
    the other new keys. *)
Definition layered (defaults : list string) (keys : list string) : Prop :=
  exists front extra,
    keys = front ++ defaults ++ extra
    /\ Forall (fun k => arrayIndex k <> None) front
    /\ Forall (fun k => arrayIndex k = None) extra.

(** ** [parseInt(s, 10)] *)

(** Leading white space and line terminators are skipped: TAB, LF, VT, FF,
    CR, SP, and in UTF-8 U+00A0, U+1680, U+2000..U+200A, U+2028, U+2029,
    U+202F, U+205F, U+3000 and U+FEFF. *)
Fixpoint trimStart (s : string) : string :=
  match s with
  | EmptyString => s
  | String c1 r1 =>
      let n1 := code c1 in
      if ((9 <=? n1) && (n1 <=? 13) || (n1 =? 32))%N then trimStart r1
      else
        match r1 with
        | EmptyString => s
        | String c2 r2 =>
            let n2 := code c2 in
            if ((n1 =? 194) && (n2 =? 160))%N then trimStart r2
            else
              match r2 with
              | EmptyString => s
              | String c3 r3 =>
                  let n3 := code c3 in
                  if ((n1 =? 225) && (n2 =? 154) && (n3 =? 128)
                      || (n1 =? 226) && (n2 =? 128)
                         && ((128 <=? n3) && (n3 <=? 138)
                             || (n3 =? 168) || (n3 =? 169) || (n3 =? 175))
                      || (n1 =? 226) && (n2 =? 129) && (n3 =? 159)
                      || (n1 =? 227) && (n2 =? 128) && (n3 =? 128)
                      || (n1 =? 239) && (n2 =? 187) && (n3 =? 191))%N
                  then trimStart r3
                  else s
              end
        end
  end.

(** The value of the longest prefix of decimal digits, [None] when there is
    no digit at all. *)
Fixpoint digitsFrom (acc : option Z) (s : string) : option Z :=
  match s with
  | EmptyString => acc
  | String c rest =>
      if isDigit c
      then digitsFrom (Some (10 * default 0 acc + digitValue c)) rest
      else acc
  end.

(** [parseInt(s, 10)]; [None] is [NaN].  Exact while the digits denote an
    integer a double represents exactly. *)
Definition parseInt (s : string) : option Z :=
  match trimStart s with
  | String "-" rest => Z.opp <$> digitsFrom None rest
  | String "+" rest => digitsFrom None rest
  | t => digitsFrom None t
  end.

(** [String.prototype.toUpperCase] on ASCII letters. *)
Definition upper (c : ascii) : ascii :=
  if ((97 <=? code c) && (code c <=? 122))%N then ascii_of_N (code c - 32) else c.

Fixpoint toUpperCase (s : string) : string :=
  match s with
  | EmptyString => EmptyString
  | String c rest => String (upper c) (toUpperCase rest)
  end.

(** [a || b] on optional strings: [b] when [a] is undefined or empty. *)
Definition orElse (a : option string) (b : string) : string :=
  match a with
  | Some s => if String.eqb s "" then b else s
  | None => b
  end.

End Js.

(* ===================================================================== *)
(** * utils/config.ts: the configured rate limits and delay ranges        *)
(* ===================================================================== *)

Module Config.
Import Js.

(** [process.env]. *)
Abbreviation Env := (gmap string string).

(** [getEnvNumber(key, defaultValue)]. *)
Definition getEnvNumber (env : Env) (key : string) (defaultValue : Z) : Z :=
  match env !! key with
  | None => defaultValue
  | Some value =>
      match parseInt value with
      | None => defaultValue
      | Some parsed => parsed
      end
  end.

Inductive Platform : Type := Instagram | Twitter | Linkedin.

Inductive ActionType : Type := Like | Comment | Follow | Dm | Post | Connect.

(** One platform's entry of [rateLimits]: actions per day. *)
Record ActionLimits : Type := {
  like : Z;
  comment : Z;
  follow : Z;
  dm : Z;
  post : Z;
  connect : Z
}.

Record RateLimitConfig : Type := {
  instagram : ActionLimits;
  twitter : ActionLimits;
  linkedin : ActionLimits
}.

Record DelayConfig : Type := {
  minMs : Z;
  maxMs : Z;
  typingMinMs : Z;
  typingMaxMs : Z
}.

(** The [rateLimits] member of [loadConfig()]. *)
Definition rateLimits (env : Env) : RateLimitConfig :=
  {| instagram :=
       {| like := getEnvNumber env "RATE_LIMIT_INSTAGRAM_LIKE" 100;
          comment := getEnvNumber env "RATE_LIMIT_INSTAGRAM_COMMENT" 30;
          follow := getEnvNumber env "RATE_LIMIT_INSTAGRAM_FOLLOW" 50;
          dm := getEnvNumber env "RATE_LIMIT_INSTAGRAM_DM" 50;
          post := getEnvNumber env "RATE_LIMIT_INSTAGRAM_POST" 10;
          connect := 0 |};
     twitter :=
       {| like := getEnvNumber env "RATE_LIMIT_TWITTER_LIKE" 100;
          comment := getEnvNumber env "RATE_LIMIT_TWITTER_COMMENT" 50;
          follow := getEnvNumber env "RATE_LIMIT_TWITTER_FOLLOW" 50;
          dm := getEnvNumber env "RATE_LIMIT_TWITTER_DM" 20;
          post := getEnvNumber env "RATE_LIMIT_TWITTER_POST" 10;
          connect := 0 |};
     linkedin :=
       {| like := getEnvNumber env "RATE_LIMIT_LINKEDIN_LIKE" 100;
          comment := getEnvNumber env "RATE_LIMIT_LINKEDIN_COMMENT" 30;
          follow := getEnvNumber env "RATE_LIMIT_LINKEDIN_CONNECT" 15;
          dm := getEnvNumber env "RATE_LIMIT_LINKEDIN_MESSAGE" 40;
          post := getEnvNumber env "RATE_LIMIT_LINKEDIN_POST" 5;
          connect := getEnvNumber env "RATE_LIMIT_LINKEDIN_CONNECT" 15 |} |}.

(** The [delays] member of [loadConfig()]. *)
Definition delays (env : Env) : DelayConfig :=
  {| minMs := getEnvNumber env "DELAY_MIN_MS" 1500;
     maxMs := getEnvNumber env "DELAY_MAX_MS" 4000;
     typingMinMs := getEnvNumber env "TYPING_SPEED_MIN_MS" 30;
     typingMaxMs := getEnvNumber env "TYPING_SPEED_MAX_MS" 100 |}.

(** [config.rateLimits[platform][action]], the daily cap the configuration
    resolves for a platform and an action type.  No week or day number
    enters it. *)
Definition platformLimits (c : RateLimitConfig) (p : Platform) : ActionLimits :=
  match p with
  | Instagram => instagram c
  | Twitter => twitter c
  | Linkedin => linkedin c
  end.

Definition actionLimit (l : ActionLimits) (a : ActionType) : Z :=
  match a with
  | Like => like l
  | Comment => comment l
  | Follow => follow l
  | Dm => dm l
  | Post => post l
  | Connect => connect l
  end.

Definition resolvedDailyCap (env : Env) (p : Platform) (a : ActionType) : Z :=
  actionLimit (platformLimits (rateLimits env) p) a.

(** The variables that override a daily cap. *)
Definition rateLimitKeys : list string :=
  [ "RATE_LIMIT_INSTAGRAM_LIKE"; "RATE_LIMIT_INSTAGRAM_COMMENT";
    "RATE_LIMIT_INSTAGRAM_FOLLOW"; "RATE_LIMIT_INSTAGRAM_DM";
    "RATE_LIMIT_INSTAGRAM_POST";
    "RATE_LIMIT_TWITTER_LIKE"; "RATE_LIMIT_TWITTER_COMMENT";
    "RATE_LIMIT_TWITTER_FOLLOW"; "RATE_LIMIT_TWITTER_DM";
    "RATE_LIMIT_TWITTER_POST";
    "RATE_LIMIT_LINKEDIN_LIKE"; "RATE_LIMIT_LINKEDIN_COMMENT";
    "RATE_LIMIT_LINKEDIN_CONNECT"; "RATE_LIMIT_LINKEDIN_MESSAGE";
    "RATE_LIMIT_LINKEDIN_POST" ].

Definition delayKeys : list string :=
  [ "DELAY_MIN_MS"; "DELAY_MAX_MS"; "TYPING_SPEED_MIN_MS"; "TYPING_SPEED_MAX_MS" ].

(** None of the listed variables is set. *)
Definition unset (keys : list string) (env : Env) : Prop :=
  Forall (fun k => env !! k = None) keys.

(** The full-cap table of the specification (week 5 and later): likes,
    comments, follows, direct messages per day. *)
Definition fullCap (a : ActionType) : option Z :=
  match a with
  | Like => Some 100
  | Comment => Some 30
  | Follow | Connect => Some 50
  | Dm => Some 50
  | Post => None
  end.

End Config.

(* ===================================================================== *)
(** * cli.ts: the retry wrapper and the action commands                   *)
(* ===================================================================== *)

Module Cli.
Import Js.

(** ** Outcomes, events and the state of the process *)

(** An [Error] object: its [name] ("Error", "TypeError", ...) and message. *)
Record JsError : Type := {
  name : string;
  message : string
}.

(** [new Error(message)]. *)
Definition newError (message : string) : JsError :=
  {| name := "Error"; message := message |}.

(** What a [catch] clause receives: an [Error], or another value, kept as
    its [String(v)]. *)
Inductive Thrown : Type :=
| ThrownError (e : JsError)
| ThrownOther (text : string).

(** [String(error)]. *)
Definition stringOf (t : Thrown) : string :=
  match t with
  | ThrownError e =>
      if String.eqb (message e) "" then name e
      else if String.eqb (name e) "" then message e
      else name e +:+ ": " +:+ message e
  | ThrownOther s => s
  end.

(** [error instanceof Error ? error : new Error(String(error))]. *)
Definition toError (t : Thrown) : JsError :=
  match t with
  | ThrownError e => e
  | ThrownOther s => newError s
  end.

(** [error instanceof Error ? error.message : String(error)]. *)
Definition messageOf (t : Thrown) : string :=
  match t with
  | ThrownError e => message e
  | ThrownOther s => s
  end.

Inductive Outcome (A : Type) : Type :=
| Returned (a : A)
| Threw (t : Thrown)
| Exited (code : Z).

Arguments Returned {A} a.
Arguments Threw {A} t.
Arguments Exited {A} code.

Inductive EventName : Type :=
| ActionComplete | ActionError | SessionLogin | RatelimitExceeded.

Record NotificationPayload : Type := {
  event : EventName;
  platform : string;
  action : string;
  success : bool;
  target : string;
  error : option string;
  details : JsValue;
  timestamp : Z
}.

(** The platform handler methods the commands call. *)
Inductive HandlerCall : Type :=
| InstagramLike (url : string)
| InstagramFollow (username : string)
| InstagramComment (url text : string)
| TwitterLike (url : string)
| TwitterFollow (username : string)
| LinkedinConnect (profileUrl : string) (note : option string).

(** The limiter's report on one (platform, action type). *)
Record RateLimitStatus : Type := {
  remaining : Z;
  total : Z;
  nextAvailableAt : option Z
}.

(** An [ActionResult]: the commands read [success] and [error]; the
    handlers fill the rest. *)
Record ActionResult : Type := {
  res_success : bool;
  res_error : option string;
  res_action : string;
  res_target : string;
  res_startTime : Z;
  res_rateLimit : RateLimitStatus;
  res_details : list (string * JsValue)
}.

(** What the process does that can be observed from outside, in order:
    console output, writes to [process.env], waits, the calls into the
    collaborators, and [Attempt n], the n-th time [withRetry] invokes the
    unit of work. *)
Inductive Event : Type :=
| Stdout (line : string)
| Stderr (line : string)
| StderrThrown (label : string) (t : Thrown)
| SetEnv (key value : string)
| Sleep (ms : Z)
| Construct
| Initialize
| Attempt (n : Z)
| Notify (p : NotificationPayload)
| Shutdown.

(** The collaborators of the command line.  [S] is their state: the
    browser session, the persisted quotas, the notifier and the clock. *)
Class Collaborators (S : Type) : Type := {
  (** [new ClawSocial({ browser: { headless: true } })], which sees the
      environment of the process. *)
  construct : Config.Env -> S -> Outcome unit * S;
  (** [claw.initialize()] and [claw.shutdown()]. *)
  initialize : S -> Outcome unit * S;
  shutdown : S -> Outcome unit * S;
  (** [claw.instagram.like({ url })] and the like. *)
  invoke : HandlerCall -> S -> Outcome ActionResult * S;
  (** [claw.notifier.isEnabled()] and [claw.notifier.notify(payload)]. *)
  isEnabled : S -> bool;
  notify : NotificationPayload -> S -> Outcome unit * S;
  (** [Date.now()], and what the passing of [ms] milliseconds does. *)
  dateNow : S -> Z;
  elapse : Z -> S -> S;
  (** [JSON.parse]; [None] when it throws a [SyntaxError]. *)
  JSON_parse : string -> option JsValue
}.

(** An awaited computation over a state [St]. *)
Definition Prog (St A : Type) : Type := St -> Outcome A * St.

Definition ret {St A} (a : A) : Prog St A := fun w => (Returned a, w).

Definition bind {St A B} (m : Prog St A) (k : A -> Prog St B) : Prog St B :=
  fun w =>
    match m w with
    | (Returned a, w1) => k a w1
    | (Threw t, w1) => (Threw t, w1)
    | (Exited c, w1) => (Exited c, w1)
    end.

Notation "x <- m ;; k" := (bind m (fun x => k))
  (at level 100, m at next level, right associativity).
Notation "m ;; k" := (bind m (fun _ => k))
  (at level 100, right associativity).

Definition throw {St A} (t : Thrown) : Prog St A := fun w => (Threw t, w).

(** [process.exit(code)]. *)
Definition exit {St A} (code : Z) : Prog St A := fun w => (Exited code, w).

(** [try { body } catch (error) { handler }]. *)
Definition tryCatch {St A} (body : Prog St A) (handler : Thrown -> Prog St A)
  : Prog St A :=
  fun w =>
    match body w with
    | (Threw t, w1) => handler t w1
    | r => r
    end.

Definition when {St} (b : bool) (m : Prog St unit) : Prog St unit :=
  if b then m else ret tt.

(** Reading and updating the state. *)
Definition gets {St A} (f : St -> A) : Prog St A := fun w => (Returned (f w), w).
Definition modify {St} (f : St -> St) : Prog St unit := fun w => (Returned tt, f w).

(** The process of the command line: the collaborators' state, the
    environment variables, and what has been observed so far. *)
Record World (S : Type) : Type := {
  claw : S;
  env : Config.Env;
  trace : list Event
}.

Arguments claw {S} w.
Arguments env {S} w.
Arguments trace {S} w.

Abbreviation M S A := (Prog (World S) A).

Definition emit {S} (e : Event) : M S unit :=
  fun w => (Returned tt, {| claw := claw w; env := env w; trace := trace w ++ [e] |}).

(** A call into the collaborators, recorded by [e]. *)
Definition call {S A} (e : Event) (f : S -> Outcome A * S) : M S A :=
  fun w =>
    let (r, s1) := f (claw w) in
    (r, {| claw := s1; env := env w; trace := trace w ++ [e] |}).

(** [console.log(line)] and [console.error(line)]. *)
Definition console_log {S} (line : string) : M S unit := emit (Stdout line).
Definition console_error {S} (line : string) : M S unit := emit (Stderr line).

(** [process.env[key] = value]. *)
Definition setEnv {S} (key value : string) : M S unit :=
  fun w =>
    (Returned tt,
     {| claw := claw w; env := <[key := value]> (env w);
        trace := trace w ++ [SetEnv key value] |}).

Section Commands.
Context {S : Type} `{Collaborators S}.

(** [await new Promise(resolve => setTimeout(resolve, ms))]. *)
Definition sleep (ms : Z) : M S unit :=
  fun w =>
    (Returned tt,
     {| claw := elapse ms (claw w); env := env w; trace := trace w ++ [Sleep ms] |}).

Definition DEFAULT_RETRIES : Z := 3.
Definition RETRY_DELAY_MS : Z := 5000.

(** [parseContext]: the parsed context, or [undefined]. *)
Definition parseContext (contextStr : option string) : M S JsValue :=
  match contextStr with
  | None => ret JUndefined
  | Some str =>
      if String.eqb str "" then ret JUndefined
      else
        match JSON_parse str with
        | Some v => ret v
        | None =>
            console_error ("Invalid --context JSON: " +:+ str) ;;
            ret JUndefined
        end
  end.

Record RetryOptions : Type := {
  retries : Z;
  actionName : string;
  target_ : string
}.

(** The three lines printed when an attempt other than the last fails. *)
Definition attemptFailedLine (o : RetryOptions) (attempt : Z) : string :=
  "⚠️ Attempt " +:+ pretty attempt +:+ "/" +:+ pretty (retries o)
  +:+ " failed for " +:+ actionName o +:+ " (" +:+ target_ o +:+ ")".

Definition errorLine (message : string) : string := "   Error: " +:+ message.

Definition retryingLine : string :=
  "   Retrying in " +:+ pretty (RETRY_DELAY_MS / 1000) +:+ "s...".

(** The body of the [for] loop of [withRetry], from attempt number
    [attempt] on, with [remaining] iterations left. *)
Fixpoint withRetry_from {T} (action : S -> Outcome T * S) (o : RetryOptions)
    (remaining : nat) (attempt : Z) (lastError : option JsError) : M S T :=
  match remaining with
  | O =>
      throw (match lastError with
             | Some e => ThrownError e
             | None => ThrownOther "undefined"
             end)
  | Datatypes.S k =>
      tryCatch
        (call (Attempt attempt) action)
        (fun error =>
           let lastError := toError error in
           when (attempt <? retries o)%Z
             (console_log (attemptFailedLine o attempt) ;;
              console_log (errorLine (message lastError)) ;;
              console_log retryingLine ;;
              sleep RETRY_DELAY_MS) ;;
           withRetry_from action o k (attempt + 1) (Some lastError))
  end.

(** [withRetry(action, options)]: the loop runs for
    [attempt = 1 .. options.retries]. *)
Definition withRetry {T} (action : S -> Outcome T * S) (o : RetryOptions) : M S T :=
  withRetry_from action o (Z.to_nat (retries o)) 1 None.

(** [parseRetries]. *)
Definition parseRetries (retriesStr : option string) : Z :=
  match retriesStr with
  | None => DEFAULT_RETRIES
  | Some str =>
      if String.eqb str "" then DEFAULT_RETRIES
      else
        match parseInt str with
        | None => DEFAULT_RETRIES
        | Some n => Z.max 1 (Z.min n 10)
        end
  end.

(** [sendNotificationWithContext]. *)
Definition sendNotificationWithContext (platform action : string) (success : bool)
    (target : string) (context : JsValue) (error : option string) : M S unit :=
  fun w =>
    if negb (isEnabled (claw w)) then (Returned tt, w)
    else
      let payload :=
        {| event := if success then ActionComplete else ActionError;
           platform := platform;
           action := action;
           success := success;
           target := target;
           error := error;
           details := context;
           timestamp := dateNow (claw w) |} in
      call (Notify payload) (notify payload) w.

(** ** The action commands

    [ig like], [ig follow], [ig comment], [x like], [x follow] and
    [linkedin connect] are one text with different constants. *)

Record ActionCommand : Type := {
  cmd_platform : string;      (* 'instagram' *)
  cmd_action : string;        (* 'like' *)
  cmd_call : HandlerCall;     (* claw.instagram.like({ url }) *)
  cmd_failed : string;        (* 'Like failed' *)
  cmd_name : string;          (* actionName: 'IG like' *)
  cmd_retryTarget : string;   (* target of withRetry *)
  cmd_done : string;          (* the line printed on success *)
  cmd_verb : string;          (* 'like' of 'Failed to like after' *)
  cmd_target : string;        (* target of the notification *)
  cmd_defaults : list (string * JsValue)   (* { postUrl: url } *)
}.

Record ActionOptions : Type := {
  opt_context : option string;
  opt_retries : option string
}.

(** The closure passed to [withRetry]. *)
Definition unitOfWork (c : ActionCommand) : S -> Outcome ActionResult * S :=
  fun s =>
    match invoke (cmd_call c) s with
    | (Returned res, s1) =>
        if negb (res_success res)
        then (Threw (ThrownError (newError (orElse (res_error res) (cmd_failed c)))), s1)
        else (Returned res, s1)
    | r => r
    end.

Definition constructClaw : M S unit :=
  fun w => call Construct (construct (env w)) w.

Definition failedLine (c : ActionCommand) (retries : Z) (errorMsg : string) : string :=
  "❌ Failed to " +:+ cmd_verb c +:+ " after " +:+ pretty retries
  +:+ " attempts: " +:+ errorMsg.

Definition runAction (c : ActionCommand) (options : ActionOptions) : M S unit :=
  let retries := parseRetries (opt_retries options) in
  context <- parseContext (opt_context options) ;;
  when (truthy context) (setEnv "CLAWSOCIAL_SILENT" "1") ;;
  constructClaw ;;
  tryCatch
    (call Initialize initialize ;;
     withRetry (unitOfWork c)
       {| retries := retries; actionName := cmd_name c; target_ := cmd_retryTarget c |} ;;
     console_log (cmd_done c) ;;
     when (truthy context)
       (sendNotificationWithContext (cmd_platform c) (cmd_action c) true (cmd_target c)
          (JObject (spread (cmd_defaults c) context)) None) ;;
     call Shutdown shutdown)
    (fun error =>
       let errorMsg := messageOf error in
       console_log (failedLine c retries errorMsg) ;;
       when (truthy context)
         (sendNotificationWithContext (cmd_platform c) (cmd_action c) false (cmd_target c)
            context (Some errorMsg)) ;;
       call Shutdown shutdown ;;
       exit 1).

Definition ig_like (url : string) : ActionCommand :=
  {| cmd_platform := "instagram"; cmd_action := "like";
     cmd_call := InstagramLike url; cmd_failed := "Like failed";
     cmd_name := "IG like"; cmd_retryTarget := url;
     cmd_done := "✅ Liked post: " +:+ url; cmd_verb := "like";
     cmd_target := url;
     cmd_defaults := [("postUrl", JString url)] |}.

Definition ig_follow (username : string) : ActionCommand :=
  {| cmd_platform := "instagram"; cmd_action := "follow";
     cmd_call := InstagramFollow username; cmd_failed := "Follow failed";
     cmd_name := "IG follow"; cmd_retryTarget := "@" +:+ username;
     cmd_done := "✅ Followed: @" +:+ username; cmd_verb := "follow @" +:+ username;
     cmd_target := username;
     cmd_defaults := [("profileUrl", JString ("https://instagram.com/" +:+ username))] |}.

Definition ig_comment (url text : string) : ActionCommand :=
  {| cmd_platform := "instagram"; cmd_action := "comment";
     cmd_call := InstagramComment url text; cmd_failed := "Comment failed";
     cmd_name := "IG comment"; cmd_retryTarget := url;
     cmd_done := "✅ Commented on: " +:+ url; cmd_verb := "comment";
     cmd_target := url;
     cmd_defaults := [("postUrl", JString url); ("commentText", JString text)] |}.

Definition x_like (url : string) : ActionCommand :=
  {| cmd_platform := "twitter"; cmd_action := "like";
     cmd_call := TwitterLike url; cmd_failed := "Like failed";
     cmd_name := "X like"; cmd_retryTarget := url;
     cmd_done := "✅ Liked tweet: " +:+ url; cmd_verb := "like";
     cmd_target := url;
     cmd_defaults := [("postUrl", JString url)] |}.

(** The user name [x follow] extracts from its argument. *)
Fixpoint startsWith (p s : string) : option string :=
  match p, s with
  | EmptyString, _ => Some s
  | String a p', String b s' => if Ascii.eqb a b then startsWith p' s' else None
  | String _ _, EmptyString => None
  end.

Fixpoint includes (s sub : string) : bool :=
  match startsWith sub s with
  | Some _ => true
  | None => match s with
            | EmptyString => false
            | String _ rest => includes rest sub
            end
  end.

(** [\w]. *)
Definition isWord (c : ascii) : bool :=
  let n := code c in
  ((48 <=? n) && (n <=? 57) || (65 <=? n) && (n <=? 90)
   || (97 <=? n) && (n <=? 122) || (n =? 95))%N.

Fixpoint takeWord (s : string) : string :=
  match s with
  | String c rest => if isWord c then String c (takeWord rest) else EmptyString
  | EmptyString => EmptyString
  end.

(** The group [(@?[\w]+)] at the start of [s]. *)
Definition handleGroup (s : string) : option string :=
  match s with
  | String "@" rest =>
      let w := takeWord rest in
      if String.eqb w "" then None else Some (String "@" w)
  | _ =>
      let w := takeWord s in
      if String.eqb w "" then None else Some w
  end.

(** The first match of [/(?:x\.com|twitter\.com)\/(@?[\w]+)/], its group. *)
Fixpoint matchProfile (s : string) : option string :=
  let here :=
    match startsWith "x.com/" s with
    | Some rest => handleGroup rest
    | None => match startsWith "twitter.com/" s with
              | Some rest => handleGroup rest
              | None => None
              end
    end in
  match here with
  | Some g => Some g
  | None => match s with
            | EmptyString => None
            | String _ rest => matchProfile rest
            end
  end.

(** [s.replace('@', '')]: the first [@] is removed. *)
Fixpoint removeFirstAt (s : string) : string :=
  match s with
  | EmptyString => EmptyString
  | String c rest => if Ascii.eqb c "@" then rest else String c (removeFirstAt rest)
  end.

(** [s.replace(/^@/, '')]. *)
Definition stripLeadingAt (s : string) : string :=
  match s with
  | String "@" rest => rest
  | _ => s
  end.

Definition twitterUsername (usernameOrUrl : string) : string :=
  let username :=
    if includes usernameOrUrl "x.com/" || includes usernameOrUrl "twitter.com/"
    then match matchProfile usernameOrUrl with
         | Some g => removeFirstAt g
         | None => usernameOrUrl
         end
    else usernameOrUrl in
  stripLeadingAt username.

Definition x_follow (usernameOrUrl : string) : ActionCommand :=
  let username := twitterUsername usernameOrUrl in
  {| cmd_platform := "twitter"; cmd_action := "follow";
     cmd_call := TwitterFollow username; cmd_failed := "Follow failed";
     cmd_name := "X follow"; cmd_retryTarget := "@" +:+ username;
     cmd_done := "✅ Followed: @" +:+ username; cmd_verb := "follow @" +:+ username;
     cmd_target := username;
     cmd_defaults := [("profileUrl", JString ("https://x.com/" +:+ username))] |}.

Definition linkedin_connect (url : string) (note : option string) : ActionCommand :=
  {| cmd_platform := "linkedin"; cmd_action := "connect";
     cmd_call := LinkedinConnect url note; cmd_failed := "Connect failed";
     cmd_name := "LinkedIn connect"; cmd_retryTarget := url;
     cmd_done := "✅ Sent connection request to: " +:+ url; cmd_verb := "connect";
     cmd_target := url;
     cmd_defaults :=
       [("profileUrl", JString url);
        ("note", match note with Some n => JString n | None => JUndefined end)] |}.

(** ** [notify report <platform> <action> <target>] *)

Record ReportOptions : Type := {
  rep_context : option string;
  rep_error : option string
}.

Definition notifyReport (platform action target : string) (options : ReportOptions)
  : M S unit :=
  tryCatch
    (constructClaw ;;
     enabled <- gets (fun w => isEnabled (claw w)) ;;
     when (negb enabled)
       (console_log "❌ Notifications disabled. Set NOTIFY_ENABLED=true" ;; exit 1) ;;
     details <-
       match rep_context options with
       | None => ret (JObject [])
       | Some str =>
           if String.eqb str "" then ret (JObject [])
           else match JSON_parse str with
                | Some v => ret v
                | None => console_error "❌ Invalid JSON in --context" ;; exit 1
                end
       end ;;
     let success := negb (truthy (match rep_error options with
                                  | Some e => JString e
                                  | None => JUndefined
                                  end)) in
     now <- gets (fun w => dateNow (claw w)) ;;
     let payload :=
       {| event := if success then ActionComplete else ActionError;
          platform := platform;
          action := action;
          success := success;
          target := target;
          error := rep_error options;
          details := details;
          timestamp := now |} in
     call (Notify payload) (notify payload) ;;
     console_log ("✅ " +:+ toUpperCase platform +:+ " " +:+ toUpperCase action
                  +:+ " report sent"))
    (fun error => emit (StderrThrown "Error:" error) ;; exit 1).

(** ** Reading a trace *)

Definition attempts (tr : list Event) : list Z :=
  omap (fun e => match e with Attempt n => Some n | _ => None end) tr.

Definition sleeps (tr : list Event) : list Z :=
  omap (fun e => match e with Sleep ms => Some ms | _ => None end) tr.

Definition notifications (tr : list Event) : list NotificationPayload :=
  omap (fun e => match e with Notify p => Some p | _ => None end) tr.

Definition stdout (tr : list Event) : list string :=
  omap (fun e => match e with Stdout l => Some l | _ => None end) tr.

Definition stderr (tr : list Event) : list string :=
  omap (fun e => match e with Stderr l => Some l | _ => None end) tr.

(** The console lines that announce a failed attempt. *)
Definition isAttemptFailedLine (line : string) : bool :=
  String.prefix "⚠️ Attempt " line.

Definition failedAttemptLines (tr : list Event) : list string :=
  List.filter isAttemptFailedLine (stdout tr).

(** The error notifications among the notifications of a trace. *)
Definition errorNotifications (tr : list Event) : list NotificationPayload :=
  List.filter (fun p => negb (success p)) (notifications tr).

(** No attempt is made after a notification has been sent. *)
Fixpoint noAttemptAfterNotify (tr : list Event) : Prop :=
  match tr with
  | [] => True
  | Notify _ :: rest => attempts rest = [] /\ noAttemptAfterNotify rest
  | _ :: rest => noAttemptAfterNotify rest
  end.

(** What one failed attempt that is retried leaves in the trace, and what
    a run of such attempts leaves, numbered from [attempt]. *)
Definition retryBlock (o : RetryOptions) (attempt : Z) (t : Thrown) : list Event :=
  [ Attempt attempt;
    Stdout (attemptFailedLine o attempt);
    Stdout (errorLine (message (toError t)));
    Stdout retryingLine;
    Sleep RETRY_DELAY_MS ].

Fixpoint retryBlocks (o : RetryOptions) (attempt : Z) (errs : list Thrown)
  : list Event :=
  match errs with
  | [] => []
  | t :: rest => retryBlock o attempt t ++ retryBlocks o (attempt + 1) rest
  end.

(** The state in which the attempt after [k] failed attempts starts. *)
Fixpoint nthState {T} (action : S -> Outcome T * S) (k : nat) (s : S) : S :=
  match k with
  | O => s
  | Datatypes.S k' => nthState action k' (elapse RETRY_DELAY_MS (snd (action s)))
  end.

(** A collaborator operation that always returns normally. *)
Definition returns {A} (f : S -> Outcome A * S) : Prop :=
  forall s, exists a s', f s = (Returned a, s').

(** A collaborator operation that never ends the process. *)
Definition neverExits {A} (f : S -> Outcome A * S) : Prop :=
  forall s code s', f s <> (Exited code, s').

(** The collaborators of a run that goes as planned: construction, the
    notifier and shutdown return, and nothing ends the process. *)
Definition wellBehaved : Prop :=
  (forall e, returns (construct e))
  /\ returns shutdown
  /\ (forall p, returns (notify p))
  /\ neverExits initialize
  /\ (forall c, neverExits (invoke c)).

(** A unit of work that throws whenever it is invoked. *)
Definition alwaysFails {T} (action : S -> Outcome T * S) : Prop :=
  forall s, exists t s', action s = (Threw t, s').

End Commands.

End Cli.

(* ===================================================================== *)
(** * platforms/instagram.ts: the rate-limit gate of a handler            *)
(* ===================================================================== *)

Module Instagram.
Import Js Cli.

(** The entries of [SELECTORS] that [like] uses. *)
Inductive Selector : Type := LikeButton | UnlikeButton.

(** What [InstagramHandler] inherits from [BasePlatformHandler] and from
    the runtime, acting on the collaborators' state [S]. *)
Class Handler (S : Type) : Type := {
  checkAndRecordAction : Config.ActionType -> S -> Outcome (bool * RateLimitStatus) * S;
  recordAction : Config.ActionType -> S -> Outcome unit * S;
  navigate : string -> S -> Outcome unit * S;
  warmUp : Z -> S -> Outcome unit * S;
  think : S -> Outcome unit * S;
  pause : S -> Outcome unit * S;
  elementExists : Selector -> S -> Outcome bool * S;
  clickHuman : Selector -> S -> Outcome unit * S;
  (** [Math.floor(Math.random() * n)]. *)
  randomBelow : Z -> S -> Z * S;
  (** [log.info(message, ...)] and [log.error(message, ...)]. *)
  log_info : string -> S -> S;
  log_error : string -> S -> S;
  (** [Date.now()]. *)
  clock : S -> Z
}.

(** Modelled from the spec: [createErrorResult] and [createResult] of the
    handler base class, which is not among the sources.  The handler
    reports "success/failure and optional result fields"; the fields are
    the arguments of the call and what the command line reads back
    ([success], [error]). *)
Definition createErrorResult (action target error : string) (startTime : Z)
    (status : RateLimitStatus) : ActionResult :=
  {| res_success := false; res_error := Some error;
     res_action := action; res_target := target; res_startTime := startTime;
     res_rateLimit := status; res_details := [] |}.

Definition createResult (action target : string) (startTime : Z)
    (status : RateLimitStatus) (details : list (string * JsValue)) : ActionResult :=
  {| res_success := true; res_error := None;
     res_action := action; res_target := target; res_startTime := startTime;
     res_rateLimit := status; res_details := details |}.

Section Handlers.
Context {S : Type} `{Handler S}.

Definition baseUrl : string := "https://www.instagram.com".

(** What [like] does once the limiter has allowed it. *)
Definition likeAllowed (url : string) (startTime : Z) (status : RateLimitStatus)
  : Prog S ActionResult :=
  tryCatch
    (modify (log_info "Liking Instagram post") ;;
     navigate (baseUrl +:+ "/") ;;
     r <- (fun s => let (n, s1) := randomBelow 2 s in (Returned n, s1)) ;;
     warmUp (2 + r) ;;
     navigate url ;;
     think ;;
     already <- elementExists UnlikeButton ;;
     if already : bool then
       modify (log_info "Post already liked") ;;
       ret (createResult "like" url startTime status
              [("postUrl", JString url);
               ("actions", JArray [JString "‚ù§Ô∏è Already Liked"])])
     else
       found <- elementExists LikeButton ;;
       if negb found then
         ret (createErrorResult "like" url "Like button not found" startTime status)
       else
         clickHuman LikeButton ;;
         pause ;;
         liked <- elementExists UnlikeButton ;;
         if liked : bool then
           recordAction Config.Like ;;
           modify (log_info "Successfully liked Instagram post") ;;
           ret (createResult "like" url startTime status
                  [("postUrl", JString url);
                   ("actions", JArray [JString "‚ù§Ô∏è Liked"])])
         else
           ret (createErrorResult "like" url "Like action failed" startTime status))
    (fun error =>
       modify (log_error "Error liking Instagram post") ;;
       ret (createErrorResult "like" url (stringOf error) startTime status)).

(** [InstagramHandler.like(payload)], with [url = payload.url].  The other
    actions ([comment], [follow], [unfollow], [dm]) open with the same
    check and the same early return. *)
Definition like (url : string) : Prog S ActionResult :=
  startTime <- gets clock ;;
  gate <- checkAndRecordAction Config.Like ;;
  let '(allowed, status) := gate in
  if negb allowed then
    ret (createErrorResult "like" url "Rate limit exceeded" startTime status)
  else
    likeAllowed url startTime status.

End Handlers.

End Instagram.

(* ===================================================================== *)
(** * The rate limiter and the timing jitter of the specification         *)
(* ===================================================================== *)

Module Limiter.
Import Cli.

(** The persisted record of one (platform, action type). *)
Record ActionQuota : Type := {
  count : Z;
  windowStart : Z;
  lastActionAt : option Z;
  dailyLimit : Z
}.

Record Decision : Type := {
  allowed : bool;
  status : RateLimitStatus;
  reason : option string
}.

(** The Quota Store: records keyed by (platform, action type). *)
Abbreviation Store := (gmap (string * string) ActionQuota).

Section RateLimiter.

(** The minimum gap of an action type, in milliseconds. *)
Variable minimumGap : string -> Z.
(** Steps 1 and 2 of the algorithm: the effective daily cap drawn for a
    platform and an action type in the window that starts at the given
    time; the same within one window. *)
Variable effectiveDailyCap : string -> string -> Z -> Z.
(** The quota window, left open by the specification: the start of the
    window a time falls in, and the boundary of the window that starts at
    a given time. *)
Variable windowOf : Z -> Z.
Variable windowEnd : Z -> Z.

(** Modelled from the spec: steps 3 to 6 of [checkAndRecordAction]
    (section 4.2) on the loaded quota; utils/rate-limiter.ts is not among
    the sources.  Step 3 resets the count when the window boundary is
    crossed, step 4 enforces the minimum gap, step 5 the daily cap, step 6
    records the action. *)
Definition step (platform actionType : string) (now : Z) (loaded : ActionQuota)
  : Decision * ActionQuota :=
  let q1 :=
    if (windowEnd (windowStart loaded) <=? now)%Z
    then {| count := 0; windowStart := windowOf now;
            lastActionAt := lastActionAt loaded; dailyLimit := dailyLimit loaded |}
    else loaded in
  let cap := effectiveDailyCap platform actionType (windowStart q1) in
  let q := {| count := count q1; windowStart := windowStart q1;
              lastActionAt := lastActionAt q1; dailyLimit := cap |} in
  let deny (why : string) (next : Z) :=
    ({| allowed := false;
        status := {| remaining := cap - count q; total := cap;
                     nextAvailableAt := Some next |};
        reason := Some why |}, q) in
  let checkCap :=
    if (cap <=? count q)%Z then
      deny "daily cap reached" (windowEnd (windowStart q))
    else
      ({| allowed := true;
          status := {| remaining := cap - (count q + 1); total := cap;
                       nextAvailableAt := None |};
          reason := None |},
       {| count := count q + 1; windowStart := windowStart q;
          lastActionAt := Some now; dailyLimit := cap |}) in
  match lastActionAt q with
  | Some last =>
      if (now - last <? minimumGap actionType)%Z
      then deny "minimum gap not met" (last + minimumGap actionType)
      else checkCap
  | None => checkCap
  end.

(** The record created for a pair seen for the first time. *)
Definition fresh (platform actionType : string) (now : Z) : ActionQuota :=
  {| count := 0; windowStart := windowOf now; lastActionAt := None;
     dailyLimit := effectiveDailyCap platform actionType (windowOf now) |}.

(** Modelled from the spec: [checkAndRecordAction(platform, actionType)]
    at time [now]: load the quota, decide, and persist the updated quota
    of an allowed call before returning. *)
Definition checkAndRecordAction (platform actionType : string) (now : Z) (store : Store)
  : Decision * Store :=
  let k := (platform, actionType) in
  let loaded := default (fresh platform actionType now) (store !! k) in
  let (d, q) := step platform actionType now loaded in
  (d, if allowed d then <[k := q]> store else store).

(** A sequence of calls, each with its platform, action type and time. *)
Fixpoint calls (cs : list (string * string * Z)) (store : Store)
  : list Decision * Store :=
  match cs with
  | [] => ([], store)
  | (p, a, now) :: rest =>
      let (d, store1) := checkAndRecordAction p a now store in
      let (ds, store2) := calls rest store1 in
      (d :: ds, store2)
  end.

(** The calls of one pair at the given times, on its loaded quota. *)
Fixpoint steps (platform actionType : string) (times : list Z) (q : ActionQuota)
  : list Decision * ActionQuota :=
  match times with
  | [] => ([], q)
  | now :: rest =>
      let (d, q1) := step platform actionType now q in
      let (ds, q2) := steps platform actionType rest q1 in
      (d :: ds, q2)
  end.

End RateLimiter.

(** The operations of the handlers on the Quota Store. *)
Inductive Operation : Type :=
| CheckAndRecord (platform actionType : string) (now : Z)
| RecordAction (platform actionType : string) (now : Z).

Section Operations.

Variable minimumGap : string -> Z.
Variable effectiveDailyCap : string -> string -> Z -> Z.
Variable windowOf : Z -> Z.
Variable windowEnd : Z -> Z.

(** [recordAction(actionType)], which the handlers call after a
    successful action.  Neither its code nor a description of it is among
    the sources, so it is left open: any function of the store. *)
Variable recordAction : string -> string -> Z -> Store -> Store.

(** Modelled from the spec: the specification counts an action when
    [checkAndRecordAction] allows it (step 6) and defines [count] as the
    actions taken in the window, so a [recordAction] that agrees with it
    does not count the action a second time: it leaves the count and the
    daily limit of every record as they are. *)
Definition keepsCounts : Prop :=
  forall (platform actionType : string) (now : Z) (store : Store) (k : string * string),
    (count <$> recordAction platform actionType now store !! k) = (count <$> store !! k)
    /\ (dailyLimit <$> recordAction platform actionType now store !! k)
       = (dailyLimit <$> store !! k).

(** Modelled from the spec: a sequence of operations on the store. *)
Fixpoint operations (ops : list Operation) (store : Store) : Store :=
  match ops with
  | [] => store
  | CheckAndRecord p a now :: rest =>
      operations rest
        (snd (checkAndRecordAction minimumGap effectiveDailyCap windowOf windowEnd
                p a now store))
  | RecordAction p a now :: rest => operations rest (recordAction p a now store)
  end.

End Operations.

(** The time of the last allowed call among the calls made at [times]
    with decisions [ds]; [before] when none was allowed. *)
Fixpoint lastAllowed (times : list Z) (ds : list Decision) (before : option Z)
  : option Z :=
  match times, ds with
  | now :: times', d :: ds' =>
      lastAllowed times' ds' (if allowed d then Some now else before)
  | _, _ => before
  end.

(** The number of allowed calls among the decisions. *)
Definition allowedCount (ds : list Decision) : Z :=
  Z.of_nat (length (List.filter allowed ds)).

(** Every persisted count is within its daily limit. *)
Definition withinLimits (store : Store) : Prop :=
  map_Forall (fun _ q => count q <= dailyLimit q) store.

End Limiter.

Module Jitter.

(** Modelled from the spec: a "simple uniform draw" from a range of whole
    milliseconds (utils/delays.ts is not among the sources); [r] is the
    random number consumed, reduced to the width of the range. *)
Definition uniform (lo hi r : Z) : Z := lo + r mod (hi - lo + 1).

(** Modelled from the spec: [generateMicroDelay()] and
    [generateTypingDelay()] draw from the ranges of [config.delays]; they
    keep no memory of earlier draws. *)
Definition generateMicroDelay (d : Config.DelayConfig) (r : Z) : Z :=
  uniform (Config.minMs d) (Config.maxMs d) r.

Definition generateTypingDelay (d : Config.DelayConfig) (r : Z) : Z :=
  uniform (Config.typingMinMs d) (Config.typingMaxMs d) r.

End Jitter.

(* ===================================================================== *)
(** * Concrete collaborators for the examples                             *)
(* ===================================================================== *)

Module Samples.
Import Js Cli.

(** [JSON.parse] on the texts the examples pass to it: the empty object,
    [null], a one-element array, and the malformed text of an unclosed
    brace (a [SyntaxError]).  No other text reaches it in the examples. *)
Definition sampleParse (text : string) : option JsValue :=
  if String.eqb text "{}" then Some (JObject [])
  else if String.eqb text "null" then Some JNull
  else if String.eqb text "[1]" then Some (JArray [JNumber 1])
  else None.

(** A scripted session: the next [sim_failures] handler calls report a
    failure, the later ones succeed; everything else returns normally and
    the notifier is enabled. *)
Record Sim : Type := {
  sim_now : Z;
  sim_failures : nat
}.

Definition simStatus : RateLimitStatus :=
  {| remaining := 1; total := 2; nextAvailableAt := None |}.

Definition simInvoke (c : HandlerCall) (s : Sim) : Outcome ActionResult * Sim :=
  match sim_failures s with
  | O => (Returned (Instagram.createResult "like" "" (sim_now s) simStatus []), s)
  | Datatypes.S n =>
      (Returned (Instagram.createErrorResult "like" "" "Element not found"
                   (sim_now s) simStatus),
       {| sim_now := sim_now s; sim_failures := n |})
  end.

#[export] Instance scripted : Collaborators Sim := {|
  construct _ s := (Returned tt, s);
  initialize s := (Returned tt, s);
  shutdown s := (Returned tt, s);
  invoke := simInvoke;
  isEnabled _ := true;
  notify _ s := (Returned tt, s);
  dateNow := sim_now;
  elapse ms s := {| sim_now := sim_now s + ms; sim_failures := sim_failures s |};
  JSON_parse := sampleParse
|}.

Definition world0 {S} (s : S) : World S := {| claw := s; env := ∅; trace := [] |}.

(** A unit of work on the scripted session that throws while failures are
    left. *)
Definition flaky (s : Sim) : Outcome string * Sim :=
  match sim_failures s with
  | O => (Returned "done", s)
  | Datatypes.S n =>
      (Threw (ThrownError (newError ("failure at " +:+ pretty (sim_now s)))),
       {| sim_now := sim_now s; sim_failures := n |})
  end.

(** The limiter of the specification with the minimum gaps of the
    automation rules (likes 5 min, comments and DMs 10 min, connection
    requests 15 min), first-day caps (2 likes, 1 comment, nothing else)
    and UTC calendar days as windows. *)
Definition sampleGap (actionType : string) : Z :=
  if String.eqb actionType "like" then 300000
  else if String.eqb actionType "comment" then 600000
  else if String.eqb actionType "dm" then 600000
  else 900000.

Definition sampleCap (platform actionType : string) (windowStart : Z) : Z :=
  if String.eqb actionType "like" then 2
  else if String.eqb actionType "comment" then 1
  else 0.

Definition dayMs : Z := 86400000.
Definition sampleWindowOf (now : Z) : Z := now / dayMs * dayMs.
Definition sampleWindowEnd (start : Z) : Z := start + dayMs.

Definition sampleCheck : string -> string -> Z -> Limiter.Store -> Limiter.Decision * Limiter.Store :=
  Limiter.checkAndRecordAction sampleGap sampleCap sampleWindowOf sampleWindowEnd.

(** An Instagram session behind that limiter: the page shows the post as
    liked or not, and a click on the like button likes it. *)
Record Session : Type := {
  ses_now : Z;
  ses_store : Limiter.Store;
  ses_liked : bool;
  ses_visited : list string
}.

Definition actionKey (a : Config.ActionType) : string :=
  match a with
  | Config.Like => "like"
  | Config.Comment => "comment"
  | Config.Follow => "follow"
  | Config.Dm => "dm"
  | Config.Post => "post"
  | Config.Connect => "connect"
  end.

Definition sessionCheck (a : Config.ActionType) (s : Session)
  : Outcome (bool * RateLimitStatus) * Session :=
  let (d, store1) := sampleCheck "instagram" (actionKey a) (ses_now s) (ses_store s) in
  (Returned (Limiter.allowed d, Limiter.status d),
   {| ses_now := ses_now s; ses_store := store1; ses_liked := ses_liked s;
      ses_visited := ses_visited s |}).

#[export] Instance session : Instagram.Handler Session := {|
  Instagram.checkAndRecordAction := sessionCheck;
  Instagram.recordAction _ s := (Returned tt, s);
  Instagram.navigate url s :=
    (Returned tt,
     {| ses_now := ses_now s; ses_store := ses_store s; ses_liked := ses_liked s;
        ses_visited := ses_visited s ++ [url] |});
  Instagram.warmUp _ s := (Returned tt, s);
  Instagram.think s := (Returned tt, s);
  Instagram.pause s := (Returned tt, s);
  Instagram.elementExists sel s :=
    (Returned (match sel with
               | Instagram.UnlikeButton => ses_liked s
               | Instagram.LikeButton => negb (ses_liked s)
               end), s);
  Instagram.clickHuman sel s :=
    (Returned tt,
     match sel with
     | Instagram.LikeButton =>
         {| ses_now := ses_now s; ses_store := ses_store s; ses_liked := true;
            ses_visited := ses_visited s |}
     | Instagram.UnlikeButton => s
     end);
  Instagram.randomBelow _ s := (0, s);
  Instagram.log_info _ s := s;
  Instagram.log_error _ s := s;
  Instagram.clock := ses_now
|}.

Definition sessionInvoke (c : HandlerCall) (s : Session) : Outcome ActionResult * Session :=
  match c with
  | InstagramLike url => Instagram.like url s
  | _ => (Threw (ThrownOther "not scripted"), s)
  end.

#[export] Instance sessionClaw : Collaborators Session := {|
  construct _ s := (Returned tt, s);
  initialize s := (Returned tt, s);
  shutdown s := (Returned tt, s);
  invoke := sessionInvoke;
  isEnabled _ := true;
  notify _ s := (Returned tt, s);
  dateNow := ses_now;
  elapse ms s :=
    {| ses_now := ses_now s + ms; ses_store := ses_store s; ses_liked := ses_liked s;
       ses_visited := ses_visited s |};
  JSON_parse := sampleParse
|}.

(** Two likes were recorded at midnight of the current day: the cap of 2
    is reached, and the gap of five minutes has long passed at 01:00. *)
Definition cappedStore : Limiter.Store :=
  {[ ("instagram", "like") :=
       {| Limiter.count := 2; Limiter.windowStart := 0;
          Limiter.lastActionAt := Some 0; Limiter.dailyLimit := 2 |} ]}.

Definition cappedSession : Session :=
  {| ses_now := 3600000; ses_store := cappedStore; ses_liked := false;
     ses_visited := [] |}.

(** One like was recorded 297 seconds ago: the gap of five minutes is not
    met yet, and will be five seconds later. *)
Definition gappedStore : Limiter.Store :=
  {[ ("instagram", "like") :=
       {| Limiter.count := 1; Limiter.windowStart := 0;
          Limiter.lastActionAt := Some 3303000; Limiter.dailyLimit := 2 |} ]}.

Definition gappedSession : Session :=
  {| ses_now := 3600000; ses_store := gappedStore; ses_liked := false;
     ses_visited := [] |}.

(** The inputs of the examples. *)
Definition sampleUrl : string := "https://www.instagram.com/p/abc/".

Definition retry3 : RetryOptions :=
  {| retries := 3; actionName := "IG like"; target_ := sampleUrl |}.

Definition twoFailures : Sim := {| sim_now := 0; sim_failures := 2 |}.
Definition noFailures : Sim := {| sim_now := 0; sim_failures := 0 |}.
Definition oneFailure : Sim := {| sim_now := 0; sim_failures := 1 |}.
Definition threeFailures : Sim := {| sim_now := 0; sim_failures := 3 |}.

Definition threeRetries (context : option string) : ActionOptions :=
  {| opt_context := context; opt_retries := Some "3" |}.

(** Two ways to write the [recordAction] of the handlers: one notes the
    time of the action and leaves the count alone, the other counts the
    action a second time. *)
Definition touchingRecord (platform actionType : string) (now : Z) (store : Limiter.Store)
  : Limiter.Store :=
  alter (fun q => {| Limiter.count := Limiter.count q;
                     Limiter.windowStart := Limiter.windowStart q;
                     Limiter.lastActionAt := Some now;
                     Limiter.dailyLimit := Limiter.dailyLimit q |})
    (platform, actionType) store.

Definition countingRecord (platform actionType : string) (now : Z) (store : Limiter.Store)
  : Limiter.Store :=
  alter (fun q => {| Limiter.count := Limiter.count q + 1;
                     Limiter.windowStart := Limiter.windowStart q;
                     Limiter.lastActionAt := Some now;
                     Limiter.dailyLimit := Limiter.dailyLimit q |})
    (platform, actionType) store.

(** A like, its record, a second like and its record. *)
Definition twoLikes : list Limiter.Operation :=
  [ Limiter.CheckAndRecord "instagram" "like" 0;
    Limiter.RecordAction "instagram" "like" 20000;
    Limiter.CheckAndRecord "instagram" "like" 400000;
    Limiter.RecordAction "instagram" "like" 420000 ].

End Samples.

(* ===================================================================== *)
(** * utils/config.ts: the other settings                                 *)
(* ===================================================================== *)

Module Settings.
Import Js Config.

(** [String.prototype.toLowerCase] on ASCII letters. *)
Definition lower (c : ascii) : ascii :=
  if ((65 <=? code c) && (code c <=? 90))%N then ascii_of_N (code c + 32) else c.

Fixpoint toLowerCase (s : string) : string :=
  match s with
  | EmptyString => EmptyString
  | String c rest => String (lower c) (toLowerCase rest)
  end.

(** [getEnvBoolean(key, defaultValue)]. *)
Definition getEnvBoolean (env : Env) (key : string) (defaultValue : bool) : bool :=
  match toLowerCase <$> env !! key with
  | None => defaultValue
  | Some value => String.eqb value "true" || String.eqb value "1"
  end.

(** [getEnvString(key, defaultValue)]: [process.env[key] || defaultValue]. *)
Definition getEnvString (env : Env) (key : string) (defaultValue : string) : string :=
  orElse (env !! key) defaultValue.

(** The variable a daily cap is read from, if any. *)
Definition rateLimitKey (p : Platform) (a : ActionType) : option string :=
  match p, a with
  | Instagram, Like => Some "RATE_LIMIT_INSTAGRAM_LIKE"
  | Instagram, Comment => Some "RATE_LIMIT_INSTAGRAM_COMMENT"
  | Instagram, Follow => Some "RATE_LIMIT_INSTAGRAM_FOLLOW"
  | Instagram, Dm => Some "RATE_LIMIT_INSTAGRAM_DM"
  | Instagram, Post => Some "RATE_LIMIT_INSTAGRAM_POST"
  | Instagram, Connect => None
  | Twitter, Like => Some "RATE_LIMIT_TWITTER_LIKE"
  | Twitter, Comment => Some "RATE_LIMIT_TWITTER_COMMENT"
  | Twitter, Follow => Some "RATE_LIMIT_TWITTER_FOLLOW"
  | Twitter, Dm => Some "RATE_LIMIT_TWITTER_DM"
  | Twitter, Post => Some "RATE_LIMIT_TWITTER_POST"
  | Twitter, Connect => None
  | Linkedin, Like => Some "RATE_LIMIT_LINKEDIN_LIKE"
  | Linkedin, Comment => Some "RATE_LIMIT_LINKEDIN_COMMENT"
  | Linkedin, Follow => Some "RATE_LIMIT_LINKEDIN_CONNECT"
  | Linkedin, Dm => Some "RATE_LIMIT_LINKEDIN_MESSAGE"
  | Linkedin, Post => Some "RATE_LIMIT_LINKEDIN_POST"
  | Linkedin, Connect => Some "RATE_LIMIT_LINKEDIN_CONNECT"
  end.

(** [Number.isSafeInteger(n)]: an integer a double holds exactly. *)
Definition isSafeInteger (n : Z) : bool := (Z.abs n <=? 9007199254740991)%Z.

(** ** The [notifications] member of [loadConfig()] *)

Record TelegramChannel : Type := {
  botToken : string;
  chatId : string
}.

Record WebhookChannel : Type := {
  url : string;
  method : string;
  headers : option JsValue
}.

Record Channels : Type := {
  telegram : option TelegramChannel;
  discord : option string;
  webhook : option WebhookChannel
}.

Record Events : Type := {
  action_complete : bool;
  action_error : bool;
  session_login : bool;
  ratelimit_exceeded : bool
}.

Record NotificationConfig : Type := {
  enabled : bool;
  channels : Channels;
  events : Events;
  brandFooter : string
}.

(** A variable read in a condition: unset and empty are both falsy. *)
Definition truthyVar (env : Env) (key : string) : option string :=
  match env !! key with
  | Some v => if String.eqb v "" then None else Some v
  | None => None
  end.

Section Notifications.
(** [JSON.parse]; [None] when it throws a [SyntaxError]. *)
Variable JSON_parse : string -> option JsValue.

(** The [webhook] channel; [None] when [JSON.parse] throws. *)
Definition webhookChannel (env : Env) : option (option WebhookChannel) :=
  match truthyVar env "NOTIFY_WEBHOOK_URL" with
  | None => Some None
  | Some u =>
      let method := orElse (env !! "NOTIFY_WEBHOOK_METHOD") "POST" in
      match truthyVar env "NOTIFY_WEBHOOK_HEADERS" with
      | None => Some (Some {| url := u; method := method; headers := None |})
      | Some h =>
          match JSON_parse h with
          | Some v => Some (Some {| url := u; method := method; headers := Some v |})
          | None => None
          end
      end
  end.

(** The [notifications] member; [None] when building it throws. *)
Definition notifications (env : Env) : option NotificationConfig :=
  let enabled := getEnvBoolean env "NOTIFY_ENABLED" false in
  let telegram :=
    match truthyVar env "NOTIFY_TELEGRAM_BOT_TOKEN", truthyVar env "NOTIFY_TELEGRAM_CHAT_ID" with
    | Some token, Some chat => Some {| botToken := token; chatId := chat |}
    | _, _ => None
    end in
  let discord := truthyVar env "NOTIFY_DISCORD_WEBHOOK" in
  match webhookChannel env with
  | None => None
  | Some webhook =>
      Some {| enabled := enabled;
              channels := {| telegram := telegram; discord := discord; webhook := webhook |};
              events :=
                {| action_complete := getEnvBoolean env "NOTIFY_ON_COMPLETE" true;
                   action_error := getEnvBoolean env "NOTIFY_ON_ERROR" true;
                   session_login := getEnvBoolean env "NOTIFY_ON_LOGIN" false;
                   ratelimit_exceeded := getEnvBoolean env "NOTIFY_ON_RATELIMIT" true |};
              brandFooter := getEnvString env "NOTIFY_BRAND_FOOTER" "*SocialCrabs Automation*" |}
  end.

End Notifications.

(** The blanks of ASCII that [parseInt] skips: TAB, LF, VT, FF, CR, SP. *)
Definition isBlank (c : ascii) : bool :=
  ((9 <=? code c) && (code c <=? 13) || (code c =? 32))%N.

Fixpoint allBlank (s : string) : bool :=
  match s with
  | EmptyString => true
  | String c rest => isBlank c && allBlank rest
  end.

(** Whether a text opens with a decimal digit. *)
Definition startsWithDigit (s : string) : bool :=
  match s with
  | String c _ => isDigit c
  | EmptyString => false
  end.

End Settings.

(* ===================================================================== *)
(** * cli.ts: the commands without a retry wrapper                        *)
(* ===================================================================== *)

Module Plain.
Import Js Cli.

(** The events of a trace that touch the browser session. *)
Definition shutdowns (tr : list Event) : list Event :=
  List.filter (fun e => match e with Shutdown => true | _ => false end) tr.

Definition initializations (tr : list Event) : list Event :=
  List.filter (fun e => match e with Initialize => true | _ => false end) tr.

(** A handle: one or more of [\w]. *)
Definition isHandle (h : string) : bool :=
  negb (String.eqb h "") && String.eqb (takeWord h) h.

(** Whether a text opens with one of [\w]. *)
Definition startsWithWord (s : string) : bool :=
  match s with
  | String c _ => isWord c
  | EmptyString => false
  end.

Section PlainCommands.
Context {S : Type} `{Collaborators S}.

(** A handler method called directly: the call leaves nothing in the
    trace. *)
Definition perform {A} (f : S -> Outcome A * S) : M S A :=
  fun w =>
    let (r, s1) := f (claw w) in
    (r, {| claw := s1; env := env w; trace := trace w |}).

(** [`${result.error}`]. *)
Definition shown (e : option string) : string :=
  match e with
  | Some s => s
  | None => "undefined"
  end.

Record PlainCommand : Type := {
  plain_done : string;      (* the line printed when result.success *)
  plain_failed : string     (* the line printed otherwise, before result.error *)
}.

(** [ig dm], [x tweet], [linkedin message], [linkedin like] and
    [linkedin comment] are one text with different lines; [handler] is the
    method of the platform handler the command calls. *)
Definition runPlain (handler : S -> Outcome ActionResult * S) (c : PlainCommand)
  : M S unit :=
  tryCatch
    (constructClaw ;;
     call Initialize initialize ;;
     result <- perform handler ;;
     (if res_success result
      then console_log (plain_done c)
      else console_log (plain_failed c +:+ shown (res_error result))) ;;
     call Shutdown shutdown)
    (fun error => emit (StderrThrown "Error:" error) ;; exit 1).

Definition ig_dm (username : string) : PlainCommand :=
  {| plain_done := "✅ Sent DM to: @" +:+ username;
     plain_failed := "❌ Failed to send DM: " |}.

Definition x_tweet : PlainCommand :=
  {| plain_done := "✅ Posted tweet"; plain_failed := "❌ Failed to post: " |}.

Definition linkedin_message : PlainCommand :=
  {| plain_done := "✅ Sent message"; plain_failed := "❌ Failed to send message: " |}.

Definition linkedin_like (url : string) : PlainCommand :=
  {| plain_done := "✅ Liked post: " +:+ url; plain_failed := "❌ Failed to like: " |}.

Definition linkedin_comment (url : string) : PlainCommand :=
  {| plain_done := "✅ Commented on post: " +:+ url;
     plain_failed := "❌ Failed to comment: " |}.

(** [x reply <url> <text>]; [handler] is [claw.twitter.comment({ url, text })]. *)
Definition x_reply (handler : S -> Outcome ActionResult * S) (url text : string)
    (contextStr : option string) : M S unit :=
  tryCatch
    (context <- parseContext contextStr ;;
     when (truthy context) (setEnv "CLAWSOCIAL_SILENT" "1") ;;
     constructClaw ;;
     call Initialize initialize ;;
     result <- perform handler ;;
     (if res_success result
      then console_log "✅ Replied to tweet"
      else console_log ("❌ Failed to reply: " +:+ shown (res_error result))) ;;
     when (truthy context)
       (sendNotificationWithContext "twitter" "comment" (res_success result) url
          (JObject (spread [("postUrl", JString url); ("commentText", JString text);
                            ("actions", JArray [JString "💬 Replied"])] context))
          (res_error result)) ;;
     call Shutdown shutdown)
    (fun error => emit (StderrThrown "Error:" error) ;; exit 1).

End PlainCommands.

End Plain.

(* ===================================================================== *)
(** * platforms/instagram.ts: the other actions and the scrapers          *)
(* ===================================================================== *)

Module Actions.
Import Js Cli Instagram.

(** The entries of [SELECTORS] that [comment], [follow], [unfollow] and
    [dm] use. *)
Inductive Element : Type :=
| CommentInput | PostButton
| FollowButton | UnfollowButton | UnfollowConfirm
| MessageButton | DmInput.

(** What these actions use of the page beside the operations of
    [Handler]. *)
Class Page (S : Type) : Type := {
  (** [this.elementExists(selector)] and
      [this.waitForElement(selector, timeout)]. *)
  present : Element -> S -> Outcome bool * S;
  waitForElement : Element -> Z -> S -> Outcome bool * S;
  (** [this.clickHuman(selector)] and [this.typeHuman(selector, text)]. *)
  click : Element -> S -> Outcome unit * S;
  typeHuman : Element -> string -> S -> Outcome unit * S;
  (** [this.delay()] and [this.getPage()]. *)
  delay : S -> Outcome unit * S;
  getPage : S -> Outcome unit * S;
  (** [page.locator(selector).first()]: [isVisible()] and [click()]. *)
  isVisible : Element -> S -> Outcome bool * S;
  clickFirst : Element -> S -> Outcome unit * S;
  (** [page.keyboard.press(key)]. *)
  pressKey : string -> S -> Outcome unit * S
}.

Section MoreHandlers.
Context {S : Type} `{Handler S} `{Page S}.

(** [2 + Math.floor(Math.random() * 2)] and the like. *)
Definition scrollCount (base : Z) : Prog S Z :=
  fun s => let (n, s1) := randomBelow 2 s in (Returned (base + n), s1).

(** What [comment] does once the limiter has allowed it. *)
Definition commentAllowed (url text : string) (startTime : Z) (status : RateLimitStatus)
  : Prog S ActionResult :=
  tryCatch
    (modify (log_info "Commenting on Instagram post") ;;
     navigate (baseUrl +:+ "/") ;;
     n <- scrollCount 2 ;;
     warmUp n ;;
     navigate url ;;
     think ;;
     found <- waitForElement CommentInput 10000 ;;
     if negb found then
       ret (createErrorResult "comment" url "Comment input not found" startTime status)
     else
       click CommentInput ;;
       pause ;;
       typeHuman CommentInput text ;;
       pause ;;
       getPage ;;
       visible <- isVisible PostButton ;;
       (if visible : bool then clickFirst PostButton else pressKey "Enter") ;;
       delay ;;
       recordAction Config.Comment ;;
       modify (log_info "Successfully commented on Instagram post") ;;
       ret (createResult "comment" url startTime status
              [("postUrl", JString url);
               ("commentText", JString text);
               ("actions", JArray [JString "üí¨ Commented"])]))
    (fun error =>
       modify (log_error "Error commenting on Instagram post") ;;
       ret (createErrorResult "comment" url (stringOf error) startTime status)).

(** [InstagramHandler.comment(payload)]. *)
Definition comment (url text : string) : Prog S ActionResult :=
  startTime <- gets clock ;;
  gate <- checkAndRecordAction Config.Comment ;;
  let '(allowed, status) := gate in
  if negb allowed then
    ret (createErrorResult "comment" url "Rate limit exceeded" startTime status)
  else
    commentAllowed url text startTime status.

Definition followAllowed (username : string) (startTime : Z) (status : RateLimitStatus)
  : Prog S ActionResult :=
  tryCatch
    (modify (log_info "Following Instagram user") ;;
     navigate (baseUrl +:+ "/" +:+ username +:+ "/") ;;
     think ;;
     already <- present UnfollowButton ;;
     if already : bool then
       modify (log_info "Already following user") ;;
       ret (createResult "follow" username startTime status
              [("profileUrl", JString ("https://instagram.com/" +:+ username));
               ("actions", JArray [JString "üë• Already Following"])])
     else
       found <- present FollowButton ;;
       if negb found then
         ret (createErrorResult "follow" username "Follow button not found" startTime status)
       else
         click FollowButton ;;
         delay ;;
         following <- present UnfollowButton ;;
         if following : bool then
           recordAction Config.Follow ;;
           modify (log_info "Successfully followed Instagram user") ;;
           ret (createResult "follow" username startTime status
                  [("profileUrl", JString ("https://instagram.com/" +:+ username));
                   ("actions", JArray [JString "üë• Followed"])])
         else
           ret (createErrorResult "follow" username "Follow action failed" startTime status))
    (fun error =>
       modify (log_error "Error following Instagram user") ;;
       ret (createErrorResult "follow" username (stringOf error) startTime status)).

(** [InstagramHandler.follow(payload)]. *)
Definition follow (username : string) : Prog S ActionResult :=
  startTime <- gets clock ;;
  gate <- checkAndRecordAction Config.Follow ;;
  let '(allowed, status) := gate in
  if negb allowed then
    ret (createErrorResult "follow" username "Rate limit exceeded" startTime status)
  else
    followAllowed username startTime status.

Definition unfollowAllowed (username : string) (startTime : Z) (status : RateLimitStatus)
  : Prog S ActionResult :=
  tryCatch
    (modify (log_info "Unfollowing Instagram user") ;;
     navigate (baseUrl +:+ "/" +:+ username +:+ "/") ;;
     think ;;
     following <- present UnfollowButton ;;
     if negb following then
       modify (log_info "Not following user") ;;
       ret (createResult "unfollow" username startTime status
              [("profileUrl", JString ("https://instagram.com/" +:+ username));
               ("actions", JArray [JString "üëã Not Following"])])
     else
       click UnfollowButton ;;
       pause ;;
       confirm <- waitForElement UnfollowConfirm 5000 ;;
       (if confirm : bool then click UnfollowConfirm ;; delay else ret tt) ;;
       unfollowed <- present FollowButton ;;
       if unfollowed : bool then
         recordAction Config.Follow ;;
         modify (log_info "Successfully unfollowed Instagram user") ;;
         ret (createResult "unfollow" username startTime status
                [("profileUrl", JString ("https://instagram.com/" +:+ username));
                 ("actions", JArray [JString "üëã Unfollowed"])])
       else
         ret (createErrorResult "unfollow" username "Unfollow action failed"
                startTime status))
    (fun error =>
       modify (log_error "Error unfollowing Instagram user") ;;
       ret (createErrorResult "unfollow" username (stringOf error) startTime status)).

(** [InstagramHandler.unfollow(payload)]: checked against, and recorded
    under, the [follow] quota. *)
Definition unfollow (username : string) : Prog S ActionResult :=
  startTime <- gets clock ;;
  gate <- checkAndRecordAction Config.Follow ;;
  let '(allowed, status) := gate in
  if negb allowed then
    ret (createErrorResult "unfollow" username "Rate limit exceeded" startTime status)
  else
    unfollowAllowed username startTime status.

Definition dmAllowed (username message : string) (startTime : Z) (status : RateLimitStatus)
  : Prog S ActionResult :=
  tryCatch
    (modify (log_info "Sending Instagram DM") ;;
     navigate (baseUrl +:+ "/") ;;
     n <- scrollCount 3 ;;
     warmUp n ;;
     navigate (baseUrl +:+ "/" +:+ username +:+ "/") ;;
     think ;;
     button <- waitForElement MessageButton 10000 ;;
     if negb button then
       ret (createErrorResult "dm" username "Message button not found" startTime status)
     else
       click MessageButton ;;
       delay ;;
       input <- waitForElement DmInput 10000 ;;
       if negb input then
         ret (createErrorResult "dm" username "DM input not found" startTime status)
       else
         click DmInput ;;
         typeHuman DmInput message ;;
         pause ;;
         getPage ;;
         pressKey "Enter" ;;
         delay ;;
         recordAction Config.Dm ;;
         modify (log_info "Successfully sent Instagram DM") ;;
         ret (createResult "dm" username startTime status
                [("profileUrl", JString ("https://instagram.com/" +:+ username));
                 ("messagePreview", JString message);
                 ("actions", JArray [JString "‚úâÔ∏è DM Sent"])]))
    (fun error =>
       modify (log_error "Error sending Instagram DM") ;;
       ret (createErrorResult "dm" username (stringOf error) startTime status)).

(** [InstagramHandler.dm(payload)]. *)
Definition dm (username message : string) : Prog S ActionResult :=
  startTime <- gets clock ;;
  gate <- checkAndRecordAction Config.Dm ;;
  let '(allowed, status) := gate in
  if negb allowed then
    ret (createErrorResult "dm" username "Rate limit exceeded" startTime status)
  else
    dmAllowed username message startTime status.

(** The five gated actions of the handler, as one call. *)
Inductive Request : Type :=
| DoLike (url : string)
| DoComment (url text : string)
| DoFollow (username : string)
| DoUnfollow (username : string)
| DoDm (username message : string).

Definition handle (q : Request) : Prog S ActionResult :=
  match q with
  | DoLike url => like url
  | DoComment url text => comment url text
  | DoFollow username => follow username
  | DoUnfollow username => unfollow username
  | DoDm username message => dm username message
  end.

(** The first argument of [createResult] and [createErrorResult], the
    second, and the argument of [checkAndRecordAction]. *)
Definition requestName (q : Request) : string :=
  match q with
  | DoLike _ => "like"
  | DoComment _ _ => "comment"
  | DoFollow _ => "follow"
  | DoUnfollow _ => "unfollow"
  | DoDm _ _ => "dm"
  end.

Definition requestTarget (q : Request) : string :=
  match q with
  | DoLike url | DoComment url _ => url
  | DoFollow username | DoUnfollow username | DoDm username _ => username
  end.

Definition requestQuota (q : Request) : Config.ActionType :=
  match q with
  | DoLike _ => Config.Like
  | DoComment _ _ => Config.Comment
  | DoFollow _ | DoUnfollow _ => Config.Follow
  | DoDm _ _ => Config.Dm
  end.

(** No operation of the page ends the process. *)
Definition pageNeverExits : Prop :=
  (forall a s c s', recordAction a s <> (Exited c, s'))
  /\ (forall u s c s', navigate u s <> (Exited c, s'))
  /\ (forall n s c s', warmUp n s <> (Exited c, s'))
  /\ (forall s c s', think s <> (Exited c, s'))
  /\ (forall s c s', pause s <> (Exited c, s'))
  /\ (forall e s c s', elementExists e s <> (Exited c, s'))
  /\ (forall e s c s', clickHuman e s <> (Exited c, s'))
  /\ (forall e s c s', present e s <> (Exited c, s'))
  /\ (forall e t s c s', waitForElement e t s <> (Exited c, s'))
  /\ (forall e s c s', click e s <> (Exited c, s'))
  /\ (forall e t s c s', typeHuman e t s <> (Exited c, s'))
  /\ (forall s c s', delay s <> (Exited c, s'))
  /\ (forall s c s', getPage s <> (Exited c, s'))
  /\ (forall e s c s', isVisible e s <> (Exited c, s'))
  /\ (forall e s c s', clickFirst e s <> (Exited c, s'))
  /\ (forall k s c s', pressKey k s <> (Exited c, s')).

End MoreHandlers.

End Actions.

Module Scrapers.
Import Js Cli.

(** What [link.getAttribute('href')] gives for one element: a text,
    [null], or an exception. *)
Inductive Attribute : Type :=
| Href (href : string)
| NoHref
| Throws.

(** [href.replace(/\//g, '')]. *)
Fixpoint removeSlashes (s : string) : string :=
  match s with
  | EmptyString => EmptyString
  | String c rest =>
      if Ascii.eqb c "/" then removeSlashes rest else String c (removeSlashes rest)
  end.

(** [s.split('?')[0]]. *)
Fixpoint beforeQuestion (s : string) : string :=
  match s with
  | EmptyString => EmptyString
  | String c rest => if Ascii.eqb c "?" then EmptyString else String c (beforeQuestion rest)
  end.

(** [s.startsWith(p)]. *)
Definition hasPrefix (p s : string) : bool :=
  match startsWith p s with
  | Some _ => true
  | None => false
  end.

(** [list.includes(x)]. *)
Definition member (x : string) (l : list string) : bool := existsb (String.eqb x) l.

(** A limit is the number [parseInt] gives: an integer, or NaN ([None]),
    with which every comparison is false. *)
Definition below (n : nat) (limit : option Z) : bool :=
  match limit with
  | Some l => (Z.of_nat n <? l)%Z
  | None => false
  end.

Definition reached (n : nat) (limit : option Z) : bool :=
  match limit with
  | Some l => (l <=? Z.of_nat n)%Z
  | None => false
  end.

(** What the two collecting loops keep true of the list they build: no
    repetition, none of the names to avoid, at most [limit] entries, and
    [P] of every entry. *)
Definition kept (avoid : list string) (limit : option Z) (P : string -> Prop)
    (l : list string) : Prop :=
  List.NoDup l
  /\ (forall x, In x avoid -> ~ In x l)
  /\ (forall n, limit = Some n -> (Z.of_nat (length l) <= Z.max 0 n)%Z)
  /\ (forall x, In x l -> P x).

(** ** [scrapeFollowers] *)

(** The user name one link of the dialog adds to [followers], if any. *)
Definition followerOf (username : string) (followers : list string) (link : Attribute)
  : option string :=
  match link with
  | Href href =>
      if negb (String.eqb href "") && hasPrefix "/" href
         && negb (includes href "/p/") && negb (includes href "/explore/")
      then
        let extractedUsername := beforeQuestion (removeSlashes href) in
        if negb (String.eqb extractedUsername "")
           && negb (String.eqb extractedUsername username)
           && negb (member extractedUsername followers)
        then Some extractedUsername
        else None
      else None
  | NoHref | Throws => None
  end.

(** The [for] loop over the links of one view of the dialog. *)
Fixpoint collectFollowers (username : string) (limit : option Z) (links : list Attribute)
    (followers : list string) : list string :=
  match links with
  | [] => followers
  | link :: rest =>
      if reached (length followers) limit then followers
      else
        match followerOf username followers link with
        | Some u => collectFollowers username limit rest (followers ++ [u])
        | None => collectFollowers username limit rest followers
        end
  end.

(** One turn of the [while] loop, as the page answers it: the links
    [page.$$] finds ([None] when it throws), and whether the scroll and
    the waits that follow go through. *)
Record View : Type := {
  links : option (list Attribute);
  scrolled : bool
}.

(** [Math.ceil(limit / 5) + 3]. *)
Definition maxScrolls (limit : option Z) : option Z :=
  (fun l => - ((- l) / 5) + 3) <$> limit.

(** The [while] loop from its [scrollAttempts]-th turn on; an exception
    ends it with what has been collected, which is what the [catch]
    returns. *)
Fixpoint scrollLoop (username : string) (limit : option Z) (views : nat -> View)
    (fuel : nat) (scrollAttempts : nat) (followers : list string) : list string :=
  match fuel with
  | O => followers
  | Datatypes.S k =>
      if below (length followers) limit && below scrollAttempts (maxScrolls limit)
      then
        match links (views scrollAttempts) with
        | None => followers
        | Some ls =>
            let followers1 := collectFollowers username limit ls followers in
            if scrolled (views scrollAttempts)
            then scrollLoop username limit views k (Datatypes.S scrollAttempts) followers1
            else followers1
        end
      else followers
  end.

(** [scrapeFollowers(username, limit)]; [opened] tells whether the
    followers dialog was opened (the profile loaded, the link and the
    dialog were found, nothing threw). *)
Definition scrapeFollowers (username : string) (limit : option Z) (opened : bool)
    (views : nat -> View) : list string :=
  if opened
  then scrollLoop username limit views (Z.to_nat (default 0 (maxScrolls limit))) 0 []
  else [].

(** ** [getRecentPosts] *)

Definition looksLikePost (href : string) : bool :=
  negb (String.eqb href "") && (includes href "/p/" || includes href "/reel/").

(** The address one link adds to [posts], if any. *)
Definition postOf (posts : list string) (link : Attribute) : option string :=
  match link with
  | Href href =>
      if looksLikePost href then
        let fullUrl :=
          if hasPrefix "http" href then href else Instagram.baseUrl +:+ href in
        if negb (member fullUrl posts) then Some fullUrl else None
      else None
  | NoHref | Throws => None
  end.

(** The [for] loop over [postLinks]. *)
Fixpoint collectPosts (limit : option Z) (postLinks : list Attribute) (posts : list string)
  : list string :=
  match postLinks with
  | [] => posts
  | link :: rest =>
      if reached (length posts) limit then posts
      else
        match postOf posts link with
        | Some p => collectPosts limit rest (posts ++ [p])
        | None => collectPosts limit rest posts
        end
  end.

(** The third strategy: the links of the page that look like posts;
    [None] when reading an attribute throws. *)
Fixpoint filterPostLinks (allLinks : list Attribute) : option (list Attribute) :=
  match allLinks with
  | [] => Some []
  | Throws :: _ => None
  | link :: rest =>
      match filterPostLinks rest with
      | None => None
      | Some kept =>
          match link with
          | Href href => if looksLikePost href then Some (link :: kept) else Some kept
          | _ => Some kept
          end
      end
  end.

(** [getRecentPosts(username, limit)]; [loaded] tells whether the profile
    loaded, and the three lists are the answers of the page to the three
    queries for links. *)
Definition getRecentPosts (limit : option Z) (loaded : bool)
    (byHref inArticles allLinks : list Attribute) : list string :=
  if negb loaded then []
  else
    let chosen :=
      match byHref with
      | _ :: _ => Some byHref
      | [] =>
          match inArticles with
          | _ :: _ => Some inArticles
          | [] => filterPostLinks allLinks
          end
      end in
    match chosen with
    | Some postLinks => collectPosts limit postLinks []
    | None => []
    end.

End Scrapers.

Module PageSamples.
Import Js Cli.

(** A page on which nothing is found and nothing throws, over the sample
    session of the like handler. *)
#[export] Instance blankPage : Actions.Page Samples.Session := {|
  Actions.present _ s := (Returned false, s);
  Actions.waitForElement _ _ s := (Returned false, s);
  Actions.click _ s := (Returned tt, s);
  Actions.typeHuman _ _ s := (Returned tt, s);
  Actions.delay s := (Returned tt, s);
  Actions.getPage s := (Returned tt, s);
  Actions.isVisible _ s := (Returned false, s);
  Actions.clickFirst _ s := (Returned tt, s);
  Actions.pressKey _ s := (Returned tt, s)
|}.

(** A dialog that shows the same four links at every turn. *)
Definition sampleView : Scrapers.View :=
  {| Scrapers.links :=
       Some [Scrapers.Href "/alice/"; Scrapers.Href "/p/C1/"; Scrapers.NoHref;
             Scrapers.Href "/bob/?hl=en"; Scrapers.Href "/alice/"];
     Scrapers.scrolled := true |}.

End PageSamples.

(* ===================================================================== *)
(** * graphql/client.ts: the GraphQL client of X                          *)
(* ===================================================================== *)

Module Graphql.
Import Js Cli.

(** ** The client and its construction *)

Record XClientOptions : Type := {
  opt_authToken : option string;
  opt_ct0 : option string;
  opt_cookieHeader : option string;
  opt_userAgent : option string;
  opt_timeoutMs : option Z;
  opt_quoteDepth : option Z
}.

(** The fields of the client the constructor derives from its options
    (the random [clientUuid] is left out). *)
Record XGraphQLClient : Type := {
  authToken : string;
  ct0 : string;
  cookieHeader : string;
  userAgent : string;
  timeoutMs : option Z;
  quoteDepth : Z
}.

Definition defaultUserAgent : string :=
  "Mozilla/5.0 (Macintosh; Intel Mac OS X 10_15_7) AppleWebKit/537.36 (KHTML, like Gecko) Chrome/131.0.0.0 Safari/537.36".

(** [!s] for an optional text. *)
Definition missing (s : option string) : bool := String.eqb (orElse s "") "".

(** [new XGraphQLClient(options)]; [inl] is the error thrown. *)
Definition newClient (options : XClientOptions) : JsError + XGraphQLClient :=
  if missing (opt_authToken options) || missing (opt_ct0 options)
  then inl (newError "Both authToken and ct0 cookies are required")
  else
    let authToken := orElse (opt_authToken options) "" in
    let ct0 := orElse (opt_ct0 options) "" in
    inr {| authToken := authToken;
           ct0 := ct0;
           cookieHeader :=
             orElse (opt_cookieHeader options)
               ("auth_token=" +:+ authToken +:+ "; ct0=" +:+ ct0);
           userAgent := orElse (opt_userAgent options) defaultUserAgent;
           timeoutMs := opt_timeoutMs options;
           quoteDepth := default 1 (opt_quoteDepth options) |}.

(** [createClientFromEnv()]. *)
Definition createClientFromEnv (env : Config.Env) : JsError + XGraphQLClient :=
  let authToken := orElse (env !! "AUTH_TOKEN") (orElse (env !! "SOCIALCRABS_AUTH_TOKEN") "") in
  let ct0 := orElse (env !! "CT0") (orElse (env !! "SOCIALCRABS_CT0") "") in
  if String.eqb authToken "" || String.eqb ct0 ""
  then inl (newError "AUTH_TOKEN and CT0 environment variables are required. Set them in .env or pass --auth-token and --ct0.")
  else newClient {| opt_authToken := Some authToken; opt_ct0 := Some ct0;
                    opt_cookieHeader := None; opt_userAgent := None;
                    opt_timeoutMs := Some 30000; opt_quoteDepth := None |}.

(** Whether [fetchWithTimeout] arms a timer: not when
    [!this.timeoutMs || this.timeoutMs <= 0]. *)
Definition armsTimeout (c : XGraphQLClient) : bool :=
  match timeoutMs c with
  | Some ms => (0 <? ms)%Z
  | None => false
  end.

(** ** Query ids *)

(** [[...new Set(l)]]: the first occurrence of every element, in order. *)
Fixpoint setOf (seen : list string) (l : list string) : list string :=
  match l with
  | [] => []
  | x :: rest =>
      if existsb (String.eqb x) seen then setOf seen rest
      else x :: setOf (seen ++ [x]) rest
  end.

(** ** Requests and replies *)

Inductive Settled (A : Type) : Type :=
| Fulfilled (a : A)
| Failed (error : Thrown).

Arguments Fulfilled {A} a.
Arguments Failed {A} error.

(** One entry of [data.errors]: [e.message] and [e.extensions.code]. *)
Record GraphqlError : Type := {
  err_message : option string;
  err_code : option string
}.

Record Request : Type := {
  req_method : string;
  req_queryId : string;
  req_operation : string
}.

Section Client.
(** [QUERY_IDS] of constants.ts, and the tweets as the parser of utils.ts
    returns them. *)
Variable QUERY_IDS : string -> option string.
Variable Tweet : Type.

(** [this.getQueryId(operationName)]. *)
Definition getQueryId (operationName : string) : string :=
  orElse (QUERY_IDS operationName) "".

Definition getSearchQueryIds : list string :=
  setOf [] [getQueryId "SearchTimeline"; "M1jEez78PEfVfbQLvlWMvQ";
            "5h0kNbk3ii97rmfY6CdgAA"; "6AAys3t42mosm_yTI_QENg"].

Definition getHomeQueryIds : list string :=
  setOf [] [getQueryId "HomeTimeline"; "edseUwk9sP5Phz__9TIRnA"].

(** What [response.json()] gives: the entries of [data.errors] (objects;
    none when the member is absent) and what the parser makes of the
    instructions of the timeline, tweets and cursor, unless it throws. *)
Record Data : Type := {
  errors : list GraphqlError;
  timeline : Settled (list Tweet * option string)
}.

(** What one [fetchWithTimeout] leads to: a rejection (the network, or
    the timer), or a response with its status and what reading its body
    as text or as JSON settles to. *)
Inductive Reply : Type :=
| Rejected (error : Thrown)
| Responded (status : Z) (text : Settled string) (json : Settled Data).

(** [response.ok]. *)
Definition ok (status : Z) : bool := ((200 <=? status) && (status <=? 299))%Z.

Record SearchResult : Type := {
  sr_success : bool;
  sr_tweets : list Tweet;
  sr_nextCursor : option string;
  sr_error : option string
}.

Definition failure (error : string) : SearchResult :=
  {| sr_success := false; sr_tweets := []; sr_nextCursor := None; sr_error := Some error |}.

(** [errors.map(e => e.message).join(', ')]: an absent message joins as
    the empty text. *)
Fixpoint joinMessages (es : list GraphqlError) : string :=
  match es with
  | [] => ""
  | [e] => default "" (err_message e)
  | e :: rest => default "" (err_message e) +:+ ", " +:+ joinMessages rest
  end.

Definition validationFailed (es : list GraphqlError) : bool :=
  existsb (fun e => match err_code e with
                    | Some code => String.eqb code "GRAPHQL_VALIDATION_FAILED"
                    | None => false
                    end) es.

(** [text.slice(0, n)] (exact for ASCII text). *)
Fixpoint slice (n : nat) (text : string) : string :=
  match n, text with
  | Datatypes.S k, String c rest => String c (slice k rest)
  | _, _ => EmptyString
  end.

(** The network, and the exchanges made so far. *)
Record Net (S : Type) : Type := {
  server : S;
  exchanges : list (Request * Reply)
}.

Arguments server {S} n.
Arguments exchanges {S} n.

Context {S : Type}.
Variable fetch : Request -> S -> Reply * S.

(** [await this.fetchWithTimeout(url, init)], recorded. *)
Definition send (r : Request) (n : Net S) : Reply * Net S :=
  let (reply, s1) := fetch r (server n) in
  (reply, {| server := s1; exchanges := exchanges n ++ [(r, reply)] |}).

Definition searchRequest (queryId : string) : Request :=
  {| req_method := "POST"; req_queryId := queryId; req_operation := "SearchTimeline" |}.

Definition homeRequest (queryId : string) : Request :=
  {| req_method := "GET"; req_queryId := queryId; req_operation := "HomeTimeline" |}.

(** What one turn of the loop of [search] decides: to go on with the next
    query id under a new [lastSearchError], or to return. *)
Inductive Turn : Type :=
| Continue (lastError : string)
| Return (result : SearchResult).

Definition searchTurn (queryId : string) (reply : Reply) : Turn :=
  match reply with
  | Rejected error => Continue (messageOf error)
  | Responded status text json =>
      if (status =? 404)%Z then Continue ("404 for queryId " +:+ queryId)
      else if negb (ok status) then
        match text with
        | Failed error => Continue (messageOf error)
        | Fulfilled t =>
            let lastSearchError :=
              "HTTP " +:+ pretty status +:+ " (queryId " +:+ queryId +:+ "): "
              +:+ slice 300 t in
            if (status =? 400)%Z || (status =? 422)%Z then Continue lastSearchError
            else Return (failure lastSearchError)
        end
      else
        match json with
        | Failed error => Continue (messageOf error)
        | Fulfilled data =>
            match errors data with
            | _ :: _ =>
                let lastSearchError := joinMessages (errors data) in
                if validationFailed (errors data) then Continue lastSearchError
                else Return (failure lastSearchError)
            | [] =>
                match timeline data with
                | Failed error => Continue (messageOf error)
                | Fulfilled (tweets, nextCursor) =>
                    Return {| sr_success := true; sr_tweets := tweets;
                              sr_nextCursor := nextCursor; sr_error := None |}
                end
            end
        end
  end.

(** The [for] loop of [search] over the query ids that are left. *)
Fixpoint searchLoop (queryIds : list string) (lastSearchError : string) (n : Net S)
  : SearchResult * Net S :=
  match queryIds with
  | [] =>
      (failure (if String.eqb lastSearchError "" then "All query IDs failed"
                else lastSearchError), n)
  | queryId :: rest =>
      let (reply, n1) := send (searchRequest queryId) n in
      match searchTurn queryId reply with
      | Continue lastError => searchLoop rest lastError n1
      | Return result => (result, n1)
      end
  end.

(** Whether a turn goes on with the next query id, and the
    [lastSearchError] a run of turns leaves. *)
Definition goesOn (p : string * Reply) : Prop :=
  exists e, searchTurn (fst p) (snd p) = Continue e.

Definition lastErrorOf (lastSearchError : string) (turns : list (string * Reply)) : string :=
  fold_left (fun acc p => match searchTurn (fst p) (snd p) with
                          | Continue e => e
                          | Return _ => acc
                          end) turns lastSearchError.

Definition searchExchange (p : string * Reply) : Request * Reply :=
  (searchRequest (fst p), snd p).

Definition homeExchange (p : string * Reply) : Request * Reply :=
  (homeRequest (fst p), snd p).

(** [search(query, count)]. *)
Definition search (n : Net S) : SearchResult * Net S :=
  searchLoop getSearchQueryIds "" n.

(** One turn of the loop of [getHomeTimeline]: [None] goes on with the
    next query id. *)
Definition homeTurn (reply : Reply) : option SearchResult :=
  match reply with
  | Rejected _ => None
  | Responded status text json =>
      if (status =? 404)%Z then None
      else if negb (ok status) then
        match text with
        | Failed _ => None
        | Fulfilled t =>
            Some (failure ("HTTP " +:+ pretty status +:+ ": " +:+ slice 200 t))
        end
      else
        match json with
        | Failed _ => None
        | Fulfilled data =>
            match errors data with
            | _ :: _ => Some (failure (joinMessages (errors data)))
            | [] =>
                match timeline data with
                | Failed _ => None
                | Fulfilled (tweets, _) =>
                    Some {| sr_success := true; sr_tweets := tweets;
                            sr_nextCursor := None; sr_error := None |}
                end
            end
        end
  end.

Fixpoint homeLoop (queryIds : list string) (n : Net S) : SearchResult * Net S :=
  match queryIds with
  | [] => (failure "All query IDs failed", n)
  | queryId :: rest =>
      let (reply, n1) := send (homeRequest queryId) n in
      match homeTurn reply with
      | None => homeLoop rest n1
      | Some result => (result, n1)
      end
  end.

(** [getHomeTimeline(count)]. *)
Definition getHomeTimeline (n : Net S) : SearchResult * Net S :=
  homeLoop getHomeQueryIds n.

End Client.

Arguments Rejected {Tweet} error.
Arguments Responded {Tweet} status text json.
Arguments Continue {Tweet} lastError.
Arguments Return {Tweet} result.
Arguments errors {Tweet} d.
Arguments timeline {Tweet} d.
Arguments sr_success {Tweet} s.
Arguments sr_tweets {Tweet} s.
Arguments sr_nextCursor {Tweet} s.
Arguments sr_error {Tweet} s.
Arguments failure {Tweet} error.
Arguments server {Tweet S} n.
Arguments exchanges {Tweet S} n.
Arguments send {Tweet S} fetch r n.
Arguments searchTurn {Tweet} queryId reply.
Arguments homeTurn {Tweet} reply.
Arguments goesOn {Tweet} p.
Arguments lastErrorOf {Tweet} lastSearchError turns.
Arguments searchExchange {Tweet} p.
Arguments homeExchange {Tweet} p.
Arguments searchLoop {Tweet S} fetch queryIds lastSearchError n.
Arguments homeLoop {Tweet S} fetch queryIds n.
Arguments search QUERY_IDS {Tweet S} fetch n.
Arguments getHomeTimeline QUERY_IDS {Tweet S} fetch n.

End Graphql.

Module ClientSamples.
Import Js Cli Graphql.

(** A server that knows one query id, [current], and answers 404 to any
    other; it counts the requests it receives.  Tweets are their texts. *)
Definition sampleServer (r : Request) (count : nat) : Reply string * nat :=
  (if String.eqb (req_queryId r) "current"
   then Responded 200 (Fulfilled "")
          (Fulfilled {| errors := []; timeline := Fulfilled (["hello"], Some "cursor-1") |})
   else Responded 404 (Fulfilled "Not Found") (Failed (ThrownOther "no body")),
   Datatypes.S count).

(** [QUERY_IDS] with a stale id for [SearchTimeline], and with the id the
    server knows. *)
Definition staleIds (operationName : string) : option string :=
  if String.eqb operationName "SearchTimeline" then Some "stale" else None.

Definition currentIds (operationName : string) : option string :=
  if String.eqb operationName "SearchTimeline" then Some "current" else None.

Definition offline : Net string nat := {| server := 0%nat; exchanges := [] |}.

End ClientSamples.

(* ===================================================================== *)
(** * scripts/linkedin-scrape-search.ts: the scroll of the scraper        *)
(* ===================================================================== *)

Module Scroll.

(** The two random draws of one turn of the loop:
    [Math.floor(Math.random() * 200)] and
    [Math.floor(Math.random() * 1000)]. *)
Record Draw : Type := {
  amountDraw : Z;
  delayDraw : Z
}.

(** What one turn does: the position it scrolls to and the time it
    waits. *)
Record Step : Type := {
  position : Z;
  waited : Z
}.

(** The [while] loop of [humanScroll] from [currentPosition] on; [None]
    when [fuel] turns do not end it. *)
Fixpoint scrollFrom (scrollHeight : Z) (draws : nat -> Draw) (fuel turn : nat)
    (currentPosition : Z) : option (list Step) :=
  if (currentPosition <? scrollHeight)%Z then
    match fuel with
    | O => None
    | S k =>
        let scrollAmount := (amountDraw (draws turn) + 200)%Z in
        let currentPosition := (currentPosition + scrollAmount)%Z in
        match scrollFrom scrollHeight draws k (S turn) currentPosition with
        | Some rest =>
            Some ({| position := currentPosition;
                     waited := (delayDraw (draws turn) + 500)%Z |} :: rest)
        | None => None
        end
    end
  else Some [].

(** [humanScroll(page)] on a page of height [scrollHeight]: the turns of
    the loop, then the final pause. *)
Definition finalPause : Z := 2000.

Definition humanScroll (scrollHeight : Z) (draws : nat -> Draw) (fuel : nat)
  : option (list Step) :=
  scrollFrom scrollHeight draws fuel 0 0.

(** The time [humanScroll] spends waiting. *)
Definition totalWait (steps : list Step) : Z :=
  (fold_right Z.add 0 (map waited steps) + finalPause)%Z.

(** The position the page is left at. *)
Definition positionAfter (start : Z) (steps : list Step) : Z :=
  fold_left (fun _ s => position s) steps start.

(** The draws are what [Math.floor(Math.random() * n)] can give. *)
Definition inRange (draws : nat -> Draw) : Prop :=
  forall i, (0 <= amountDraw (draws i) < 200)%Z /\ (0 <= delayDraw (draws i) < 1000)%Z.

End Scroll.

Module FailureSamples.
Import Js Cli Samples.

(** The scripted session with a browser that does not start, a session
    whose handler always succeeds and whose notifier throws, and the
    scripted session with a browser that cannot be closed. *)
Definition noBrowser : Collaborators Sim := {|
  construct _ s := (Returned tt, s);
  initialize s := (Threw (ThrownError (newError "browser not installed")), s);
  shutdown s := (Returned tt, s);
  invoke := simInvoke;
  isEnabled _ := true;
  notify _ s := (Returned tt, s);
  dateNow := sim_now;
  elapse ms s := {| sim_now := sim_now s + ms; sim_failures := sim_failures s |};
  JSON_parse := sampleParse
|}.

Definition noNotifier : Collaborators Sim := {|
  construct _ s := (Returned tt, s);
  initialize s := (Returned tt, s);
  shutdown s := (Returned tt, s);
  invoke _ s := (Returned (Instagram.createResult "like" "" (sim_now s) simStatus []), s);
  isEnabled _ := true;
  notify _ s := (Threw (ThrownError (newError "webhook unreachable")), s);
  dateNow := sim_now;
  elapse ms s := {| sim_now := sim_now s + ms; sim_failures := sim_failures s |};
  JSON_parse := sampleParse
|}.

Definition noShutdown : Collaborators Sim := {|
  construct _ s := (Returned tt, s);
  initialize s := (Returned tt, s);
  shutdown s := (Threw (ThrownError (newError "browser already closed")), s);
  invoke := simInvoke;
  isEnabled _ := true;
  notify _ s := (Returned tt, s);
  dateNow := sim_now;
  elapse ms s := {| sim_now := sim_now s + ms; sim_failures := sim_failures s |};
  JSON_parse := sampleParse
|}.

End FailureSamples.

(* ===================================================================== *)
(** * Properties                                                          *)
(* ===================================================================== *)

Import Js Cli.

Section ConfigFacts.
Import Js Config.

Lemma getEnvNumber_unset (env : Env) (key : string) (d : Z) :
  env !! key = None -> getEnvNumber env key d = d.
Proof. intros E. unfold getEnvNumber. now rewrite E. Qed.

(** C7: whatever text is given to [--retries], the resolved attempt count
    lies between 1 and 10; it is the default 3 when the option is absent,
    empty or not a number ([parseInt] yields [NaN]), and the parsed number
    clamped to 1..10 otherwise. *)
Theorem parseRetries_clamped (retriesStr : option string) :
  1 <= Cli.parseRetries retriesStr <= 10
  /\ Cli.parseRetries None = 3
  /\ Cli.parseRetries (Some "") = 3
  /\ (forall str, parseInt str = None -> Cli.parseRetries (Some str) = 3)
  /\ (forall str n, str <> "" -> parseInt str = Some n ->
        Cli.parseRetries (Some str) = Z.max 1 (Z.min n 10)).
Proof.
  repeat split.
  - destruct retriesStr as [str|]; simpl; [|unfold Cli.DEFAULT_RETRIES; lia].
    destruct (String.eqb str ""); [unfold Cli.DEFAULT_RETRIES; lia|].
    destruct (parseInt str); [lia | unfold Cli.DEFAULT_RETRIES; lia].
  - destruct retriesStr as [str|]; simpl; [|unfold Cli.DEFAULT_RETRIES; lia].
    destruct (String.eqb str ""); [unfold Cli.DEFAULT_RETRIES; lia|].
    destruct (parseInt str); [lia | unfold Cli.DEFAULT_RETRIES; lia].
  - intros str E. simpl. rewrite E. now destruct (String.eqb str "").
  - intros str n Hne E. simpl. rewrite E.
    destruct (String.eqb_spec str ""); [contradiction | reflexivity].
Qed.

Lemma unset_lookup (keys : list string) (env : Env) (k : string) :
  unset keys env -> In k keys -> env !! k = None.
Proof.
  unfold unset. rewrite Forall_forall. intros Hall Hin. apply Hall.
  now apply list_elem_of_In.
Qed.

(** C4, as amended: with no [RATE_LIMIT_*] override the daily cap the
    configuration resolves, which depends on no week number, is the
    full-cap table (100 likes, 30 comments, 50 follows, 50 direct
    messages) except for Twitter comments (50) and direct messages (20),
    LinkedIn direct messages (40), LinkedIn follows and connection
    requests (the hard ceiling of 15) and the connection requests of the
    platforms that have none (0); posts are capped at 10, 10 and 5. *)
Theorem resolvedDailyCap_defaults (env : Env) (p : Platform) (a : ActionType) :
  unset rateLimitKeys env ->
  match p, a with
  | Twitter, Comment => resolvedDailyCap env p a = 50
  | Twitter, Dm => resolvedDailyCap env p a = 20
  | Linkedin, Dm => resolvedDailyCap env p a = 40
  | Linkedin, Follow | Linkedin, Connect => resolvedDailyCap env p a = 15
  | Instagram, Connect | Twitter, Connect => resolvedDailyCap env p a = 0
  | Instagram, Post | Twitter, Post => resolvedDailyCap env p a = 10
  | Linkedin, Post => resolvedDailyCap env p a = 5
  | _, _ => Some (resolvedDailyCap env p a) = fullCap a
  end.
Proof.
  intros U.
  destruct p, a; cbn -[getEnvNumber];
    try reflexivity;
    rewrite getEnvNumber_unset; try reflexivity;
    apply (unset_lookup rateLimitKeys); auto; simpl; tauto.
Qed.

Lemma unset_empty (keys : list string) : unset keys (∅ : Env).
Proof. unfold unset. apply Forall_forall. intros k _. apply lookup_empty. Qed.

Lemma resolvedDailyCap_witness :
  resolvedDailyCap ∅ Linkedin Connect = 15
  /\ Some (resolvedDailyCap ∅ Instagram Dm) = fullCap Dm.
Proof.
  split.
  - exact (resolvedDailyCap_defaults ∅ Linkedin Connect (unset_empty rateLimitKeys)).
  - exact (resolvedDailyCap_defaults ∅ Instagram Dm (unset_empty rateLimitKeys)).
Defined.

(** The configured Twitter comment cap is 50 a day, not the 30 of the
    full-cap table; Twitter and LinkedIn direct messages are 20 and 40,
    not 50. *)
Lemma twitter_comment_cap :
  resolvedDailyCap ∅ Twitter Comment = 50 /\ fullCap Comment = Some 30
  /\ resolvedDailyCap ∅ Twitter Dm = 20 /\ resolvedDailyCap ∅ Linkedin Dm = 40
  /\ fullCap Dm = Some 50.
Proof. repeat split; vm_compute; reflexivity. Qed.

Import Jitter.

(** C9: with the default configuration every micro delay lies in
    1500..4000 ms and every typing delay in 30..100 ms; the draws are
    functions of the random number alone, so equal draws repeat a value. *)
Theorem delays_in_range (env : Env) (r : Z) :
  unset delayKeys env ->
  1500 <= generateMicroDelay (delays env) r <= 4000
  /\ 30 <= generateTypingDelay (delays env) r <= 100
  /\ (forall r', r' mod 2501 = r mod 2501 ->
        generateMicroDelay (delays env) r' = generateMicroDelay (delays env) r)
  /\ (forall r', r' mod 71 = r mod 71 ->
        generateTypingDelay (delays env) r' = generateTypingDelay (delays env) r).
Proof.
  intros U.
  assert (E1 : minMs (delays env) = 1500).
  { apply getEnvNumber_unset, (unset_lookup delayKeys); auto; simpl; tauto. }
  assert (E2 : maxMs (delays env) = 4000).
  { apply getEnvNumber_unset, (unset_lookup delayKeys); auto; simpl; tauto. }
  assert (E3 : typingMinMs (delays env) = 30).
  { apply getEnvNumber_unset, (unset_lookup delayKeys); auto; simpl; tauto. }
  assert (E4 : typingMaxMs (delays env) = 100).
  { apply getEnvNumber_unset, (unset_lookup delayKeys); auto; simpl; tauto. }
  unfold generateMicroDelay, generateTypingDelay, uniform.
  rewrite E1, E2, E3, E4.
  replace (4000 - 1500 + 1) with 2501 by lia.
  replace (100 - 30 + 1) with 71 by lia.
  pose proof (Z.mod_pos_bound r 2501 ltac:(lia)).
  pose proof (Z.mod_pos_bound r 71 ltac:(lia)).
  repeat split; try lia; intros r' E; now rewrite E.
Qed.

Lemma delays_in_range_witness :
  1500 <= generateMicroDelay (delays ∅) 123456 <= 4000
  /\ 30 <= generateTypingDelay (delays ∅) 123456 <= 100.
Proof.
  destruct (delays_in_range ∅ 123456 (unset_empty delayKeys)) as (Hm & Ht & _).
  split; [exact Hm | exact Ht].
Defined.

End ConfigFacts.


Section TraceFacts.

Lemma attempts_app (a b : list Event) : attempts (a ++ b) = attempts a ++ attempts b.
Proof. apply omap_app. Qed.

Lemma sleeps_app (a b : list Event) : sleeps (a ++ b) = sleeps a ++ sleeps b.
Proof. apply omap_app. Qed.

Lemma notifications_app (a b : list Event) :
  notifications (a ++ b) = notifications a ++ notifications b.
Proof. apply omap_app. Qed.

Lemma stdout_app (a b : list Event) : stdout (a ++ b) = stdout a ++ stdout b.
Proof. apply omap_app. Qed.

Lemma failedAttemptLines_app (a b : list Event) :
  failedAttemptLines (a ++ b) = failedAttemptLines a ++ failedAttemptLines b.
Proof. unfold failedAttemptLines. now rewrite stdout_app, List.filter_app. Qed.

Lemma errorNotifications_app (a b : list Event) :
  errorNotifications (a ++ b) = errorNotifications a ++ errorNotifications b.
Proof. unfold errorNotifications. now rewrite notifications_app, List.filter_app. Qed.

Lemma prefix_append (p s : string) : String.prefix p (p +:+ s) = true.
Proof.
  induction p as [|c p IH]; simpl.
  - now destruct s.
  - destruct (ascii_dec c c); [exact IH | contradiction].
Qed.

Lemma attemptFailedLine_is (o : RetryOptions) (i : Z) :
  isAttemptFailedLine (attemptFailedLine o i) = true.
Proof. apply prefix_append. Qed.

Variable o : RetryOptions.

Lemma attempts_retryBlocks (errs : list Thrown) (a : Z) :
  attempts (retryBlocks o a errs) = map (fun i => a + Z.of_nat i) (seq 0 (length errs)).
Proof.
  revert a. induction errs as [|t errs IH]; intros a; [reflexivity|].
  cbn [retryBlocks length seq map]. rewrite attempts_app, IH.
  cbn. f_equal; [lia|]. rewrite <- seq_shift, map_map.
  apply map_ext. intros; lia.
Qed.

Lemma sleeps_retryBlocks (errs : list Thrown) (a : Z) :
  sleeps (retryBlocks o a errs) = repeat RETRY_DELAY_MS (length errs).
Proof.
  revert a. induction errs as [|t errs IH]; intros a; [reflexivity|].
  cbn [retryBlocks]. rewrite sleeps_app, IH. reflexivity.
Qed.

Lemma notifications_retryBlocks (errs : list Thrown) (a : Z) :
  notifications (retryBlocks o a errs) = [].
Proof.
  revert a. induction errs as [|t errs IH]; intros a; [reflexivity|].
  cbn [retryBlocks]. rewrite notifications_app, IH. reflexivity.
Qed.

Lemma failedAttemptLines_retryBlocks (errs : list Thrown) (a : Z) :
  failedAttemptLines (retryBlocks o a errs)
  = map (fun i => attemptFailedLine o (a + Z.of_nat i)) (seq 0 (length errs)).
Proof.
  revert a. induction errs as [|t errs IH]; intros a; [reflexivity|].
  cbn [retryBlocks length seq map]. rewrite failedAttemptLines_app, IH.
  unfold failedAttemptLines at 1. cbn [retryBlock stdout omap list_omap List.filter].
  rewrite attemptFailedLine_is.
  change (isAttemptFailedLine (errorLine (message (toError t)))) with false.
  change (isAttemptFailedLine retryingLine) with false.
  cbn [app]. f_equal; [f_equal; lia|].
  rewrite <- seq_shift, map_map. apply map_ext. intros; f_equal; lia.
Qed.

(** The numbers of [k + 1] attempts in a row. *)
Lemma attempt_numbers (k : nat) (n : Z) :
  Z.of_nat k = n - 1 ->
  map (fun i => 1 + Z.of_nat i) (seq 0 k) ++ [1 + Z.of_nat k]
  = map Z.of_nat (seq 1 (Z.to_nat n)).
Proof.
  intros Hk. replace (Z.to_nat n) with (k + 1)%nat by lia.
  rewrite seq_app, map_app. cbn. f_equal.
  - rewrite <- seq_shift, map_map. apply map_ext. intros; lia.
  - f_equal. lia.
Qed.

End TraceFacts.

Section RetryFacts.
Context {S : Type} `{Collaborators S} {T : Type}.
Variable action : S -> Outcome T * S.
Variable o : RetryOptions.

(** One iteration of the loop. *)
Lemma withRetry_from_step (k : nat) (attempt : Z) (last : option JsError) (w : World S) :
  withRetry_from action o (Datatypes.S k) attempt last w =
  match action (claw w) with
  | (Returned r, s1) =>
      (Returned r, {| claw := s1; env := env w; trace := trace w ++ [Attempt attempt] |})
  | (Threw t, s1) =>
      if (attempt <? retries o)%Z then
        withRetry_from action o k (attempt + 1) (Some (toError t))
          {| claw := elapse RETRY_DELAY_MS s1; env := env w;
             trace := trace w ++ retryBlock o attempt t |}
      else
        withRetry_from action o k (attempt + 1) (Some (toError t))
          {| claw := s1; env := env w; trace := trace w ++ [Attempt attempt] |}
  | (Exited c, s1) =>
      (Exited c, {| claw := s1; env := env w; trace := trace w ++ [Attempt attempt] |})
  end.
Proof.
  cbn [withRetry_from]. unfold tryCatch, call.
  destruct (action (claw w)) as [[r|t|c] s1]; try reflexivity.
  unfold bind, when. destruct (attempt <? retries o)%Z; cbn; [|reflexivity].
  rewrite <- !app_assoc. reflexivity.
Qed.

Lemma withRetry_from_zero (attempt : Z) (last : option JsError) (w : World S) :
  withRetry_from action o 0 attempt last w =
  (Threw (match last with
          | Some e => ThrownError e
          | None => ThrownOther "undefined"
          end), w).
Proof. reflexivity. Qed.

(** The trace a retry loop with [k + 1] iterations left appends. *)
Lemma withRetry_from_shape (k : nat) :
  forall (attempt : Z) (last : option JsError) (w : World S),
    attempt + Z.of_nat k = retries o ->
    exists errs : list Thrown,
      (length errs <= k)%nat
      /\ trace (snd (withRetry_from action o (Datatypes.S k) attempt last w))
         = trace w ++ retryBlocks o attempt errs
           ++ [Attempt (attempt + Z.of_nat (length errs))]
      /\ env (snd (withRetry_from action o (Datatypes.S k) attempt last w)) = env w
      /\ (forall t, fst (withRetry_from action o (Datatypes.S k) attempt last w) = Threw t ->
            length errs = k).
Proof.
  induction k as [|k IH]; intros attempt last w Hk; rewrite withRetry_from_step.
  - exists [].
    destruct (action (claw w)) as [[r|t|c] s1] eqn:E; cbn.
    + rewrite Z.add_0_r. repeat split; auto; try lia; try (intros; discriminate).
    + rewrite (proj2 (Z.ltb_ge attempt (retries o))) by lia.
      cbn. rewrite Z.add_0_r. repeat split; auto; try lia.
    + rewrite Z.add_0_r. repeat split; auto; try lia; try (intros; discriminate).
  - destruct (action (claw w)) as [[r|t|c] s1] eqn:E.
    + exists []. cbn. rewrite Z.add_0_r. repeat split; auto; try lia; try (intros; discriminate).
    + assert (Hlt : attempt < retries o) by lia.
      assert (Hk' : attempt + 1 + Z.of_nat k = retries o) by lia.
      rewrite (proj2 (Z.ltb_lt attempt (retries o)) Hlt).
      set (w2 := {| claw := elapse RETRY_DELAY_MS s1; env := env w; trace := _ |}).
      destruct (IH (attempt + 1) (Some (toError t)) w2 Hk')
        as (errs & Hlen & Htr & Henv & Hthrew).
      exists (t :: errs). cbn [length retryBlocks].
      repeat split.
      * lia.
      * rewrite Htr. subst w2. cbn [trace].
        rewrite <- !app_assoc.
        replace (attempt + Z.of_nat (Datatypes.S (length errs)))
          with (attempt + 1 + Z.of_nat (length errs)) by lia.
        reflexivity.
      * rewrite Henv. reflexivity.
      * intros t' Ht'. f_equal. eapply Hthrew; eauto.
    + exists []. cbn. rewrite Z.add_0_r. repeat split; auto; try lia; try (intros; discriminate).
Qed.


(** What [withRetry] appends to the trace: nothing when [retries] is not
    positive, else the retried attempts and the last attempt. *)
Lemma withRetry_shape (w : World S) :
  (retries o <= 0 /\ withRetry action o w = (Threw (ThrownOther "undefined"), w))
  \/ (1 <= retries o
      /\ exists errs : list Thrown,
           Z.of_nat (length errs) < retries o
           /\ trace (snd (withRetry action o w))
              = trace w ++ retryBlocks o 1 errs ++ [Attempt (1 + Z.of_nat (length errs))]
           /\ env (snd (withRetry action o w)) = env w
           /\ (forall t, fst (withRetry action o w) = Threw t ->
                 Z.of_nat (length errs) = retries o - 1)).
Proof.
  unfold withRetry.
  destruct (Z.to_nat (retries o)) as [|k] eqn:E.
  - left. split; [lia | reflexivity].
  - right. split; [lia|].
    destruct (withRetry_from_shape k 1 None w ltac:(lia)) as (errs & Hlen & Htr & Henv & Hthrew).
    exists errs. repeat split; auto; try lia.
    intros t Ht. rewrite (Hthrew t Ht). lia.
Qed.

(** A unit of work that always throws makes the loop throw. *)
Lemma withRetry_from_alwaysFails (k : nat) :
  alwaysFails action ->
  forall attempt last w, exists t,
    fst (withRetry_from action o k attempt last w) = Threw t.
Proof.
  intros Hfail. induction k as [|k IH]; intros attempt last w.
  - rewrite withRetry_from_zero. eauto.
  - rewrite withRetry_from_step.
    destruct (Hfail (claw w)) as (t & s1 & ->).
    destruct (attempt <? retries o)%Z; apply IH.
Qed.

(** The error that leaves the loop is the one of the last attempt. *)
Lemma withRetry_from_last_error (k : nat) :
  alwaysFails action ->
  forall attempt last w t,
    attempt + Z.of_nat k = retries o ->
    fst (action (nthState action k (claw w))) = Threw t ->
    fst (withRetry_from action o (Datatypes.S k) attempt last w)
    = Threw (ThrownError (toError t)).
Proof.
  intros Hfail. induction k as [|k IH]; intros attempt last w t Hk Ht;
    rewrite withRetry_from_step; cbn [nthState] in Ht;
    destruct (Hfail (claw w)) as (t' & s1 & E); rewrite E in *; cbn [fst snd] in Ht.
  - rewrite (proj2 (Z.ltb_ge attempt (retries o))) by lia.
    rewrite withRetry_from_zero. cbn. congruence.
  - rewrite (proj2 (Z.ltb_lt attempt (retries o))) by lia.
    apply IH; [lia | exact Ht].
Qed.

(** The error that leaves the loop is the one of its last attempt, as an
    [Error]. *)
Lemma withRetry_from_thrown (k : nat) :
  forall attempt last w t',
    attempt + Z.of_nat k = retries o ->
    fst (withRetry_from action o (Datatypes.S k) attempt last w) = Threw t' ->
    exists t, fst (action (nthState action k (claw w))) = Threw t
              /\ t' = ThrownError (toError t).
Proof.
  induction k as [|k IH]; intros attempt last w t' Hk;
    rewrite withRetry_from_step; cbn [nthState];
    destruct (action (claw w)) as [[r|t|c] s1] eqn:E; cbn [fst snd];
    try discriminate.
  - rewrite (proj2 (Z.ltb_ge attempt (retries o))) by lia.
    rewrite withRetry_from_zero. cbn. intros [= <-]. eauto.
  - rewrite (proj2 (Z.ltb_lt attempt (retries o))) by lia.
    intros Ht'. apply (IH (attempt + 1) _ _ t' ltac:(lia)) in Ht'. exact Ht'.
Qed.

Lemma messageOf_toError (t : Thrown) : messageOf (ThrownError (toError t)) = messageOf t.
Proof. destruct t; reflexivity. Qed.

(** Two failures, then a success, with three attempts allowed. *)
Lemma withRetry_twice_then_ok (w : World S) (t1 t2 : Thrown) (s1 s2 s3 : S) (res : T) :
  retries o = 3 ->
  action (claw w) = (Threw t1, s1) ->
  action (elapse RETRY_DELAY_MS s1) = (Threw t2, s2) ->
  action (elapse RETRY_DELAY_MS s2) = (Returned res, s3) ->
  withRetry action o w =
  (Returned res,
   {| claw := s3; env := env w;
      trace := trace w ++ retryBlock o 1 t1 ++ retryBlock o 2 t2 ++ [Attempt 3] |}).
Proof.
  intros Hn E1 E2 E3. unfold withRetry. rewrite Hn.
  change (Z.to_nat 3) with 3%nat.
  rewrite withRetry_from_step, E1, Hn. change (1 <? 3)%Z with true. cbv iota.
  rewrite withRetry_from_step. cbn [claw env trace]. rewrite E2, Hn.
  change (1 + 1 <? 3)%Z with true. cbv iota.
  rewrite withRetry_from_step. cbn [claw env trace]. rewrite E3.
  rewrite <- !app_assoc. reflexivity.
Qed.

(** A unit of work that always throws is invoked [retries] times, and the
    error of the last attempt leaves the loop. *)
Lemma withRetry_exhausted (w : World S) :
  alwaysFails action ->
  attempts (trace (snd (withRetry action o w)))
  = attempts (trace w) ++ map Z.of_nat (seq 1 (Z.to_nat (retries o)))
  /\ (1 <= retries o ->
      forall t,
        fst (action (nthState action (Z.to_nat (retries o) - 1) (claw w))) = Threw t ->
        fst (withRetry action o w) = Threw (ThrownError (toError t))).
Proof.
  intros Hfail. split.
  - destruct (withRetry_shape w) as [[Hle ->] | (Hge & errs & Hlen & Htr & _ & Hthrew)].
    + cbn. replace (Z.to_nat (retries o)) with 0%nat by lia. cbn. now rewrite app_nil_r.
    + destruct (withRetry_from_alwaysFails (Z.to_nat (retries o)) Hfail 1 None w)
        as (t & Ht).
      specialize (Hthrew t Ht).
      rewrite Htr, !attempts_app, attempts_retryBlocks. f_equal. cbn.
      now apply attempt_numbers.
  - intros Hge t Ht. unfold withRetry.
    destruct (Z.to_nat (retries o)) as [|k] eqn:E; [lia|].
    apply withRetry_from_last_error; auto; [lia|].
    replace k with (Datatypes.S k - 1)%nat by lia. exact Ht.
Qed.

End RetryFacts.

Section RetryTheorems.
Context {S : Type} `{Collaborators S} {T : Type}.


End RetryTheorems.


Section ObserverFacts.

Lemma notifications_cons (e : Event) (l : list Event) :
  notifications (e :: l)
  = match e with Notify p => [p] | _ => [] end ++ notifications l.
Proof. now destruct e. Qed.

Lemma attempts_cons (e : Event) (l : list Event) :
  attempts (e :: l) = match e with Attempt n => [n] | _ => [] end ++ attempts l.
Proof. now destruct e. Qed.

Lemma errorNotifications_cons (e : Event) (l : list Event) :
  errorNotifications (e :: l)
  = match e with
    | Notify p => if negb (success p) then [p] else []
    | _ => []
    end ++ errorNotifications l.
Proof.
  unfold errorNotifications. rewrite notifications_cons.
  destruct e; try reflexivity. cbn. now destruct (negb (success p)).
Qed.

Lemma errorNotifications_retryBlocks (o : RetryOptions) (errs : list Thrown) (a : Z) :
  errorNotifications (retryBlocks o a errs) = [].
Proof. unfold errorNotifications. now rewrite notifications_retryBlocks. Qed.

Lemma noAttemptAfterNotify_retryBlocks (o : RetryOptions) (errs : list Thrown) (a : Z)
    (rest : list Event) :
  noAttemptAfterNotify rest -> noAttemptAfterNotify (retryBlocks o a errs ++ rest).
Proof.
  intros Hrest. revert a. induction errs as [|t errs IH]; intros a; [exact Hrest|].
  cbn [retryBlocks retryBlock app noAttemptAfterNotify]. apply IH.
Qed.

End ObserverFacts.

Ltac exec HR :=
  repeat (cbv beta iota; cbn [trace claw env fst snd truthy negb];
  match goal with
  | |- context [withRetry ?a ?o ?w] =>
      lazymatch w with
      | context [match _ with _ => _ end] => fail
      | _ =>
      let r := fresh "r" in let s := fresh "s" in let errs := fresh "errs" in
      let E := fresh "E" in let Hlen := fresh "Hlen" in let Hex := fresh "Hex" in
      destruct (HR w) as (r & s & errs & E & Hlen & Hex); rewrite E;
      destruct r
      end
  | |- context [match ?x with _ => _ end] =>
      lazymatch x with
      | context [match _ with _ => _ end] => fail
      | context [withRetry] => fail
      | _ => destruct x eqn:?
      end
  end).

Ltac unfold_run :=
  unfold runAction, notifyReport, parseContext, constructClaw,
    sendNotificationWithContext, console_log, console_error;
  unfold bind, tryCatch, when, call, emit, setEnv, ret, throw, exit, gets.

Ltac observe :=
  cbn [app]; rewrite <- ?app_assoc; cbn [app];
  repeat (rewrite notifications_cons || rewrite notifications_app
          || rewrite notifications_retryBlocks
          || rewrite attempts_cons || rewrite attempts_app
          || rewrite attempts_retryBlocks
          || rewrite errorNotifications_cons || rewrite errorNotifications_app
          || rewrite errorNotifications_retryBlocks);
  cbn [app negb success length notifications attempts errorNotifications omap list_omap
       List.filter].

Ltac absurd_collaborator :=
  match goal with
  | Hw : wellBehaved |- _ =>
      let Hc := fresh in let Hs := fresh in let Hn := fresh in
      let Hi := fresh in let Hv := fresh in
      destruct Hw as (Hc & Hs & Hn & Hi & Hv);
      match goal with
      | E : construct ?e ?s = (_, _) |- _ =>
          destruct (Hc e s) as (? & ? & ?); congruence
      | E : shutdown ?s = (_, _) |- _ =>
          destruct (Hs s) as (? & ? & ?); congruence
      | E : notify ?p ?s = (_, _) |- _ =>
          destruct (Hn p s) as (? & ? & ?); congruence
      | E : initialize ?s = (Exited _, _) |- _ => exfalso; exact (Hi _ _ _ E)
      | E : initialize ?s = (_, _), Hr : returns initialize |- _ =>
          destruct (Hr s) as (? & ? & ?); congruence
      end
  end.

Ltac pre_part l :=
  lazymatch l with
  | retryBlocks _ _ _ ++ _ => constr:(@nil Event)
  | ?e :: ?rest => let p := pre_part rest in constr:(e :: p)
  | @nil _ => constr:(@nil Event)
  end.

Ltac post_part l :=
  lazymatch l with
  | retryBlocks _ _ _ ++ ?post => post
  | _ :: ?rest => post_part rest
  | @nil _ => constr:(@nil Event)
  end.

Ltac errs_part l :=
  lazymatch l with
  | retryBlocks _ _ ?errs ++ _ => errs
  | _ :: ?rest => errs_part rest
  | @nil _ => constr:(@nil Thrown)
  end.

Section RunFacts.
Context {S : Type} `{Collaborators S}.

Lemma parseRetries_pos (r : option string) : 1 <= parseRetries r.
Proof.
  destruct r as [str|]; simpl; [|unfold DEFAULT_RETRIES; lia].
  destruct (String.eqb str ""); [unfold DEFAULT_RETRIES; lia|].
  destruct (parseInt str); [lia | unfold DEFAULT_RETRIES; lia].
Qed.

(** The result of the retry loop of a command, as a record. *)
Lemma withRetry_result {T} (action : S -> Outcome T * S) (o : RetryOptions) (w : World S) :
  1 <= retries o ->
  exists (r : Outcome T) (s : S) (errs : list Thrown),
    withRetry action o w =
    (r, {| claw := s; env := env w;
           trace := trace w ++ retryBlocks o 1 errs
                    ++ [Attempt (1 + Z.of_nat (length errs))] |})
    /\ Z.of_nat (length errs) < retries o
    /\ (forall t, r = Threw t -> Z.of_nat (length errs) = retries o - 1).
Proof.
  intros Hpos.
  destruct (withRetry_shape action o w)
    as [[Hle _] | (_ & errs & Hlen & Htr & Henv & Hthrew)]; [lia|].
  destruct (withRetry action o w) as [r [s e tr]]. cbn in *. subst.
  exists r, s, errs. repeat split; auto.
Qed.

(** The result of the retry loop of a command, with the error it throws. *)
Lemma withRetry_outcome {T} (action : S -> Outcome T * S) (o : RetryOptions) (w : World S) :
  1 <= retries o ->
  exists (r : Outcome T) (s : S) (errs : list Thrown),
    withRetry action o w =
    (r, {| claw := s; env := env w;
           trace := trace w ++ retryBlocks o 1 errs
                    ++ [Attempt (1 + Z.of_nat (length errs))] |})
    /\ Z.of_nat (length errs) < retries o
    /\ (forall t', r = Threw t' ->
          exists t,
            fst (action (nthState action (Z.to_nat (retries o) - 1) (claw w))) = Threw t
            /\ messageOf t' = messageOf t).
Proof.
  intros Hpos.
  destruct (withRetry_result action o w Hpos) as (r & s & errs & E & Hlen & _).
  exists r, s, errs. split; [exact E|]. split; [exact Hlen|].
  intros t' ->. unfold withRetry in E.
  destruct (Z.to_nat (retries o)) as [|k] eqn:Ek; [lia|].
  destruct (withRetry_from_thrown action o k 1 None w t' ltac:(lia)) as (t & Ht & ->).
  { rewrite E. reflexivity. }
  exists t. split; [|apply messageOf_toError].
  replace (Datatypes.S k - 1)%nat with k by lia. exact Ht.
Qed.


End RunFacts.

Section More.
Context {S : Type} `{Collaborators S}.

Lemma withRetry_from_never_exits {T} (action : S -> Outcome T * S) (o : RetryOptions)
    (k : nat) :
  (forall s code s', action s <> (Exited code, s')) ->
  forall attempt last w code, fst (withRetry_from action o k attempt last w) <> Exited code.
Proof.
  intros Hne. induction k as [|k IH]; intros attempt last w code.
  - rewrite withRetry_from_zero. discriminate.
  - rewrite withRetry_from_step.
    destruct (action (claw w)) as [[r|t|c] s1] eqn:E.
    + discriminate.
    + destruct (attempt <? retries o)%Z; apply IH.
    + exfalso. exact (Hne _ _ _ E).
Qed.

Lemma unitOfWork_never_exits (c : ActionCommand) :
  neverExits (invoke (cmd_call c)) -> neverExits (unitOfWork c).
Proof.
  intros Hne s code s' E. unfold unitOfWork in E.
  destruct (invoke (cmd_call c) s) as [[r|t|c'] s1] eqn:E1.
  - destruct (negb (res_success r)); discriminate.
  - discriminate.
  - exact (Hne _ _ _ E1).
Qed.

(** C8, as amended: the delay between attempts is the constant
    [RETRY_DELAY_MS] = 5000 ms, which the options of [withRetry] cannot
    change; the loop waits once after every attempt but the last, and
    nothing follows the last attempt. *)
Theorem retry_delay_fixed {T} (action : S -> Outcome T * S) (o : RetryOptions) (w : World S) :
  let r := withRetry action o w in
  let made := (length (attempts (trace (snd r))) - length (attempts (trace w)))%nat in
  RETRY_DELAY_MS = 5000
  /\ sleeps (trace (snd r)) = sleeps (trace w) ++ repeat RETRY_DELAY_MS (made - 1)
  /\ (1 <= retries o -> exists n, last (trace (snd r)) = Some (Attempt n)).
Proof.
  intros r made. subst r made. split; [reflexivity|].
  destruct (withRetry_shape action o w) as [[Hle ->] | (Hge & errs & Hlen & Htr & _)].
  - cbn [snd]. rewrite Nat.sub_diag. cbn. rewrite app_nil_r. split; [reflexivity | lia].
  - rewrite Htr. split.
    + rewrite !sleeps_app, sleeps_retryBlocks, !attempts_app, attempts_retryBlocks.
      rewrite !length_app, length_map, length_seq. cbn.
      replace (length (attempts (trace w)) + (length errs + 1)
               - length (attempts (trace w)) - 1)%nat with (length errs) by lia.
      now rewrite app_nil_r.
    + intros _. exists (1 + Z.of_nat (length errs)).
      rewrite !app_assoc. apply last_snoc.
Qed.

(** C5, as amended: an action command given a malformed [--context]
    reports it on the error stream and then runs exactly as if no context
    had been given; [notify report] given a malformed [--context] ends the
    process without delivering a notification. *)
Theorem malformed_context_not_fatal
    (c : ActionCommand) (retries : option string) (str : string) (w : World S) :
  str <> "" ->
  JSON_parse str = None ->
  runAction c {| opt_context := Some str; opt_retries := retries |} w
  = runAction c {| opt_context := None; opt_retries := retries |}
      {| claw := claw w; env := env w;
         trace := trace w ++ [Stderr ("Invalid --context JSON: " +:+ str)] |}
  /\ (forall (platform action target : string) (error : option string),
        let r := notifyReport platform action target
                   {| rep_context := Some str; rep_error := error |} w in
        notifications (trace (snd r)) = notifications (trace w)
        /\ exists code, fst r = Exited code).
Proof.
  intros Hne Hparse. split.
  - unfold runAction. cbn [opt_context opt_retries].
    unfold parseContext. rewrite Hparse.
    destruct (String.eqb_spec str ""); [contradiction|].
    reflexivity.
  - intros platform action target error r. subst r.
    unfold_run. cbn [rep_context rep_error]. rewrite Hparse.
    destruct (String.eqb_spec str ""); [contradiction|].
    destruct w as [s0 e0 tr0].
    cbv beta iota; cbn [trace claw env fst snd].
    destruct (construct e0 s0) as [[[]|t|code] s1];
      cbv beta iota; cbn [trace claw env fst snd negb].
    + destruct (isEnabled s1); cbv beta iota; cbn [trace claw env fst snd negb];
        rewrite ?notifications_app; cbn; rewrite ?app_nil_r; eauto.
    + rewrite ?notifications_app; cbn; rewrite ?app_nil_r; eauto.
    + rewrite ?notifications_app; cbn; rewrite ?app_nil_r; eauto.
Qed.


(** C10, as amended: when the context parsed from [--context] is falsy
    (absent, empty, malformed, or [null], [false], [0], the empty string)
    the command leaves the environment alone and sends no notification;
    when it is truthy the first thing the command does is set
    [CLAWSOCIAL_SILENT] to [1], it sends nothing while the notifier is
    disabled, and with the notifier enabled and collaborators that return
    it sends exactly one notification, after the last attempt: the
    defaults merged with the context on success; on failure the context
    alone and the error message, which is the message of what
    [initialize] threw or of what the last attempt threw, the one printed
    on the "Failed to ... after N attempts" line just before the
    notification. *)
Theorem context_notification (c : ActionCommand) (options : ActionOptions) (w : World S) :
  trace w = [] ->
  let r := runAction c options w in
  let n := parseRetries (opt_retries options) in
  let started := snd (construct (<["CLAWSOCIAL_SILENT" := "1"]> (env w)) (claw w)) in
  forall context : JsValue,
    fst (parseContext (opt_context options) w) = Returned context ->
    (truthy context = false ->
       env (snd r) = env w /\ notifications (trace (snd r)) = [])
    /\ (truthy context = true ->
        (exists rest, trace (snd r) = SetEnv "CLAWSOCIAL_SILENT" "1" :: rest)
        /\ env (snd r) !! "CLAWSOCIAL_SILENT" = Some "1"
        /\ ((forall s, isEnabled s = false) -> notifications (trace (snd r)) = [])
        /\ ((forall s, isEnabled s = true) -> wellBehaved ->
            exists p,
              notifications (trace (snd r)) = [p]
              /\ noAttemptAfterNotify (trace (snd r))
              /\ platform p = cmd_platform c
              /\ action p = cmd_action c
              /\ target p = cmd_target c
              /\ (if success p
                  then event p = ActionComplete
                       /\ details p = JObject (spread (cmd_defaults c) context)
                       /\ error p = None
                       /\ fst r = Returned tt
                  else event p = ActionError
                       /\ details p = context
                       /\ (exists t : Thrown,
                             error p = Some (messageOf t)
                             /\ (exists pre,
                                   trace (snd r)
                                   = pre ++ [Stdout (failedLine c n (messageOf t));
                                             Notify p; Shutdown])
                             /\ (fst (initialize started) = Threw t
                                 \/ fst (initialize started) = Returned tt
                                    /\ fst (unitOfWork c
                                              (nthState (unitOfWork c) (Z.to_nat n - 1)
                                                 (snd (initialize started))))
                                       = Threw t))
                       /\ fst r = Exited 1))).
Proof.
  intros Hw r n started. subst r n started. intros context.
  set (o := {| retries := parseRetries (opt_retries options);
               actionName := cmd_name c; target_ := cmd_retryTarget c |}).
  pose proof (fun w => withRetry_outcome (unitOfWork c) o w (parseRetries_pos _)) as HR.
  pose proof (fun Hne w code =>
                withRetry_from_never_exits (unitOfWork c) o (Z.to_nat (retries o))
                  (unitOfWork_never_exits c Hne) 1 None w code) as HX.
  destruct w as [s0 e0 tr0]. cbn [trace] in Hw. subst tr0.
  unfold_run. fold o.
  exec HR.
  all: cbv beta iota; cbn [trace claw env fst snd].
  all: cbn [app]; rewrite <- ?app_assoc; cbn [app].
  all: intros Hctx; try discriminate Hctx; injection Hctx as <-.
  all: split; [intros Hf | intros Ht]; cbn [truthy] in *; try congruence.
  all: try (split; [reflexivity | observe; reflexivity]).
  all: split; [eexists; reflexivity|].
  all: split; [apply lookup_insert_eq|].
  all: split; [intros Hd; rewrite ?Hd in *; cbn [negb] in *; try discriminate;
               observe; reflexivity|].
  all: intros He Hwb; rewrite ?He in *; cbn [negb] in *; try discriminate.
  all: try absurd_collaborator.
  all: try (exfalso; destruct Hwb as (_ & _ & _ & _ & Hv);
            match goal with
            | E : withRetry _ _ ?w = (Exited ?code, _) |- _ =>
                apply (HX (Hv _) w code); unfold withRetry in E; rewrite E; reflexivity
            end).
  all: eexists; split; [observe; reflexivity|].
  all: split;
    [ cbn [noAttemptAfterNotify];
      try apply noAttemptAfterNotify_retryBlocks;
      cbn [noAttemptAfterNotify attempts omap list_omap]; auto |].
  all: cbn [success platform action target event details error].
  all: repeat match goal with u : unit |- _ => destruct u end.
  all: do 3 (split; [reflexivity|]).
  all: try (repeat split; reflexivity).
  all: do 2 (split; [reflexivity|]).
  all: split; [|reflexivity].
  - exists t. split; [reflexivity|]. split; [|left; reflexivity].
    exists [SetEnv "CLAWSOCIAL_SILENT" "1"; Construct; Initialize]. reflexivity.
  - destruct (Hex _ eq_refl) as (t0 & Hlast & Hmsg). cbn [claw] in Hlast.
    rewrite Hmsg. exists t0. split; [reflexivity|].
    split; [|right; split; [reflexivity | exact Hlast]].
    exists (SetEnv "CLAWSOCIAL_SILENT" "1" :: Construct :: Initialize
            :: retryBlocks o 1 errs ++ [Attempt (1 + Z.of_nat (length errs))]).
    cbn [app]. rewrite <- app_assoc. reflexivity.
  - exists t0. split; [reflexivity|]. split; [|left; reflexivity].
    exists [SetEnv "CLAWSOCIAL_SILENT" "1"; Construct; Initialize]. reflexivity.
Qed.


End More.

Section Examples.
Import Samples.

Lemma scripted_wellBehaved : @wellBehaved Sim scripted.
Proof.
  repeat split; try (intros; eexists _, _; reflexivity).
  - intros s code s'. discriminate.
  - intros c s code s'. cbn. unfold simInvoke. destruct (sim_failures s); discriminate.
Qed.




Lemma malformed_context_witness :
  runAction (ig_like sampleUrl) (threeRetries (Some "{")) (world0 noFailures)
  = runAction (ig_like sampleUrl) (threeRetries None)
      {| claw := noFailures; env := ∅;
         trace := [Stderr "Invalid --context JSON: {"] |}.
Proof.
  assert (Hne : "{" <> "") by discriminate.
  assert (Hparse : JSON_parse "{" = None) by reflexivity.
  exact (proj1 (malformed_context_not_fatal (ig_like sampleUrl) (Some "3") "{"
                  (world0 noFailures) Hne Hparse)).
Defined.

(** A malformed context does not stop the action: the like is attempted
    and the command returns normally. *)
Lemma malformed_context_action_runs :
  JSON_parse "{" = None
  /\ attempts (trace (snd (runAction (ig_like sampleUrl) (threeRetries (Some "{"))
                             (world0 noFailures)))) = [1]
  /\ fst (runAction (ig_like sampleUrl) (threeRetries (Some "{")) (world0 noFailures))
     = Returned tt.
Proof. repeat split; vm_compute; reflexivity. Qed.

Lemma context_notification_witness :
  (exists p : NotificationPayload,
     notifications (trace (snd (runAction (ig_like sampleUrl) (threeRetries (Some "[1]"))
                                  (world0 twoFailures)))) = [p]
     /\ success p = true
     /\ details p = JObject [("0", JNumber 1); ("postUrl", JString sampleUrl)]
     /\ error p = None)
  /\ (exists p : NotificationPayload,
        notifications (trace (snd (runAction (ig_like sampleUrl)
                                     (threeRetries (Some "[1]"))
                                     (world0 threeFailures)))) = [p]
        /\ success p = false
        /\ details p = JArray [JNumber 1]
        /\ error p = Some "Element not found").
Proof.
  assert (Hctx : forall s : Sim,
             fst (parseContext (opt_context (threeRetries (Some "[1]"))) (world0 s))
             = Returned (JArray [JNumber 1])) by reflexivity.
  split.
  - destruct (proj2 (context_notification (ig_like sampleUrl) (threeRetries (Some "[1]"))
                       (world0 twoFailures) eq_refl (JArray [JNumber 1])
                       (Hctx twoFailures)) eq_refl)
      as (_ & _ & _ & Hex).
    destruct (Hex (fun _ => eq_refl) scripted_wellBehaved) as (p & Hp & _ & _ & _ & _ & Hif).
    assert (Hs : success p = true).
    { pose proof Hp as Hp'. vm_compute in Hp'. injection Hp' as <-. reflexivity. }
    rewrite Hs in Hif. destruct Hif as (_ & Hd & He & _).
    exists p. split; [exact Hp|]. split; [exact Hs|]. split; [exact Hd | exact He].
  - destruct (proj2 (context_notification (ig_like sampleUrl) (threeRetries (Some "[1]"))
                       (world0 threeFailures) eq_refl (JArray [JNumber 1])
                       (Hctx threeFailures)) eq_refl)
      as (_ & _ & _ & Hex).
    destruct (Hex (fun _ => eq_refl) scripted_wellBehaved) as (p & Hp & _ & _ & _ & _ & Hif).
    assert (Hs : success p = false).
    { pose proof Hp as Hp'. vm_compute in Hp'. injection Hp' as <-. reflexivity. }
    rewrite Hs in Hif. destruct Hif as (_ & Hd & (t & He & _ & [Hinit | (_ & Hlast)]) & _);
      [discriminate Hinit|].
    exists p. split; [exact Hp|]. split; [exact Hs|]. split; [exact Hd|].
    rewrite He. vm_compute in Hlast. injection Hlast as <-. reflexivity.
Defined.

(** [null] is valid JSON, yet the flag stays unset and the command sends no
    notification although the notifier is enabled and the like succeeded. *)
Lemma null_context_no_flag :
  JSON_parse "null" = Some JNull
  /\ isEnabled noFailures = true
  /\ fst (runAction (ig_like sampleUrl) (threeRetries (Some "null")) (world0 noFailures))
     = Returned tt
  /\ env (snd (runAction (ig_like sampleUrl) (threeRetries (Some "null"))
                 (world0 noFailures))) !! "CLAWSOCIAL_SILENT" = None
  /\ notifications (trace (snd (runAction (ig_like sampleUrl)
                                  (threeRetries (Some "null")) (world0 noFailures)))) = [].
Proof. repeat split; vm_compute; reflexivity. Qed.

(** No value of the options changes the delay: whatever the caller passes,
    every wait of the loop is 5000 ms. *)
Lemma retry_delay_not_configurable :
  sleeps (trace (snd (withRetry flaky retry3 (world0 twoFailures)))) = [5000; 5000]
  /\ (forall o : RetryOptions,
        Forall (fun ms => ms = 5000)
          (sleeps (trace (snd (withRetry flaky o (world0 twoFailures)))))).
Proof.
  split; [vm_compute; reflexivity|].
  intros o.
  destruct (withRetry_shape flaky o (world0 twoFailures))
    as [[_ ->] | (_ & errs & _ & -> & _)].
  - constructor.
  - cbn [world0 trace app]. rewrite sleeps_app, sleeps_retryBlocks. cbn.
    rewrite app_nil_r. apply Forall_forall. intros ms Hin.
    apply list_elem_of_In, repeat_spec in Hin. exact Hin.
Qed.

End Examples.

Section LimiterFacts.
Import Limiter.
Variable minimumGap : string -> Z.
Variable effectiveDailyCap : string -> string -> Z -> Z.
Variable windowOf : Z -> Z.
Variable windowEnd : Z -> Z.

Local Abbreviation step := (Limiter.step minimumGap effectiveDailyCap windowOf windowEnd).
Local Abbreviation steps := (Limiter.steps minimumGap effectiveDailyCap windowOf windowEnd).
Local Abbreviation check := (Limiter.checkAndRecordAction minimumGap effectiveDailyCap windowOf windowEnd).
Local Abbreviation calls := (Limiter.calls minimumGap effectiveDailyCap windowOf windowEnd).
Local Abbreviation operations := (Limiter.operations minimumGap effectiveDailyCap windowOf windowEnd).

(** An allowed step leaves a count within the limit it records. *)
Lemma step_allowed_within (p a : string) (now : Z) (q : ActionQuota) :
  allowed (fst (step p a now q)) = true ->
  count (snd (step p a now q)) <= dailyLimit (snd (step p a now q)).
Proof.
  unfold Limiter.step.
  destruct (windowEnd (windowStart q) <=? now)%Z; cbn [count windowStart lastActionAt];
    destruct (lastActionAt q) as [last|];
    repeat match goal with
           | |- context [if ?b then _ else _] => destruct b eqn:?
           end; cbn; try discriminate; lia.
Qed.

Lemma check_preserves (p a : string) (now : Z) (store : Store) :
  withinLimits store -> withinLimits (snd (check p a now store)).
Proof.
  intros Hin. unfold Limiter.checkAndRecordAction.
  set (loaded := default _ _).
  pose proof (step_allowed_within p a now loaded) as Hstep.
  destruct (step p a now loaded) as [d q]. cbn [fst snd] in *.
  destruct (allowed d); [|exact Hin].
  apply map_Forall_insert_2; auto.
Qed.

Lemma calls_preserve (cs : list (string * string * Z)) (store : Store) :
  withinLimits store -> withinLimits (snd (calls cs store)).
Proof.
  revert store. induction cs as [|[[p a] now] cs IH]; intros store Hin; [exact Hin|].
  cbn [Limiter.calls].
  pose proof (check_preserves p a now store Hin) as H1.
  destruct (check p a now store) as [d store1]. cbn [snd] in H1.
  specialize (IH store1 H1).
  destruct (calls cs store1) as [ds store2]. exact IH.
Qed.

(** A step inside the window of the quota. *)
Lemma step_in_window (p a : string) (now : Z) (q : ActionQuota) :
  now < windowEnd (windowStart q) ->
  let cap := effectiveDailyCap p a (windowStart q) in
  let r := step p a now q in
  windowStart (snd r) = windowStart q
  /\ count (snd r) = count q + (if allowed (fst r) then 1 else 0)
  /\ (allowed (fst r) = true -> count q < cap)
  /\ (cap <= count q ->
      allowed (fst r) = false
      /\ reason (fst r)
         = Some (match lastActionAt q with
                 | Some last =>
                     if (now - last <? minimumGap a)%Z
                     then "minimum gap not met"
                     else "daily cap reached"
                 | None => "daily cap reached"
                 end)).
Proof.
  intros Hin cap r. subst cap r. unfold Limiter.step.
  rewrite (proj2 (Z.leb_gt _ _) Hin). cbn [count windowStart lastActionAt].
  destruct (lastActionAt q) as [last|];
    repeat match goal with
           | |- context [if ?b then _ else _] => destruct b eqn:?
           end; cbn; repeat split; intros; try discriminate; try lia.
Qed.

Lemma steps_in_window (p a : string) (times : list Z) :
  forall q : ActionQuota,
    Forall (fun t => t < windowEnd (windowStart q)) times ->
    windowStart (snd (steps p a times q)) = windowStart q
    /\ count (snd (steps p a times q)) = count q + allowedCount (fst (steps p a times q)).
Proof.
  induction times as [|now times IH]; intros q Hall.
  - cbn. unfold allowedCount. cbn. lia.
  - inversion Hall as [|? ? Hnow Hrest]; subst.
    cbn [Limiter.steps].
    destruct (step_in_window p a now q Hnow) as (Hws & Hcount & _).
    destruct (step p a now q) as [d q1]. cbn [fst snd] in *.
    rewrite <- Hws in Hrest. destruct (IH q1 Hrest) as (Hws' & Hcount').
    destruct (steps p a times q1) as [ds q2]. cbn [fst snd] in *.
    split; [congruence|].
    rewrite Hcount', Hcount. unfold allowedCount. cbn [List.filter].
    destruct (allowed d); cbn [length]; lia.
Qed.

(** A [recordAction] that leaves the counts alone keeps them within the
    limits. *)
Lemma record_preserves (recordAction : string -> string -> Z -> Store -> Store)
    (p a : string) (now : Z) (store : Store) :
  keepsCounts recordAction ->
  withinLimits store -> withinLimits (recordAction p a now store).
Proof.
  intros Hkeeps Hin k q' Hq'.
  destruct (Hkeeps p a now store k) as (Hc & Hd).
  rewrite Hq' in Hc, Hd. cbn in Hc, Hd.
  destruct (store !! k) as [q|] eqn:Hq; [|discriminate Hc].
  cbn in Hc, Hd. injection Hc as Hc. injection Hd as Hd.
  specialize (Hin k q Hq). cbn in Hin. lia.
Qed.

Lemma operations_preserve (recordAction : string -> string -> Z -> Store -> Store)
    (ops : list Operation) :
  keepsCounts recordAction ->
  forall store : Store,
    withinLimits store -> withinLimits (operations recordAction ops store).
Proof.
  intros Hkeeps.
  induction ops as [|[p a now|p a now] ops IH]; intros store Hin; cbn [Limiter.operations].
  - exact Hin.
  - apply IH, check_preserves, Hin.
  - apply IH, record_preserves; assumption.
Qed.

(** The last action a step leaves on record: its own time when it allows
    the call, the one it found when it denies it. *)
Lemma step_last (p a : string) (now : Z) (q : ActionQuota) :
  lastActionAt (snd (step p a now q))
  = if allowed (fst (step p a now q)) then Some now else lastActionAt q.
Proof.
  unfold Limiter.step.
  destruct (windowEnd (windowStart q) <=? now)%Z; cbn [count windowStart lastActionAt];
    destruct (lastActionAt q) as [last|];
    repeat match goal with
           | |- context [if (?x <? ?y)%Z then _ else _] => destruct (x <? y)%Z
           | |- context [if (?x <=? ?y)%Z then _ else _] => destruct (x <=? y)%Z
           end; reflexivity.
Qed.

Lemma steps_last (p a : string) (times : list Z) :
  forall q : ActionQuota,
    lastActionAt (snd (steps p a times q))
    = lastAllowed times (fst (steps p a times q)) (lastActionAt q).
Proof.
  induction times as [|now times IH]; intros q; [reflexivity|].
  cbn [Limiter.steps].
  pose proof (step_last p a now q) as Hl.
  destruct (step p a now q) as [d q1]. cbn [fst snd] in Hl.
  specialize (IH q1).
  destruct (steps p a times q1) as [ds q2]. cbn [fst snd lastAllowed] in *.
  rewrite IH, Hl. reflexivity.
Qed.


End LimiterFacts.

Section LimiterExamples.
Import Samples.

Lemma touchingRecord_keepsCounts : Limiter.keepsCounts touchingRecord.
Proof.
  intros p a now store k. unfold touchingRecord.
  destruct (decide ((p, a) = k)) as [<-|Hne].
  - rewrite lookup_alter_eq. destruct (store !! (p, a)); split; reflexivity.
  - rewrite lookup_alter_ne by exact Hne. split; reflexivity.
Qed.



End LimiterExamples.

Section HandlerFacts.
Context {S : Type} `{Instagram.Handler S} `{Collaborators S}.

Lemma like_denied (url : string) (s s' : S) (status : RateLimitStatus) :
  Instagram.checkAndRecordAction Config.Like s = (Returned (false, status), s') ->
  Instagram.like url s
  = (Returned (Instagram.createErrorResult "like" url "Rate limit exceeded"
                 (Instagram.clock s) status), s').
Proof.
  intros E. unfold Instagram.like, bind, gets. rewrite E. reflexivity.
Qed.

(** The closure of [ig like] turns a denial into an ordinary error. *)
Lemma unitOfWork_denied (url : string) (s s' : S) (status : RateLimitStatus) :
  (forall u s, invoke (InstagramLike u) s = Instagram.like u s) ->
  Instagram.checkAndRecordAction Config.Like s = (Returned (false, status), s') ->
  unitOfWork (ig_like url) s
  = (Threw (ThrownError (newError "Rate limit exceeded")), s').
Proof.
  intros Hlink E. unfold unitOfWork. cbn [cmd_call ig_like].
  rewrite Hlink, (like_denied url s s' status E). reflexivity.
Qed.

(** C2, as amended: a denied like returns a failure result "Rate limit
    exceeded" carrying the limiter's status, and the collaborators' state
    is the one the limiter's check left, so that no platform operation has
    run; the closure of [ig like] throws it as an ordinary error, and while
    the limiter keeps denying, [withRetry] invokes the like [retries]
    times before that error reaches the command. *)
Theorem rate_limit_denial_is_retried (url : string) :
  (forall (s s' : S) (status : RateLimitStatus),
      Instagram.checkAndRecordAction Config.Like s = (Returned (false, status), s') ->
      Instagram.like url s
      = (Returned (Instagram.createErrorResult "like" url "Rate limit exceeded"
                     (Instagram.clock s) status), s'))
  /\ ((forall u s, invoke (InstagramLike u) s = Instagram.like u s) ->
      (forall (s s' : S) (status : RateLimitStatus),
          Instagram.checkAndRecordAction Config.Like s = (Returned (false, status), s') ->
          unitOfWork (ig_like url) s
          = (Threw (ThrownError (newError "Rate limit exceeded")), s'))
      /\ ((forall s, exists status s',
              Instagram.checkAndRecordAction Config.Like s
              = (Returned (false, status), s')) ->
          forall (o : RetryOptions) (w : World S),
            attempts (trace (snd (withRetry (unitOfWork (ig_like url)) o w)))
            = attempts (trace w) ++ map Z.of_nat (seq 1 (Z.to_nat (retries o)))
            /\ (1 <= retries o ->
                fst (withRetry (unitOfWork (ig_like url)) o w)
                = Threw (ThrownError (newError "Rate limit exceeded"))))).
Proof.
  split; [intros s s' status; apply like_denied|].
  intros Hlink.
  split; [intros s s' status; apply unitOfWork_denied; exact Hlink|].
  intros Hdeny o w.
  assert (Hfail : alwaysFails (unitOfWork (ig_like url))).
  { intros s. destruct (Hdeny s) as (status & s' & E).
    eexists _, s'. exact (unitOfWork_denied url s s' status Hlink E). }
  destruct (withRetry_exhausted (unitOfWork (ig_like url)) o w Hfail) as (Hatt & Herr).
  split; [exact Hatt|].
  intros Hpos.
  destruct (Hdeny (nthState (unitOfWork (ig_like url)) (Z.to_nat (retries o) - 1) (claw w)))
    as (status & s' & E).
  apply (Herr Hpos (ThrownError (newError "Rate limit exceeded"))).
  now rewrite (unitOfWork_denied url _ s' status Hlink E).
Qed.

End HandlerFacts.

Section HandlerExamples.
Import Samples.

Lemma rate_limit_denial_witness :
  Instagram.like sampleUrl cappedSession
  = (Returned (Instagram.createErrorResult "like" sampleUrl "Rate limit exceeded" 3600000
                 {| remaining := 0; total := 2; nextAvailableAt := Some 86400000 |}),
     cappedSession).
Proof.
  assert (Hdenied : Instagram.checkAndRecordAction Config.Like cappedSession
                    = (Returned (false, {| remaining := 0; total := 2;
                                           nextAvailableAt := Some 86400000 |}),
                       cappedSession)) by (vm_compute; reflexivity).
  exact (proj1 (rate_limit_denial_is_retried sampleUrl) cappedSession cappedSession
           {| remaining := 0; total := 2; nextAvailableAt := Some 86400000 |} Hdenied).
Defined.

(** The limiter denies the like (daily cap reached), and the command
    still invokes it three times, waiting five seconds twice, before it
    reports the failure.  A like denied for the minimum gap is invoked
    again five seconds later, when the gap has passed, and is then carried
    out on the platform. *)
Lemma denied_like_is_retried :
  let r := runAction (ig_like sampleUrl) (threeRetries None) (world0 cappedSession) in
  let r' := runAction (ig_like sampleUrl) (threeRetries None) (world0 gappedSession) in
  Limiter.reason (fst (sampleCheck "instagram" "like" 3600000 cappedStore))
  = Some "daily cap reached"
  /\ attempts (trace (snd r)) = [1; 2; 3]
  /\ sleeps (trace (snd r)) = [5000; 5000]
  /\ stdout (trace (snd r))
     = [ attemptFailedLine retry3 1; errorLine "Rate limit exceeded"; retryingLine;
         attemptFailedLine retry3 2; errorLine "Rate limit exceeded"; retryingLine;
         failedLine (ig_like sampleUrl) 3 "Rate limit exceeded" ]
  /\ ses_visited (claw (snd r)) = []
  /\ fst r = Exited 1
  /\ Limiter.reason (fst (sampleCheck "instagram" "like" 3600000 gappedStore))
     = Some "minimum gap not met"
  /\ attempts (trace (snd r')) = [1; 2]
  /\ ses_visited (claw (snd r')) = ["https://www.instagram.com/"; sampleUrl]
  /\ ses_liked (claw (snd r')) = true
  /\ fst r' = Returned tt.
Proof. repeat split; vm_compute; reflexivity. Qed.

End HandlerExamples.

(* ===================================================================== *)
(** * Properties of the rest of the code                                  *)
(* ===================================================================== *)

Section SettingsFacts.
Import Js Config Settings.

Lemma digit_cases (c : ascii) :
  isDigit c = true ->
  c = "0"%char \/ c = "1"%char \/ c = "2"%char \/ c = "3"%char \/ c = "4"%char
  \/ c = "5"%char \/ c = "6"%char \/ c = "7"%char \/ c = "8"%char \/ c = "9"%char.
Proof.
  destruct c as [[] [] [] [] [] [] [] []]; cbv; intros E; try discriminate E; tauto.
Qed.

Lemma trimStart_digit (c : ascii) (t : string) :
  isDigit c = true -> trimStart (String c t) = String c t.
Proof.
  intros Hd.
  destruct (digit_cases c Hd) as [->|[->|[->|[->|[->|[->|[->|[->|[->| ->]]]]]]]]];
    destruct t as [|c2 [|c3 t3]]; reflexivity.
Qed.

Lemma trimStart_dash (t : string) : trimStart (String "-" t) = String "-" t.
Proof. destruct t as [|c2 [|c3 t3]]; reflexivity. Qed.

Lemma pretty_char_digit (x : N) :
  (x < 10)%N ->
  isDigit (pretty_N_char x) = true /\ digitValue (pretty_N_char x) = Z.of_N x.
Proof.
  intros Hx.
  assert (x = 0 \/ x = 1 \/ x = 2 \/ x = 3 \/ x = 4 \/ x = 5 \/ x = 6 \/ x = 7
          \/ x = 8 \/ x = 9)%N as Hc by lia.
  destruct Hc as [->|[->|[->|[->|[->|[->|[->|[->|[->| ->]]]]]]]]]; split; reflexivity.
Qed.

(** Reading back the digits [pretty] writes in front of [s]. *)
Lemma digitsFrom_pretty_go (x : N) :
  forall s : string,
    (0 < x)%N ->
    digitsFrom None (pretty_N_go x s) = digitsFrom (Some (Z.of_N x)) s
    /\ startsWithDigit (pretty_N_go x s) = true.
Proof.
  induction (N.lt_wf_0 x) as [x _ IH]; intros s Hx.
  rewrite pretty_N_go_step by exact Hx.
  destruct (pretty_char_digit (x `mod` 10)%N) as (Hd & Hv); [apply N.mod_lt; lia|].
  destruct (N.eq_dec (x `div` 10)%N 0%N) as [E0|Hne].
  - rewrite E0, pretty_N_go_0. cbn [digitsFrom startsWithDigit]. rewrite Hd. split; [|reflexivity].
    cbn [default]. rewrite Hv. f_equal. f_equal.
    apply N.div_small_iff in E0; [|lia]. rewrite N.mod_small by exact E0. lia.
  - destruct (IH (x `div` 10)%N) with (s := String (pretty_N_char (x `mod` 10)) s)
      as (Hgo & Hstart); [apply N.div_lt; lia | now apply N.neq_0_lt_0 |].
    rewrite Hgo, Hstart. split; [|reflexivity].
    cbn [digitsFrom]. rewrite Hd. cbn [default]. rewrite Hv. f_equal. f_equal.
    pose proof (N.div_mod x 10 ltac:(lia)) as Hdm. apply (f_equal Z.of_N) in Hdm.
    rewrite N2Z.inj_add, N2Z.inj_mul in Hdm. exact (eq_sym Hdm).
Qed.

Lemma append_assoc (a b c : string) : (a +:+ b) +:+ c = a +:+ (b +:+ c).
Proof.
  induction a as [|x a IH]; [reflexivity|].
  change (String x ((a +:+ b) +:+ c) = String x (a +:+ b +:+ c)). now rewrite IH.
Qed.

Lemma pretty_go_append (x : N) :
  forall s : string, pretty_N_go x s = pretty_N_go x "" +:+ s.
Proof.
  induction (N.lt_wf_0 x) as [x _ IH]; intros s.
  destruct (N.eq_dec x 0%N) as [->|Hne]; [now rewrite !pretty_N_go_0|].
  assert (x `div` 10 < x)%N as Hlt by (apply N.div_lt; lia).
  rewrite !(pretty_N_go_step x) by lia.
  rewrite (IH _ Hlt (String _ s)), (IH _ Hlt (String _ "")).
  now rewrite append_assoc.
Qed.

Lemma digitsFrom_stop (a : Z) (rest : string) :
  startsWithDigit rest = false -> digitsFrom (Some a) rest = Some a.
Proof. destruct rest as [|c r]; cbn; [reflexivity|]. now intros ->. Qed.

Lemma parseInt_positive (p : positive) (rest : string) :
  startsWithDigit rest = false ->
  parseInt (pretty (Zpos p) +:+ rest) = Some (Zpos p).
Proof.
  intros Hrest.
  change (pretty (Zpos p)) with (pretty_N_go (Npos p) "").
  rewrite <- pretty_go_append.
  destruct (digitsFrom_pretty_go (Npos p) rest ltac:(lia)) as (Hgo & Hstart).
  unfold parseInt.
  destruct (pretty_N_go (N.pos p) rest) as [|c t] eqn:E; [discriminate Hstart|].
  cbn [startsWithDigit] in Hstart.
  rewrite (trimStart_digit c t Hstart).
  destruct (digit_cases c Hstart) as [->|[->|[->|[->|[->|[->|[->|[->|[->| ->]]]]]]]]];
    rewrite Hgo; now apply digitsFrom_stop.
Qed.

(** [parseInt] reads back the decimal text of an integer and ignores what
    follows it. *)
Lemma parseInt_pretty (n : Z) (rest : string) :
  startsWithDigit rest = false ->
  parseInt (pretty n +:+ rest) = Some n.
Proof.
  intros Hrest. destruct n as [|p|p].
  - change (pretty 0 +:+ rest) with (String "0" rest). unfold parseInt.
    rewrite trimStart_digit by reflexivity. cbn. now apply digitsFrom_stop.
  - now apply parseInt_positive.
  - change (pretty (Zneg p) +:+ rest) with (String "-" (pretty (Zpos p) +:+ rest)).
    unfold parseInt. rewrite trimStart_dash.
    pose proof (parseInt_positive p rest Hrest) as Hp. unfold parseInt in Hp.
    change (pretty (Zpos p)) with (pretty_N_go (Npos p) "") in *.
    rewrite <- pretty_go_append in *.
    destruct (digitsFrom_pretty_go (Npos p) rest ltac:(lia)) as (Hgo & Hstart).
    rewrite Hgo, digitsFrom_stop by exact Hrest. reflexivity.
Qed.

Lemma pretty_nonempty (n : Z) (rest : string) : String.eqb (pretty n +:+ rest) "" = false.
Proof.
  destruct n as [|p|p]; try reflexivity.
  change (pretty (Zpos p) +:+ rest) with (pretty_N_go (Npos p) "" +:+ rest).
  rewrite <- pretty_go_append.
  destruct (digitsFrom_pretty_go (Npos p) rest ltac:(lia)) as (_ & Hstart).
  destruct (pretty_N_go (N.pos p) rest); [discriminate Hstart | reflexivity].
Qed.

Lemma trimStart_blanks (pre s : string) :
  allBlank pre = true -> trimStart (pre +:+ s) = trimStart s.
Proof.
  induction pre as [|c pre IH]; intros Hb; [reflexivity|].
  change (String c pre +:+ s) with (String c (pre +:+ s)).
  cbn [allBlank] in Hb. apply andb_true_iff in Hb as (Hc & Hpre).
  rewrite <- (IH Hpre).
  unfold isBlank in Hc.
  destruct c as [[] [] [] [] [] [] [] []]; try discriminate Hc; reflexivity.
Qed.

Lemma parseInt_blanks (pre s : string) :
  allBlank pre = true -> parseInt (pre +:+ s) = parseInt s.
Proof. intros Hb. unfold parseInt. now rewrite trimStart_blanks. Qed.

Lemma append_nonempty (pre s : string) :
  String.eqb s "" = false -> String.eqb (pre +:+ s) "" = false.
Proof. intros E. destruct pre; [exact E | reflexivity]. Qed.

(** X1: a retry count or a numeric variable written in decimal is taken
    as written, whatever blanks precede the digits and whatever text
    follows them: [parseRetries] clamps the number to 1..10, and
    [getEnvNumber] returns it in place of the default, also when it is
    zero or negative. *)
Theorem decimal_options_are_read (n : Z) (pre rest : string) (env : Env) (key : string)
    (d : Z) :
  isSafeInteger n = true ->
  allBlank pre = true ->
  startsWithDigit rest = false ->
  Cli.parseRetries (Some (pre +:+ pretty n +:+ rest)) = Z.max 1 (Z.min n 10)
  /\ getEnvNumber (<[key := pre +:+ pretty n +:+ rest]> env) key d = n.
Proof.
  intros _ Hpre Hrest. split.
  - unfold Cli.parseRetries.
    rewrite append_nonempty by apply pretty_nonempty.
    now rewrite parseInt_blanks, parseInt_pretty.
  - unfold getEnvNumber. rewrite lookup_insert_eq.
    now rewrite parseInt_blanks, parseInt_pretty.
Qed.

Lemma decimal_options_are_read_witness :
  Cli.parseRetries (Some (" " +:+ "-2" +:+ "x")) = Z.max 1 (Z.min (-2) 10)
  /\ getEnvNumber (<["PORT" := " " +:+ "-2" +:+ "x"]> ∅) "PORT" 3847 = -2.
Proof.
  exact (decimal_options_are_read (-2) " " "x" ∅ "PORT" 3847 eq_refl eq_refl eq_refl).
Defined.

(** X2: a [RATE_LIMIT_*] variable written in decimal becomes the daily cap
    of exactly the actions that read it, and of no other: LinkedIn's
    [follow] and [connect] share one variable, and no variable reaches the
    [connect] cap of Instagram or Twitter. *)
Theorem rate_limit_override (env : Env) (k : string) (n : Z) (pre rest : string) :
  isSafeInteger n = true ->
  allBlank pre = true ->
  startsWithDigit rest = false ->
  forall (p : Platform) (a : ActionType),
    resolvedDailyCap (<[k := pre +:+ pretty n +:+ rest]> env) p a
    = if decide (rateLimitKey p a = Some k) then n else resolvedDailyCap env p a.
Proof.
  intros _ Hpre Hrest p a.
  destruct (decide (rateLimitKey p a = Some k)) as [E|Hne].
  - destruct p, a; cbn in E; try discriminate E; injection E as <-;
      cbn; unfold getEnvNumber;
      now rewrite lookup_insert_eq, parseInt_blanks, parseInt_pretty.
  - destruct p, a; cbn in Hne; cbn; try reflexivity;
      unfold getEnvNumber; rewrite lookup_insert_ne by congruence; reflexivity.
Qed.

Lemma rate_limit_override_witness :
  resolvedDailyCap (<["RATE_LIMIT_LINKEDIN_CONNECT" := "" +:+ "7" +:+ ""]> ∅)
    Linkedin Follow
  = if decide (rateLimitKey Linkedin Follow = Some "RATE_LIMIT_LINKEDIN_CONNECT") then 7
    else resolvedDailyCap ∅ Linkedin Follow.
Proof.
  exact (rate_limit_override ∅ "RATE_LIMIT_LINKEDIN_CONNECT" 7 "" "" eq_refl eq_refl eq_refl
           Linkedin Follow).
Defined.

Lemma lower_one (v : string) :
  String.eqb (toLowerCase v) "1" = String.eqb v "1".
Proof.
  destruct v as [|c [|c2 v]]; try reflexivity.
  - cbn [toLowerCase]. destruct c as [[] [] [] [] [] [] [] []]; reflexivity.
  - cbn [toLowerCase]. cbn.
    now destruct (Ascii.eqb (lower c) "1"), (Ascii.eqb c "1").
Qed.

Lemma lower_upper (v : string) : toLowerCase (toUpperCase v) = toLowerCase v.
Proof.
  induction v as [|c v IH]; [reflexivity|]. cbn [toUpperCase toLowerCase].
  rewrite IH. f_equal.
  destruct c as [[] [] [] [] [] [] [] []]; reflexivity.
Qed.

Lemma upper_one (v : string) : String.eqb (toUpperCase v) "1" = String.eqb v "1".
Proof.
  destruct v as [|c [|c2 v]]; try reflexivity.
  - destruct c as [[] [] [] [] [] [] [] []]; reflexivity.
  - cbn [toUpperCase]. cbn.
    now destruct (Ascii.eqb (upper c) "1"), (Ascii.eqb c "1").
Qed.

(** X3: a flag variable that is set decides alone: the default is used
    only when the variable is unset, the text [true] is accepted in any
    mix of cases beside [1], and every other value, the empty one
    included, reads as false; an empty numeric or text variable gives the
    default instead. *)
Theorem flag_ignores_default (env : Env) (key v : string) (d : bool) :
  env !! key = Some v ->
  getEnvBoolean env key d = (String.eqb (toLowerCase v) "true" || String.eqb v "1")
  /\ getEnvBoolean env key d = getEnvBoolean env key (negb d)
  /\ getEnvBoolean (<[key := toUpperCase v]> env) key d = getEnvBoolean env key d
  /\ (v = "" ->
      getEnvBoolean env key d = false
      /\ (forall n, getEnvNumber env key n = n)
      /\ (forall s, getEnvString env key s = s)).
Proof.
  intros E. unfold getEnvBoolean, getEnvNumber, getEnvString.
  rewrite lookup_insert_eq, E. cbn. rewrite !lower_one.
  split; [reflexivity|]. split; [reflexivity|]. split.
  - now rewrite lower_upper, upper_one.
  - intros ->. repeat split.
Qed.

Lemma flag_ignores_default_witness :
  getEnvBoolean (<["NOTIFY_ON_ERROR" := "True"]> ∅) "NOTIFY_ON_ERROR" false = true.
Proof.
  destruct (flag_ignores_default (<["NOTIFY_ON_ERROR" := "True"]> ∅) "NOTIFY_ON_ERROR"
              "True" false (lookup_insert_eq _ _ _)) as (E & _).
  rewrite E. reflexivity.
Defined.

Section NotificationFacts.
Variable JSON_parse : string -> option JsValue.

(** X4: building the notification settings fails exactly when a webhook
    URL is set together with headers that are not JSON; otherwise
    notifications are off unless [NOTIFY_ENABLED] says so, the Telegram
    channel exists only with both of its variables, and a webhook without
    a method posts. *)
Theorem notifications_load (env : Env) :
  (notifications JSON_parse env = None <->
     exists u h, truthyVar env "NOTIFY_WEBHOOK_URL" = Some u
                 /\ truthyVar env "NOTIFY_WEBHOOK_HEADERS" = Some h
                 /\ JSON_parse h = None)
  /\ (forall cfg, notifications JSON_parse env = Some cfg ->
        (env !! "NOTIFY_ENABLED" = None -> enabled cfg = false)
        /\ (is_Some (telegram (channels cfg)) <->
             is_Some (truthyVar env "NOTIFY_TELEGRAM_BOT_TOKEN")
             /\ is_Some (truthyVar env "NOTIFY_TELEGRAM_CHAT_ID"))
        /\ (forall w, webhook (channels cfg) = Some w ->
              truthyVar env "NOTIFY_WEBHOOK_URL" = Some (url w)
              /\ (truthyVar env "NOTIFY_WEBHOOK_METHOD" = None -> method w = "POST"))).
Proof.
  unfold notifications, webhookChannel. split.
  - split.
    + destruct (truthyVar env "NOTIFY_WEBHOOK_URL") as [u|]; [|discriminate].
      destruct (truthyVar env "NOTIFY_WEBHOOK_HEADERS") as [h|]; [|discriminate].
      destruct (JSON_parse h) eqn:E; [discriminate|]. eauto.
    + intros (u & h & -> & -> & ->). reflexivity.
  - intros cfg Hcfg.
    destruct (truthyVar env "NOTIFY_WEBHOOK_URL") as [u|] eqn:Eu;
      [destruct (truthyVar env "NOTIFY_WEBHOOK_HEADERS") as [h|];
       [destruct (JSON_parse h); [|discriminate]|]|];
      injection Hcfg as <-; cbn.
    all: split; [intros E; unfold getEnvBoolean; now rewrite E|].
    all: split;
      [destruct (truthyVar env "NOTIFY_TELEGRAM_BOT_TOKEN"),
                (truthyVar env "NOTIFY_TELEGRAM_CHAT_ID"); split;
       try (intros [? ?]; discriminate); try (intros [[? ?] [? ?]]; discriminate); eauto|].
    all: intros w Hw; try discriminate Hw; injection Hw as <-; cbn.
    all: split; [reflexivity|].
    all: unfold truthyVar; intros Hm;
      destruct (env !! "NOTIFY_WEBHOOK_METHOD") as [m|]; cbn; [|reflexivity];
      destruct (String.eqb m ""); [reflexivity | discriminate Hm].
Qed.

End NotificationFacts.

End SettingsFacts.

Section SpreadFacts.
Import Js.

Lemma getProp_app (k : string) (a b : list (string * JsValue)) :
  getProp k (a ++ b) = match getProp k a with Some v => Some v | None => getProp k b end.
Proof.
  induction a as [|[k0 v0] a IH]; cbn; [reflexivity|].
  destruct (String.eqb k k0); [reflexivity | exact IH].
Qed.

Lemma getProp_replaceProp (k k' : string) (v : JsValue) (l : list (string * JsValue)) :
  getProp k (replaceProp k' v l)
  = if String.eqb k k' then (match getProp k' l with Some _ => Some v | None => None end)
    else getProp k l.
Proof.
  induction l as [|[k0 v0] l IH]; cbn.
  - destruct (String.eqb k k'); reflexivity.
  - destruct (String.eqb_spec k' k0) as [->|Hne]; cbn.
    + destruct (String.eqb k k0); reflexivity.
    + rewrite IH. destruct (String.eqb_spec k k0) as [->|Hne2].
      * destruct (String.eqb_spec k0 k') as [->|]; [contradiction|reflexivity].
      * reflexivity.
Qed.

Lemma getProp_insertIndex (n : Z) (k k' : string) (v : JsValue) (l : list (string * JsValue)) :
  getProp k' l = None ->
  getProp k (insertIndex n k' v l) = if String.eqb k k' then Some v else getProp k l.
Proof.
  induction l as [|[k0 v0] l IH]; cbn; intros Hnone.
  - destruct (String.eqb k k'); reflexivity.
  - destruct (String.eqb_spec k' k0) as [->|Hne]; [discriminate Hnone|].
    destruct (arrayIndex k0) as [m|]; [destruct (m <? n)%Z|]; cbn;
      try (destruct (String.eqb k k'); reflexivity).
    rewrite (IH Hnone).
    destruct (String.eqb_spec k k0) as [->|Hne2]; [|reflexivity].
    destruct (String.eqb_spec k0 k') as [->|]; [contradiction|reflexivity].
Qed.

Lemma getProp_setProp (k k' : string) (v : JsValue) (l : list (string * JsValue)) :
  getProp k (setProp k' v l) = if String.eqb k k' then Some v else getProp k l.
Proof.
  unfold setProp. destruct (getProp k' l) as [v0|] eqn:E.
  - rewrite getProp_replaceProp, E. reflexivity.
  - destruct (arrayIndex k') as [n|].
    + apply getProp_insertIndex, E.
    + rewrite getProp_app. cbn.
      destruct (String.eqb_spec k k') as [->|Hne].
      * rewrite E. reflexivity.
      * destruct (getProp k l); reflexivity.
Qed.

Lemma keys_replaceProp (k : string) (v : JsValue) (l : list (string * JsValue)) :
  map fst (replaceProp k v l) = map fst l.
Proof.
  induction l as [|[k0 v0] l IH]; cbn; [reflexivity|].
  destruct (String.eqb k k0); cbn; [reflexivity | now rewrite IH].
Qed.

(** Where a new array index goes: inside the leading run of array
    indices. *)
Lemma keys_insertIndex (n : Z) (k : string) (v : JsValue) (l : list (string * JsValue))
    (front rest : list string) :
  map fst l = front ++ rest ->
  Forall (fun k' => arrayIndex k' <> None) front ->
  Forall (fun k' => arrayIndex k' = None) rest ->
  exists f1 f2, front = f1 ++ f2
                /\ map fst (insertIndex n k v l) = f1 ++ k :: f2 ++ rest.
Proof.
  revert front. induction l as [|[k0 v0] l IH]; intros front Hk Hf Hr; cbn in *.
  - destruct front; [|discriminate Hk]. cbn in Hk. subst rest.
    exists [], []. split; reflexivity.
  - destruct front as [|f front]; cbn in Hk.
    + subst rest. inversion Hr as [|? ? H0 ?]; subst. rewrite H0.
      exists [], []. split; reflexivity.
    + injection Hk as <- Hk. inversion Hf as [|? ? Hk0 Hf']; subst.
      destruct (arrayIndex k0) as [m|] eqn:Em; [|congruence].
      destruct (m <? n)%Z.
      * destruct (IH front Hk Hf' Hr) as (f1 & f2 & -> & Hkeys).
        exists (k0 :: f1), f2. split; [reflexivity|]. cbn. now rewrite Hkeys.
      * exists [], (k0 :: front). split; [reflexivity|]. cbn. now rewrite Hk.
Qed.

Lemma sublist_insertIndex (n : Z) (k : string) (v : JsValue) (l : list (string * JsValue)) :
  sublist (map fst l) (map fst (insertIndex n k v l)).
Proof.
  induction l as [|[k0 v0] l IH]; cbn.
  - apply sublist_nil_l.
  - destruct (arrayIndex k0) as [m|]; [destruct (m <? n)%Z|]; cbn.
    + apply sublist_skip, IH.
    + apply sublist_cons. reflexivity.
    + apply sublist_cons. reflexivity.
Qed.

Lemma sublist_setProp (k : string) (v : JsValue) (l : list (string * JsValue)) :
  sublist (map fst l) (map fst (setProp k v l)).
Proof.
  unfold setProp. destruct (getProp k l).
  - rewrite keys_replaceProp. reflexivity.
  - destruct (arrayIndex k).
    + apply sublist_insertIndex.
    + rewrite map_app. apply sublist_inserts_r. reflexivity.
Qed.

Lemma layered_setProp (defaults : list string) (k : string) (v : JsValue)
    (l : list (string * JsValue)) :
  Forall (fun k => arrayIndex k = None) defaults ->
  layered defaults (map fst l) -> layered defaults (map fst (setProp k v l)).
Proof.
  intros Hd (front & extra & Hkeys & Hf & He). unfold setProp.
  destruct (getProp k l).
  - rewrite keys_replaceProp. now exists front, extra.
  - destruct (arrayIndex k) as [n|] eqn:Ek.
    + destruct (keys_insertIndex n k v l front (defaults ++ extra) Hkeys Hf)
        as (f1 & f2 & -> & Hins).
      { apply Forall_app; split; assumption. }
      exists (f1 ++ k :: f2), extra. split; [|split; [|exact He]].
      * rewrite Hins, <- app_assoc. reflexivity.
      * apply Forall_app in Hf as [Hf1 Hf2].
        apply Forall_app; split; [exact Hf1|]. constructor; [congruence | exact Hf2].
    + exists front, (extra ++ [k]). split; [|split; [exact Hf|]].
      * rewrite map_app, Hkeys, <- !app_assoc. reflexivity.
      * apply Forall_app; split; [exact He|]. constructor; [exact Ek | constructor].
Qed.

Lemma spread_fold (k : string) (props base : list (string * JsValue)) :
  getProp k (fold_left (fun acc kv => setProp (fst kv) (snd kv) acc) props base)
  = match getProp k (rev props) with Some v => Some v | None => getProp k base end.
Proof.
  revert base. induction props as [|[k0 v0] props IH]; intros base; cbn.
  - reflexivity.
  - rewrite IH, getProp_app, getProp_setProp. cbn.
    destruct (getProp k (rev props)); [reflexivity|].
    destruct (String.eqb k k0); reflexivity.
Qed.

Lemma spread_sublist (props base : list (string * JsValue)) :
  sublist (map fst base)
    (map fst (fold_left (fun acc kv => setProp (fst kv) (snd kv) acc) props base)).
Proof.
  revert base. induction props as [|[k0 v0] props IH]; intros base; cbn.
  - reflexivity.
  - etransitivity; [apply (sublist_setProp k0 v0) | apply IH].
Qed.

Lemma spread_layered (defaults : list string) (props base : list (string * JsValue)) :
  Forall (fun k => arrayIndex k = None) defaults ->
  layered defaults (map fst base) ->
  layered defaults
    (map fst (fold_left (fun acc kv => setProp (fst kv) (snd kv) acc) props base)).
Proof.
  intros Hd. revert base. induction props as [|[k0 v0] props IH]; intros base Hl; cbn.
  - exact Hl.
  - apply IH, layered_setProp; assumption.
Qed.

Lemma spread_front (props base : list (string * JsValue)) :
  Forall (fun kv => arrayIndex (fst kv) = None) props ->
  exists extra,
    map fst (fold_left (fun acc kv => setProp (fst kv) (snd kv) acc) props base)
    = map fst base ++ extra.
Proof.
  revert base. induction props as [|[k0 v0] props IH]; intros base Hp; cbn.
  - exists []. now rewrite app_nil_r.
  - inversion Hp as [|? ? Hk0 Hp']; subst. cbn in Hk0.
    destruct (IH (setProp k0 v0 base) Hp') as (extra & Hkeys).
    rewrite Hkeys. unfold setProp. destruct (getProp k0 base).
    + rewrite keys_replaceProp. now exists extra.
    + rewrite Hk0, map_app, <- app_assoc. now exists ([k0] ++ extra).
Qed.

(** X5: the details of a success notification,
    [{ ...defaults, ...context }]: a field of the context replaces the
    default of the same name (the last one, if the context repeats a
    name) and every other default keeps its value; the defaults keep
    their order among the keys; they stay at the front when no key of the
    context is an array index, and, when no default is an array index,
    the keys are the array indices of the context, then the defaults,
    then the other new keys, so that the context [{"1": v}] or the array
    [[v]] puts its key before [postUrl]; a context that is truthy without
    being an object, an array or a text ([true], a number) leaves the
    defaults alone. *)
Theorem context_overrides_defaults (c : Cli.ActionCommand) (props : list (string * JsValue))
    (k : string) :
  getProp k (spread (Cli.cmd_defaults c) (JObject props))
  = match getProp k (rev props) with
    | Some v => Some v
    | None => getProp k (Cli.cmd_defaults c)
    end
  /\ sublist (map fst (Cli.cmd_defaults c))
             (map fst (spread (Cli.cmd_defaults c) (JObject props)))
  /\ (Forall (fun kv => arrayIndex (fst kv) = None) props ->
      exists extra,
        map fst (spread (Cli.cmd_defaults c) (JObject props))
        = map fst (Cli.cmd_defaults c) ++ extra)
  /\ (Forall (fun k' => arrayIndex k' = None) (map fst (Cli.cmd_defaults c)) ->
      exists front extra,
        map fst (spread (Cli.cmd_defaults c) (JObject props))
        = front ++ map fst (Cli.cmd_defaults c) ++ extra
        /\ Forall (fun k' => arrayIndex k' <> None) front
        /\ Forall (fun k' => arrayIndex k' = None) extra)
  /\ (forall (url : string) (v : JsValue),
        spread (Cli.cmd_defaults (Cli.ig_like url)) (JObject [("1", v)])
        = [("1", v); ("postUrl", JString url)]
        /\ spread (Cli.cmd_defaults (Cli.ig_like url)) (JArray [v])
           = [("0", v); ("postUrl", JString url)])
  /\ (forall (b : bool) (q : Q),
        spread (Cli.cmd_defaults c) (JBool b) = Cli.cmd_defaults c
        /\ spread (Cli.cmd_defaults c) (JNumber q) = Cli.cmd_defaults c).
Proof.
  unfold spread. cbn [ownProps].
  split; [apply spread_fold|]. split; [apply spread_sublist|].
  split; [apply spread_front|]. split.
  - intros Hd. apply spread_layered; [exact Hd|].
    exists [], []. split; [now rewrite app_nil_r | split; constructor].
  - split; [intros url v; split; reflexivity | intros b q; split; reflexivity].
Qed.

End SpreadFacts.

Section UsernameFacts.
Import Js Cli Plain.

Lemma isWord_not_special (c : ascii) :
  isWord c = true ->
  Ascii.eqb c "@" = false /\ Ascii.eqb "." c = false /\ Ascii.eqb "/" c = false.
Proof.
  destruct c as [[] [] [] [] [] [] [] []]; cbv; intros E; try discriminate E; auto.
Qed.

Lemma takeWord_all (h : string) :
  String.eqb (takeWord h) h = true ->
  forall rest, startsWithWord rest = false -> takeWord (h +:+ rest) = h.
Proof.
  induction h as [|c h IH]; intros E rest Hrest.
  - change ("" +:+ rest) with rest. destruct rest as [|c r]; [reflexivity|].
    cbn in *. now rewrite Hrest.
  - change (String c h +:+ rest) with (String c (h +:+ rest)).
    cbn [takeWord] in *. destruct (isWord c); [|discriminate E].
    cbn in E. rewrite Ascii.eqb_refl in E. now rewrite IH.
Qed.

Lemma takeWord_tail (c : ascii) (h : string) :
  String.eqb (takeWord (String c h)) (String c h) = true ->
  isWord c = true /\ String.eqb (takeWord h) h = true.
Proof.
  cbn [takeWord]. destruct (isWord c); [|discriminate].
  cbn. rewrite Ascii.eqb_refl. auto.
Qed.

(** A pattern with a character outside [\w] does not open a handle. *)
Lemma startsWith_word (p : string) :
  String.eqb (takeWord p) p = false ->
  forall h, String.eqb (takeWord h) h = true -> startsWith p h = None.
Proof.
  induction p as [|a p IH]; intros Hp h Hh; [discriminate Hp|].
  destruct h as [|b h]; [reflexivity|]. cbn [startsWith].
  destruct (Ascii.eqb_spec a b) as [->|Hne]; [|reflexivity].
  destruct (takeWord_tail b h Hh) as (Hb & Hh').
  apply IH; [|exact Hh'].
  cbn [takeWord] in Hp. rewrite Hb in Hp. cbn in Hp. now rewrite Ascii.eqb_refl in Hp.
Qed.

Lemma includes_word (p : string) :
  String.eqb (takeWord p) p = false ->
  forall h, String.eqb (takeWord h) h = true -> includes h p = false.
Proof.
  intros Hp. induction h as [|b h IH]; intros Hh.
  - cbn. rewrite (startsWith_word p Hp "" eq_refl). reflexivity.
  - cbn [includes]. rewrite (startsWith_word p Hp _ Hh).
    apply IH. exact (proj2 (takeWord_tail b h Hh)).
Qed.

Lemma includes_skip (sub : string) (c : ascii) (s : string) :
  includes s sub = true -> includes (String c s) sub = true.
Proof. intros E. cbn [includes]. rewrite E. now destruct (startsWith sub (String c s)). Qed.

Lemma startsWith_append (p t : string) : startsWith p (p +:+ t) = Some t.
Proof.
  induction p as [|a p IH]; [reflexivity|].
  change (String a p +:+ t) with (String a (p +:+ t)). cbn [startsWith].
  now rewrite Ascii.eqb_refl.
Qed.

Lemma includes_here (sub s : string) : includes (sub +:+ s) sub = true.
Proof.
  destruct (sub +:+ s) as [|c r] eqn:E; cbn [includes];
    rewrite <- E, startsWith_append; reflexivity.
Qed.

Lemma matchProfile_unfold (c : ascii) (s : string) :
  matchProfile (String c s)
  = match
      match startsWith "x.com/" (String c s) with
      | Some rest => handleGroup rest
      | None => match startsWith "twitter.com/" (String c s) with
                | Some rest => handleGroup rest
                | None => None
                end
      end
    with
    | Some g => Some g
    | None => matchProfile s
    end.
Proof. reflexivity. Qed.

Lemma matchProfile_skip (c : ascii) (s : string) :
  startsWith "x.com/" (String c s) = None ->
  startsWith "twitter.com/" (String c s) = None ->
  matchProfile (String c s) = matchProfile s.
Proof. intros E1 E2. rewrite matchProfile_unfold. now rewrite E1, E2. Qed.

Lemma matchProfile_here (host s g : string) :
  host = "x.com/" \/ host = "twitter.com/" ->
  handleGroup s = Some g ->
  matchProfile (host +:+ s) = Some g.
Proof.
  intros [-> | ->] E.
  - change ("x.com/" +:+ s) with (String "x" (".com/" +:+ s)).
    rewrite matchProfile_unfold.
    change (String "x" (".com/" +:+ s)) with ("x.com/" +:+ s).
    now rewrite startsWith_append, E.
  - change ("twitter.com/" +:+ s) with (String "t" ("witter.com/" +:+ s)).
    rewrite matchProfile_unfold.
    change (startsWith "x.com/" (String "t" ("witter.com/" +:+ s))) with (@None string).
    change (String "t" ("witter.com/" +:+ s)) with ("twitter.com/" +:+ s).
    now rewrite startsWith_append, E.
Qed.

Lemma handle_first (h : string) :
  isHandle h = true ->
  exists c h', h = String c h' /\ isWord c = true
               /\ String.eqb (takeWord h) h = true.
Proof.
  unfold isHandle. destruct h as [|c h']; [discriminate|]. cbn [negb String.eqb andb].
  intros E. destruct (takeWord_tail c h' E) as (Hc & _). eauto.
Qed.

Lemma handleGroup_handle (h rest : string) (at_ : string) :
  isHandle h = true -> startsWithWord rest = false ->
  at_ = "" \/ at_ = "@" ->
  handleGroup (at_ +:+ h +:+ rest) = Some (at_ +:+ h)
  /\ stripLeadingAt (removeFirstAt (at_ +:+ h)) = h.
Proof.
  intros Hh Hrest Hat.
  destruct (handle_first h Hh) as (c & h' & -> & Hc & Hw).
  destruct (isWord_not_special c Hc) as (Hat1 & _).
  pose proof (takeWord_all _ Hw rest Hrest) as Htake.
  assert (removeFirstAt (String c h') = String c h') as Hrm.
  { clear Htake Hh. revert c Hc Hat1 Hw. induction h' as [|b h' IH]; intros c Hc Hat1 Hw.
    - cbn. now rewrite Hat1.
    - cbn [removeFirstAt]. rewrite Hat1. f_equal.
      destruct (takeWord_tail c _ Hw) as (_ & Hw').
      destruct (takeWord_tail b _ Hw') as (Hb & _).
      apply IH; auto. exact (proj1 (isWord_not_special b Hb)). }
  assert (c <> "@"%char) as Hne by (intros ->; discriminate Hat1).
  destruct Hat as [-> | ->].
  - change ("" +:+ String c h' +:+ rest) with (String c h' +:+ rest).
    change ("" +:+ String c h') with (String c h'). rewrite Hrm. split.
    + unfold handleGroup.
      change (String c h' +:+ rest) with (String c (h' +:+ rest)) in *.
      rewrite Htake.
      destruct c as [[] [] [] [] [] [] [] []]; try reflexivity; contradiction.
    + destruct c as [[] [] [] [] [] [] [] []]; try reflexivity; contradiction.
  - change ("@" +:+ String c h' +:+ rest) with (String "@" (String c h' +:+ rest)).
    change ("@" +:+ String c h') with (String "@" (String c h')). split.
    + unfold handleGroup. rewrite Htake. reflexivity.
    + cbn [removeFirstAt]. cbn.
      destruct c as [[] [] [] [] [] [] [] []]; try reflexivity; contradiction.
Qed.

(** X6: [x follow] takes the same handle from a bare handle, from a handle
    with a leading [@], and from a profile URL on [x.com] or
    [twitter.com], with or without scheme, [www.] and [@], whatever
    follows the handle in the URL. *)
Theorem twitterUsername_forms (h rest : string) :
  isHandle h = true ->
  startsWithWord rest = false ->
  twitterUsername h = h
  /\ twitterUsername ("@" +:+ h) = h
  /\ (forall pre host at_ : string,
        In pre [""; "https://"; "http://"; "https://www."] ->
        In host ["x.com/"; "twitter.com/"] ->
        In at_ [""; "@"] ->
        twitterUsername (pre +:+ host +:+ at_ +:+ h +:+ rest) = h).
Proof.
  intros Hh Hrest.
  destruct (handle_first h Hh) as (c & h' & Eh & Hc & Hw).
  destruct (isWord_not_special c Hc) as (Hat1 & _).
  assert (c <> "@"%char) as Hne by (intros ->; discriminate Hat1).
  pose proof (includes_word "x.com/" eq_refl h Hw) as Hx.
  pose proof (includes_word "twitter.com/" eq_refl h Hw) as Ht.
  split; [|split].
  - unfold twitterUsername. rewrite Hx, Ht. cbn [orb]. subst h.
    destruct c as [[] [] [] [] [] [] [] []]; try reflexivity; contradiction.
  - unfold twitterUsername.
    change ("@" +:+ h) with (String "@" h). cbn [includes].
    rewrite Hx, Ht. reflexivity.
  - intros pre host at_ Hpre Hhost Hat.
    assert (at_ = "" \/ at_ = "@") as Hat' by (cbn in Hat; intuition).
    assert (host = "x.com/" \/ host = "twitter.com/") as Hhost' by (cbn in Hhost; intuition).
    destruct (handleGroup_handle h rest at_ Hh Hrest Hat') as (Hg & Hstrip).
    pose proof (matchProfile_here host _ _ Hhost' Hg) as Hm.
    assert (includes (host +:+ at_ +:+ h +:+ rest) "x.com/"
            || includes (host +:+ at_ +:+ h +:+ rest) "twitter.com/" = true) as Hi.
    { destruct Hhost' as [-> | ->]; rewrite includes_here; [reflexivity|apply orb_true_r]. }
    unfold twitterUsername.
    assert (matchProfile (pre +:+ host +:+ at_ +:+ h +:+ rest) = Some (at_ +:+ h)
            /\ includes (pre +:+ host +:+ at_ +:+ h +:+ rest) "x.com/"
               || includes (pre +:+ host +:+ at_ +:+ h +:+ rest) "twitter.com/" = true)
      as (-> & ->).
    { set (tail := host +:+ at_ +:+ h +:+ rest) in *.
      apply orb_true_iff in Hi.
      cbn in Hpre. destruct Hpre as [<-|[<-|[<-|[<-|[]]]]].
      - change ("" +:+ tail) with tail. split; [exact Hm | now apply orb_true_iff].
      - change ("https://" +:+ tail)
          with (String "h" (String "t" (String "t" (String "p" (String "s"
                 (String ":" (String "/" (String "/" tail)))))))).
        split.
        + rewrite !matchProfile_skip by reflexivity. exact Hm.
        + apply orb_true_iff. destruct Hi as [Hi|Hi]; [left|right];
            repeat apply includes_skip; exact Hi.
      - change ("http://" +:+ tail)
          with (String "h" (String "t" (String "t" (String "p"
                 (String ":" (String "/" (String "/" tail))))))).
        split.
        + rewrite !matchProfile_skip by reflexivity. exact Hm.
        + apply orb_true_iff. destruct Hi as [Hi|Hi]; [left|right];
            repeat apply includes_skip; exact Hi.
      - change ("https://www." +:+ tail)
          with (String "h" (String "t" (String "t" (String "p" (String "s"
                 (String ":" (String "/" (String "/" (String "w" (String "w"
                 (String "w" (String "." tail)))))))))))).
        split.
        + rewrite !matchProfile_skip by reflexivity. exact Hm.
        + apply orb_true_iff. destruct Hi as [Hi|Hi]; [left|right];
            repeat apply includes_skip; exact Hi. }
    exact Hstrip.
Qed.

Lemma twitterUsername_forms_witness :
  twitterUsername "https://x.com/@rocq_prover/status/1" = "rocq_prover".
Proof.
  exact (proj2 (proj2 (twitterUsername_forms "rocq_prover" "/status/1" eq_refl eq_refl))
           "https://" "x.com/" "@"
           (or_intror (or_introl eq_refl)) (or_introl eq_refl)
           (or_intror (or_introl eq_refl))).
Defined.

End UsernameFacts.

Section RetryEdges.
Import Js Cli Plain.
Context {S : Type} `{Collaborators S}.

(** X7: [withRetry] asked for no attempt (a count of zero or less) never
    invokes the unit of work and throws [undefined], the initial value of
    its [lastError]; a unit of work that succeeds at once is invoked once
    and its result returned, with nothing printed and no wait. *)
Theorem withRetry_edges {T} (action : S -> Outcome T * S) (o : RetryOptions) (w : World S) :
  (retries o <= 0 ->
   withRetry action o w = (Threw (ThrownOther "undefined"), w))
  /\ (1 <= retries o ->
      forall (r : T) (s1 : S),
        action (claw w) = (Returned r, s1) ->
        withRetry action o w
        = (Returned r, {| claw := s1; env := env w; trace := trace w ++ [Attempt 1] |})).
Proof.
  split.
  - intros Hle. unfold withRetry. replace (Z.to_nat (retries o)) with 0%nat by lia.
    reflexivity.
  - intros Hge r s1 E. unfold withRetry.
    destruct (Z.to_nat (retries o)) as [|k] eqn:Ek; [lia|].
    rewrite withRetry_from_step, E. reflexivity.
Qed.

Lemma parseRetries_le (r : option string) : parseRetries r <= 10.
Proof.
  destruct r as [str|]; simpl; [|unfold DEFAULT_RETRIES; lia].
  destruct (String.eqb str ""); [unfold DEFAULT_RETRIES; lia|].
  destruct (parseInt str); [lia | unfold DEFAULT_RETRIES; lia].
Qed.

Lemma shutdowns_app (a b : list Event) : shutdowns (a ++ b) = shutdowns a ++ shutdowns b.
Proof. apply List.filter_app. Qed.

Lemma shutdowns_retryBlocks (o : RetryOptions) (errs : list Thrown) (a : Z) :
  shutdowns (retryBlocks o a errs) = [].
Proof. revert a. induction errs as [|t errs IH]; intros a; cbn; auto. Qed.

Lemma stdout_last (tr : list Event) (line : string) :
  last (stdout (tr ++ [Stdout line])) = Some line.
Proof. rewrite stdout_app. cbn. apply last_snoc. Qed.

Lemma sleeps_cons (e : Event) (l : list Event) :
  sleeps (e :: l) = match e with Sleep ms => ms :: sleeps l | _ => sleeps l end.
Proof. destruct e; reflexivity. Qed.

Lemma shutdowns_cons (e : Event) (l : list Event) :
  shutdowns (e :: l) = match e with Shutdown => Shutdown :: shutdowns l | _ => shutdowns l end.
Proof. destruct e; reflexivity. Qed.

Lemma stdout_cons (e : Event) (l : list Event) :
  stdout (e :: l) = match e with Stdout s => s :: stdout l | _ => stdout l end.
Proof. destruct e; reflexivity. Qed.

Lemma total_repeat (ms : Z) (k : nat) :
  fold_right Z.add 0 (repeat ms k) = ms * Z.of_nat k.
Proof. induction k as [|k IH]; cbn [repeat fold_right]; lia. Qed.

Lemma total_app (a b : list Z) :
  fold_right Z.add 0 (a ++ b) = fold_right Z.add 0 a + fold_right Z.add 0 b.
Proof. induction a as [|x a IH]; cbn [app fold_right]; lia. Qed.

(** X8: whatever the options and the collaborators, an action command
    makes at most [parseRetries] attempts, hence at most ten, and three
    when no count is given; it waits 5000 ms once per attempt but the
    last, so at most 45 seconds in all. *)
Theorem run_is_bounded (c : ActionCommand) (options : ActionOptions) (w : World S) :
  trace w = [] ->
  let r := runAction c options w in
  let n := parseRetries (opt_retries options) in
  (length (attempts (trace (snd r))) <= Z.to_nat n)%nat
  /\ n <= 10
  /\ (opt_retries options = None -> n = 3)
  /\ fold_right Z.add 0 (sleeps (trace (snd r)))
     = 5000 * Z.of_nat (length (attempts (trace (snd r))) - 1)
  /\ fold_right Z.add 0 (sleeps (trace (snd r))) <= 45000.
Proof.
  intros Hw r n. subst r.
  set (o := {| retries := parseRetries (opt_retries options);
               actionName := cmd_name c; target_ := cmd_retryTarget c |}).
  pose proof (fun w => withRetry_result (unitOfWork c) o w (parseRetries_pos _)) as HR.
  pose proof (parseRetries_le (opt_retries options)) as Hle.
  assert (Hsum :
    forall tr,
      (length (attempts tr) <= Z.to_nat n)%nat ->
      fold_right Z.add 0 (sleeps tr) = 5000 * Z.of_nat (length (attempts tr) - 1) ->
      (length (attempts tr) <= Z.to_nat n)%nat
      /\ n <= 10
      /\ (opt_retries options = None -> n = 3)
      /\ fold_right Z.add 0 (sleeps tr) = 5000 * Z.of_nat (length (attempts tr) - 1)
      /\ fold_right Z.add 0 (sleeps tr) <= 45000).
  { intros tr H1 H2. repeat split; auto.
    - intros E. subst n. now rewrite E.
    - rewrite H2. subst n. lia. }
  destruct w as [s0 e0 tr0]. cbn [trace] in Hw. subst tr0.
  unfold_run. fold o.
  exec HR.
  all: cbv beta iota; cbn [trace claw env fst snd].
  all: cbn [app]; rewrite <- ?app_assoc; cbn [app].
  all: apply Hsum.
  all: repeat (rewrite attempts_cons || rewrite attempts_app || rewrite attempts_retryBlocks
               || rewrite sleeps_cons || rewrite sleeps_app || rewrite sleeps_retryBlocks).
  all: cbn [attempts sleeps omap list_omap app].
  all: rewrite ?total_app, ?total_repeat, ?length_app, ?length_map, ?length_seq.
  all: cbn [fold_right length]; unfold RETRY_DELAY_MS; subst n; unfold o in *;
    cbn [retries] in *; lia.
Qed.

(** X9: with collaborators that return, an action command closes the
    session exactly once, as the last thing it does, on success and on
    failure alike; it returns normally right after printing its success
    line, or exits with status 1 right after printing its failure line. *)
Theorem run_cleans_up (c : ActionCommand) (options : ActionOptions) (w : World S) :
  trace w = [] ->
  wellBehaved ->
  let r := runAction c options w in
  shutdowns (trace (snd r)) = [Shutdown]
  /\ last (trace (snd r)) = Some Shutdown
  /\ ((fst r = Returned tt /\ last (stdout (trace (snd r))) = Some (cmd_done c))
      \/ (fst r = Exited 1
          /\ exists msg,
               last (stdout (trace (snd r)))
               = Some (failedLine c (parseRetries (opt_retries options)) msg))).
Proof.
  intros Hw Hwb r. subst r.
  set (o := {| retries := parseRetries (opt_retries options);
               actionName := cmd_name c; target_ := cmd_retryTarget c |}).
  pose proof (fun w => withRetry_result (unitOfWork c) o w (parseRetries_pos _)) as HR.
  pose proof (fun Hne w code =>
                withRetry_from_never_exits (unitOfWork c) o (Z.to_nat (retries o))
                  (unitOfWork_never_exits c Hne) 1 None w code) as HX.
  destruct w as [s0 e0 tr0]. cbn [trace] in Hw. subst tr0.
  unfold_run. fold o.
  exec HR.
  all: cbv beta iota; cbn [trace claw env fst snd].
  all: cbn [app]; rewrite <- ?app_assoc; cbn [app].
  all: try absurd_collaborator.
  all: try (exfalso; destruct Hwb as (_ & _ & _ & _ & Hv);
            match goal with
            | E : withRetry _ _ ?w = (Exited ?code, _) |- _ =>
                apply (HX (Hv _) w code); unfold withRetry in E; rewrite E; reflexivity
            end).
  all: repeat match goal with u : unit |- _ => destruct u end.
  all: split;
    [ repeat (rewrite shutdowns_cons || rewrite shutdowns_app
              || rewrite shutdowns_retryBlocks); reflexivity |].
  all: split; [ rewrite ?last_cons, ?last_app; reflexivity |].
  all: first
    [ left; split; [reflexivity|];
      repeat (rewrite stdout_cons || rewrite stdout_app); cbn [stdout omap list_omap app];
      rewrite ?last_cons, ?last_app; reflexivity
    | right; split; [reflexivity|]; eexists;
      repeat (rewrite stdout_cons || rewrite stdout_app); cbn [stdout omap list_omap app];
      rewrite ?last_cons, ?last_app; reflexivity ].
Qed.

End RetryEdges.

Section PlainFacts.
Import Js Cli Plain.
Context {S : Type} `{Collaborators S}.

Lemma initializations_cons (e : Event) (l : list Event) :
  initializations (e :: l)
  = match e with Initialize => Initialize :: initializations l | _ => initializations l end.
Proof. destruct e; reflexivity. Qed.

Ltac unfold_plain :=
  unfold runPlain, x_reply, perform, notifyReport, parseContext, constructClaw,
    sendNotificationWithContext, console_log, console_error;
  unfold bind, tryCatch, when, call, emit, setEnv, ret, throw, exit, gets.

Ltac same_call :=
  repeat match goal with
         | E : (_, _) = (_, _) |- _ => inversion E; clear E; subst
         | E1 : ?x = ?a, E2 : ?x = ?b |- _ =>
             let Hnew := fresh in
             assert (a = b) as Hnew by (rewrite <- E1; exact E2);
             clear E2; inversion Hnew; clear Hnew; subst
         end.

Ltac tidy :=
  cbv beta iota; cbn [trace claw env fst snd];
  cbn [app]; rewrite <- ?app_assoc; cbn [app].


(** X11: the commands without a retry wrapper ([ig dm], [x tweet],
    [linkedin message], [linkedin like], [linkedin comment]) never end with
    an uncaught exception, never notify and never touch the environment;
    when the handler returns a result they print one line and return
    normally, also when the result reports a failure; when the handler
    throws they exit with status 1 without closing the session. *)
Theorem plain_command_outcome (handler : S -> Outcome ActionResult * S)
    (c : PlainCommand) (w : World S) :
  trace w = [] ->
  let r := runPlain handler c w in
  (forall t, fst r <> Threw t)
  /\ env (snd r) = env w
  /\ notifications (trace (snd r)) = []
  /\ (length (shutdowns (trace (snd r))) <= 1)%nat
  /\ (forall s1 s2 res s3 s4,
        construct (env w) (claw w) = (Returned tt, s1) ->
        initialize s1 = (Returned tt, s2) ->
        handler s2 = (Returned res, s3) ->
        shutdown s3 = (Returned tt, s4) ->
        fst r = Returned tt
        /\ stdout (trace (snd r))
           = [if res_success res then plain_done c
              else plain_failed c +:+ shown (res_error res)])
  /\ (forall s1 s2 t s3,
        construct (env w) (claw w) = (Returned tt, s1) ->
        initialize s1 = (Returned tt, s2) ->
        handler s2 = (Threw t, s3) ->
        fst r = Exited 1
        /\ shutdowns (trace (snd r)) = []
        /\ last (trace (snd r)) = Some (StderrThrown "Error:" t)).
Proof.
  intros Hw r. subst r.
  destruct w as [s0 e0 tr0]. cbn [trace] in Hw. subst tr0.
  unfold_plain.
  exec tt.
  all: tidy.
  all: repeat match goal with u : unit |- _ => destruct u end.
  all: split; [intros ?; discriminate|].
  all: split; [reflexivity|].
  all: split; [reflexivity|].
  all: split; [cbn; lia|].
  all: split.
  all: intros; same_call.
  all: cbn [stdout omap list_omap shutdowns List.filter last app];
    repeat split; try reflexivity.
  all: match goal with
       | Hs : res_success ?res = _ |- context [res_success ?res] => now rewrite Hs
       end.
Qed.

(** X12: [x reply] makes one call to the handler and reports its result
    as it is: with a truthy context and the notifier enabled it sends one
    notification whose [success] and [error] are those of the result and
    whose details are the defaults merged with the context, on failure as
    on success, and it returns normally in both cases; with a falsy
    context it sends nothing and leaves the environment alone. *)
Theorem reply_notification (handler : S -> Outcome ActionResult * S) (url text : string)
    (contextStr : option string) (w : World S) :
  trace w = [] ->
  let r := x_reply handler url text contextStr w in
  forall context : JsValue,
    fst (parseContext contextStr w) = Returned context ->
    (forall t, fst r <> Threw t)
    /\ attempts (trace (snd r)) = []
    /\ (truthy context = false ->
        env (snd r) = env w /\ notifications (trace (snd r)) = [])
    /\ (truthy context = true ->
        wellBehaved ->
        (forall s, isEnabled s = true) ->
        forall s1 s2 res s3,
          construct (<["CLAWSOCIAL_SILENT" := "1"]> (env w)) (claw w) = (Returned tt, s1) ->
          initialize s1 = (Returned tt, s2) ->
          handler s2 = (Returned res, s3) ->
          fst r = Returned tt
          /\ exists p,
               notifications (trace (snd r)) = [p]
               /\ success p = res_success res
               /\ error p = res_error res
               /\ event p = (if res_success res then ActionComplete else ActionError)
               /\ platform p = "twitter" /\ action p = "comment" /\ target p = url
               /\ details p
                  = JObject (spread [("postUrl", JString url);
                                     ("commentText", JString text);
                                     ("actions", JArray [JString "💬 Replied"])]
                               context)).
Proof.
  intros Hw r. subst r. intros context.
  destruct w as [s0 e0 tr0]. cbn [trace] in Hw. subst tr0.
  unfold_plain.
  exec tt.
  all: tidy.
  all: repeat match goal with u : unit |- _ => destruct u end.
  all: intros Hctx; try discriminate Hctx; injection Hctx as <-.
  all: split; [intros ?; discriminate|].
  all: split; [reflexivity|].
  all: split; [intros Hf | intros Ht]; cbn [truthy] in *; try congruence.
  all: try (split; reflexivity).
  all: intros Hwb He s1' s2' res s3' E1 E2 E3;
    rewrite ?He in *; cbn [negb] in *; try discriminate.
  all: same_call.
  all: try absurd_collaborator.
  all: split; [reflexivity|].
  all: eexists; split; [reflexivity|].
  all: cbn [success error event platform action target details].
  all: repeat split; try reflexivity.
  all: match goal with
       | Hs : res_success ?res = _ |- context [res_success ?res] => now rewrite Hs
       end.
Qed.

End PlainFacts.

Section MoreExamples.
Import Js Cli Plain Samples.

Lemma run_is_bounded_witness :
  (length (attempts (trace (snd (runAction (ig_like sampleUrl) (threeRetries None)
                                   (world0 twoFailures))))) <= 3)%nat.
Proof.
  exact (proj1 (run_is_bounded (ig_like sampleUrl) (threeRetries None)
                  (world0 twoFailures) eq_refl)).
Defined.

Lemma run_cleans_up_witness :
  last (trace (snd (runAction (ig_like sampleUrl) (threeRetries None)
                      (world0 twoFailures)))) = Some Shutdown.
Proof.
  exact (proj1 (proj2 (run_cleans_up (ig_like sampleUrl) (threeRetries None)
                         (world0 twoFailures) eq_refl scripted_wellBehaved))).
Defined.


Lemma plain_command_outcome_witness :
  notifications (trace (snd (runPlain (simInvoke (InstagramLike sampleUrl))
                               (ig_dm "someone") (world0 twoFailures)))) = [].
Proof.
  exact (proj1 (proj2 (proj2 (plain_command_outcome (simInvoke (InstagramLike sampleUrl))
                                (ig_dm "someone") (world0 twoFailures) eq_refl)))).
Defined.

Lemma reply_notification_witness :
  attempts (trace (snd (x_reply (simInvoke (TwitterLike sampleUrl)) sampleUrl "hello"
                          (Some "{}") (world0 twoFailures)))) = [].
Proof.
  assert (Hctx : fst (parseContext (Some "{}") (world0 twoFailures))
                 = Returned (JObject [])) by reflexivity.
  exact (proj1 (proj2 (reply_notification (simInvoke (TwitterLike sampleUrl)) sampleUrl
                         "hello" (Some "{}") (world0 twoFailures) eq_refl
                         (JObject []) Hctx))).
Defined.

End MoreExamples.

Ltac run_page :=
  repeat (cbv beta iota; cbn [fst snd negb];
  match goal with
  | |- context [match ?x with _ => _ end] =>
      lazymatch x with
      | context [match _ with _ => _ end] => fail
      | _ => destruct x eqn:?
      end
  end).

Section ActionFacts.
Import Js Cli Instagram Actions.
Context {S : Type} `{Handler S} `{Page S}.


End ActionFacts.

Section ScraperFacts.
Import Js Cli Scrapers.

Lemma member_In (x : string) (l : list string) : member x l = true <-> In x l.
Proof.
  unfold member. rewrite existsb_exists. split.
  - intros (y & Hy & E). apply String.eqb_eq in E. now subst.
  - intros Hx. exists x. split; [exact Hx | apply String.eqb_refl].
Qed.

Lemma member_false (x : string) (l : list string) : member x l = false -> ~ In x l.
Proof. intros E Hin. apply member_In in Hin. congruence. Qed.

Lemma followerOf_spec (username : string) (fs : list string) (link : Attribute) (u : string) :
  followerOf username fs link = Some u ->
  u <> "" /\ u <> username /\ ~ In u fs
  /\ exists href, link = Href href /\ hasPrefix "/" href = true
                  /\ u = beforeQuestion (removeSlashes href).
Proof.
  destruct link as [href| |]; cbn [followerOf]; try discriminate.
  destruct (negb (String.eqb href "") && hasPrefix "/" href
            && negb (includes href "/p/") && negb (includes href "/explore/")) eqn:E1;
    [|discriminate].
  destruct (negb (String.eqb (beforeQuestion (removeSlashes href)) "")
            && negb (String.eqb (beforeQuestion (removeSlashes href)) username)
            && negb (member (beforeQuestion (removeSlashes href)) fs)) eqn:E2;
    [|discriminate].
  intros [= <-].
  repeat (apply andb_true_iff in E1; destruct E1 as [E1 ?]).
  repeat (apply andb_true_iff in E2; destruct E2 as [E2 ?]).
  repeat match goal with
         | Hn : negb _ = true |- _ => apply negb_true_iff in Hn
         end.
  repeat split.
  - intros E. rewrite E in E2. discriminate E2.
  - intros E. rewrite E, String.eqb_refl in *. discriminate.
  - now apply member_false.
  - exists href. auto.
Qed.

Lemma kept_nil (avoid : list string) (limit : option Z) (P : string -> Prop) :
  kept avoid limit P [].
Proof.
  repeat split; try constructor; cbn; try tauto. intros n _. lia.
Qed.

Lemma kept_snoc (avoid : list string) (limit : option Z) (P : string -> Prop)
    (l : list string) (x : string) :
  kept avoid limit P l ->
  reached (length l) limit = false ->
  ~ In x l -> ~ In x avoid -> P x ->
  kept avoid limit P (l ++ [x]).
Proof.
  intros (Hnd & Hav & Hlen & HP) Hr Hx Hxa HPx. repeat split.
  - apply List.NoDup_app; [exact Hnd | repeat constructor; cbn; tauto |].
    intros y Hy [<-|[]]. contradiction.
  - intros y Hy Hin. apply in_app_or in Hin as [Hin|[<-|[]]]; [exact (Hav y Hy Hin)|].
    contradiction.
  - intros n ->. cbn [reached] in Hr. apply Z.leb_gt in Hr.
    rewrite length_app. cbn. lia.
  - intros y Hin. apply in_app_or in Hin as [Hin|[<-|[]]]; auto.
Qed.

Lemma collectFollowers_kept (username : string) (limit : option Z) (P : string -> Prop)
    (ls : list Attribute) :
  (forall href, In (Href href) ls -> hasPrefix "/" href = true ->
                P (beforeQuestion (removeSlashes href))) ->
  forall fs,
    kept [username; ""] limit P fs ->
    kept [username; ""] limit P (collectFollowers username limit ls fs).
Proof.
  induction ls as [|link ls IH]; intros HP fs Hk; [exact Hk|].
  cbn [collectFollowers].
  destruct (reached (length fs) limit) eqn:Hr; [exact Hk|].
  assert (forall href, In (Href href) ls -> hasPrefix "/" href = true ->
                       P (beforeQuestion (removeSlashes href))) as HP'
    by (intros href Hin; apply HP; now right).
  destruct (followerOf username fs link) as [u|] eqn:E; [|now apply IH].
  apply followerOf_spec in E as (Hne & Hnu & Hnin & href & -> & Hpre & ->).
  apply IH; [exact HP'|].
  apply kept_snoc; auto.
  - intros [E|[E|[]]]; congruence.
  - apply HP; [now left | exact Hpre].
Qed.

Lemma scrollLoop_kept (username : string) (limit : option Z) (views : nat -> View)
    (P : string -> Prop) (fuel : nat) :
  (forall i ls href,
     Z.of_nat i < default 0 (maxScrolls limit) ->
     links (views i) = Some ls -> In (Href href) ls -> hasPrefix "/" href = true ->
     P (beforeQuestion (removeSlashes href))) ->
  forall i fs,
    kept [username; ""] limit P fs ->
    kept [username; ""] limit P (scrollLoop username limit views fuel i fs).
Proof.
  intros HP. induction fuel as [|k IH]; intros i fs Hk; [exact Hk|].
  cbn [scrollLoop].
  destruct (below (length fs) limit && below i (maxScrolls limit)) eqn:Hb; [|exact Hk].
  apply andb_true_iff in Hb as (_ & Hi).
  assert (Z.of_nat i < default 0 (maxScrolls limit)) as Hi'.
  { destruct (maxScrolls limit) as [m|]; cbn in *; [now apply Z.ltb_lt | discriminate]. }
  destruct (links (views i)) as [ls|] eqn:El; [|exact Hk].
  assert (kept [username; ""] limit P (collectFollowers username limit ls fs)) as Hk'.
  { apply collectFollowers_kept; [|exact Hk]. intros href Hin Hpre. eapply HP; eauto. }
  destruct (scrolled (views i)); [now apply IH | exact Hk'].
Qed.

Lemma scrollLoop_fuel (username : string) (limit : option Z) (views : nat -> View)
    (fuel extra : nat) :
  forall i fs,
    default 0 (maxScrolls limit) <= Z.of_nat (i + fuel) ->
    scrollLoop username limit views (fuel + extra) i fs
    = scrollLoop username limit views fuel i fs.
Proof.
  induction fuel as [|k IH]; intros i fs Hle.
  - cbn [Nat.add scrollLoop]. destruct extra as [|e]; [reflexivity|]. cbn [scrollLoop].
    replace (below i (maxScrolls limit)) with false; [now rewrite andb_false_r|].
    destruct (maxScrolls limit) as [m|]; cbn in *; [|reflexivity].
    symmetry. apply Z.ltb_ge. lia.
  - cbn [Nat.add scrollLoop].
    destruct (below (length fs) limit && below i (maxScrolls limit)); [|reflexivity].
    destruct (links (views i)); [|reflexivity].
    destruct (scrolled (views i)); [|reflexivity].
    apply IH. lia.
Qed.

(** X14: whatever the page shows, [scrapeFollowers] returns a list without
    repetition that contains neither the profile's own name nor an empty
    name, of at most [limit] names (none when the limit is NaN, zero or
    negative); every name is what an [href] starting with a slash of some
    view leaves once its slashes and its query are removed; and the loop
    makes at most [ceil(limit / 5) + 3] turns, so that the list is the
    same however many further turns are allowed. *)
Theorem scraped_followers (username : string) (limit : option Z) (opened : bool)
    (views : nat -> View) :
  let fs := scrapeFollowers username limit opened views in
  List.NoDup fs
  /\ ~ In username fs
  /\ ~ In "" fs
  /\ match limit with
     | Some l => Z.of_nat (length fs) <= Z.max 0 l
     | None => fs = []
     end
  /\ (forall u, In u fs ->
        exists i ls href,
          Z.of_nat i < default 0 (maxScrolls limit)
          /\ links (views i) = Some ls /\ In (Href href) ls
          /\ hasPrefix "/" href = true
          /\ u = beforeQuestion (removeSlashes href))
  /\ (forall extra,
        scrollLoop username limit views
          (Z.to_nat (default 0 (maxScrolls limit)) + extra) 0 []
        = scrollLoop username limit views (Z.to_nat (default 0 (maxScrolls limit))) 0 []).
Proof.
  intros fs.
  set (P := fun u : string =>
              exists i ls href,
                Z.of_nat i < default 0 (maxScrolls limit)
                /\ links (views i) = Some ls /\ In (Href href) ls
                /\ hasPrefix "/" href = true
                /\ u = beforeQuestion (removeSlashes href)).
  assert (kept [username; ""] limit P fs) as (Hnd & Hav & Hlen & HP).
  { subst fs. unfold scrapeFollowers. destruct opened; [|apply kept_nil].
    apply scrollLoop_kept; [|apply kept_nil].
    intros i ls href Hi El Hin Hpre. exists i, ls, href. auto. }
  split; [exact Hnd|].
  split; [apply Hav; now left|].
  split; [apply Hav; right; now left|].
  split.
  - destruct limit as [l|]; [now apply Hlen|].
    subst fs. unfold scrapeFollowers. destruct opened; reflexivity.
  - split; [exact HP|]. intros extra. apply scrollLoop_fuel. lia.
Qed.

Lemma includes_append (a b sub : string) :
  includes b sub = true -> includes (a +:+ b) sub = true.
Proof.
  intros E. induction a as [|c a IH]; [exact E|].
  change (String c a +:+ b) with (String c (a +:+ b)). now apply includes_skip.
Qed.

Lemma postOf_spec (posts : list string) (link : Attribute) (p : string) :
  postOf posts link = Some p ->
  ~ In p posts
  /\ hasPrefix "http" p = true
  /\ (includes p "/p/" = true \/ includes p "/reel/" = true)
  /\ exists href, link = Href href /\ (p = href \/ p = Instagram.baseUrl +:+ href).
Proof.
  destruct link as [href| |]; cbn [postOf]; try discriminate.
  destruct (looksLikePost href) eqn:E1; [|discriminate].
  unfold looksLikePost in E1. apply andb_true_iff in E1 as (_ & E1).
  apply orb_true_iff in E1.
  destruct (hasPrefix "http" href) eqn:E2.
  - destruct (member href posts) eqn:E3; [discriminate|]. intros [= <-].
    split; [now apply member_false|]. split; [exact E2|]. split; [exact E1|]. eauto.
  - destruct (member (Instagram.baseUrl +:+ href) posts) eqn:E3; [discriminate|].
    intros [= <-].
    split; [now apply member_false|]. split; [reflexivity|]. split.
    + destruct E1 as [E1|E1]; [left|right]; now apply includes_append.
    + eauto.
Qed.

Lemma collectPosts_kept (limit : option Z) (P : string -> Prop) (ls : list Attribute) :
  (forall href p, In (Href href) ls -> postOf [] (Href href) = Some p -> P p) ->
  forall ps,
    kept [] limit P ps -> kept [] limit P (collectPosts limit ls ps).
Proof.
  induction ls as [|link ls IH]; intros HP ps Hk; [exact Hk|].
  cbn [collectPosts].
  destruct (reached (length ps) limit) eqn:Hr; [exact Hk|].
  assert (forall href p, In (Href href) ls -> postOf [] (Href href) = Some p -> P p) as HP'
    by (intros href p Hin; apply HP; now right).
  destruct (postOf ps link) as [p|] eqn:E; [|now apply IH].
  apply IH; [exact HP'|].
  pose proof E as E'. apply postOf_spec in E' as (Hnin & _ & _ & href & -> & _).
  apply kept_snoc; auto.
  apply (HP href); [now left|].
  cbn [postOf] in *. destruct (looksLikePost href); [|discriminate E].
  cbn [member existsb negb].
  destruct (negb (member _ ps)); [exact E | discriminate E].
Qed.

Lemma filterPostLinks_sub (allLinks kept' : list Attribute) :
  filterPostLinks allLinks = Some kept' ->
  forall href, In (Href href) kept' -> In (Href href) allLinks.
Proof.
  revert kept'. induction allLinks as [|link rest IH]; intros kept' E href Hin.
  - injection E as <-. destruct Hin.
  - cbn [filterPostLinks] in E.
    destruct link as [h| |]; try discriminate E;
      destruct (filterPostLinks rest) as [k|]; try discriminate E.
    + destruct (looksLikePost h); injection E as <-.
      * destruct Hin as [Hin|Hin]; [now left | right; eapply IH; eauto].
      * right; eapply IH; eauto.
    + injection E as <-. right; eapply IH; eauto.
Qed.

(** X15: whatever the page shows, [getRecentPosts] returns a list without
    repetition of at most [limit] addresses; each starts with [http],
    contains [/p/] or [/reel/], and is an [href] of the page or the base
    address followed by one; and when the first query finds links the
    other two are not consulted. *)
Theorem recent_posts (limit : option Z) (loaded : bool)
    (byHref inArticles allLinks : list Attribute) :
  let ps := getRecentPosts limit loaded byHref inArticles allLinks in
  List.NoDup ps
  /\ (forall l, limit = Some l -> Z.of_nat (length ps) <= Z.max 0 l)
  /\ (forall p, In p ps ->
        hasPrefix "http" p = true
        /\ (includes p "/p/" = true \/ includes p "/reel/" = true)
        /\ exists href,
             In (Href href) (byHref ++ inArticles ++ allLinks)
             /\ (p = href \/ p = Instagram.baseUrl +:+ href))
  /\ (byHref <> [] ->
      forall others1 others2,
        getRecentPosts limit loaded byHref others1 others2 = ps).
Proof.
  intros ps.
  set (P := fun p : string =>
              hasPrefix "http" p = true
              /\ (includes p "/p/" = true \/ includes p "/reel/" = true)
              /\ exists href,
                   In (Href href) (byHref ++ inArticles ++ allLinks)
                   /\ (p = href \/ p = Instagram.baseUrl +:+ href)).
  assert (forall ls,
            (forall href, In (Href href) ls ->
                          In (Href href) (byHref ++ inArticles ++ allLinks)) ->
            kept [] limit P (collectPosts limit ls [])) as Hcol.
  { intros ls Hsub. apply collectPosts_kept; [|apply kept_nil].
    intros href p Hin E. apply postOf_spec in E as (_ & H1 & H2 & href' & [= <-] & H3).
    repeat split; auto. exists href. split; [now apply Hsub | exact H3]. }
  assert (kept [] limit P ps) as (Hnd & _ & Hlen & HP).
  { subst ps. unfold getRecentPosts. destruct loaded; cbn [negb]; [|apply kept_nil].
    destruct byHref as [|b bs].
    - destruct inArticles as [|a as_].
      + destruct (filterPostLinks allLinks) as [k|] eqn:Ef; [|apply kept_nil].
        apply Hcol. intros href Hin. cbn [app]. eapply filterPostLinks_sub; eauto.
      + apply Hcol. intros href Hin.
        change ([] ++ (a :: as_) ++ allLinks) with ((a :: as_) ++ allLinks).
        apply in_or_app. now left.
    - apply Hcol. intros href Hin. apply in_or_app. now left. }
  split; [exact Hnd|]. split; [exact Hlen|]. split; [exact HP|].
  intros Hne others1 others2. subst ps. unfold getRecentPosts.
  destruct byHref; [contradiction | reflexivity].
Qed.

End ScraperFacts.

Section ActionExamples.
Import Js Cli Instagram Actions Samples PageSamples Scrapers.

Lemma blankPage_neverExits : @pageNeverExits Session session blankPage.
Proof. repeat split; intros; discriminate. Qed.


(** The dialog shows [/alice/], a post, an element without address,
    [/bob/?hl=en] and [/alice/] again at every turn. *)
Example scraped_followers_sample :
  scrapeFollowers "carol" (Some 2) true (fun _ => sampleView) = ["alice"; "bob"]
  /\ scrapeFollowers "alice" (Some 5) true (fun _ => sampleView) = ["bob"]
  /\ scrapeFollowers "carol" None true (fun _ => sampleView) = []
  /\ getRecentPosts (Some 3) true
       [Href "/p/C1/"; Href "https://www.instagram.com/reel/R2/"; Href "/p/C1/";
        Href "/about/"] [] []
     = ["https://www.instagram.com/p/C1/"; "https://www.instagram.com/reel/R2/"].
Proof. repeat split; vm_compute; reflexivity. Qed.

End ActionExamples.

Section GraphqlFacts.
Import Js Cli Graphql.

Lemma setOf_spec (l : list string) :
  forall seen,
    List.NoDup (setOf seen l)
    /\ (forall x, In x (setOf seen l) <-> In x l /\ ~ In x seen).
Proof.
  induction l as [|y l IH]; intros seen; cbn [setOf].
  - split; [constructor|]. intros x. cbn. tauto.
  - destruct (existsb (String.eqb y) seen) eqn:E.
    + apply existsb_exists in E as (z & Hz & Ez). apply String.eqb_eq in Ez. subst z.
      destruct (IH seen) as (Hnd & Hin). split; [exact Hnd|].
      intros x. rewrite Hin. cbn. split; [tauto|].
      intros ([<-|Hx] & Hn); [contradiction | tauto].
    + assert (~ In y seen) as Hy.
      { intros Hin. assert (existsb (String.eqb y) seen = true) as E'; [|congruence].
        apply existsb_exists. exists y. split; [exact Hin | apply String.eqb_refl]. }
      destruct (IH (seen ++ [y])) as (Hnd & Hin). split.
      * constructor; [|exact Hnd]. rewrite Hin. intros (_ & Hn). apply Hn.
        apply in_or_app. right. now left.
      * intros x. cbn [In]. rewrite Hin. split.
        -- intros [<-|(Hx & Hn)]; [tauto|]. split; [tauto|].
           intros Hs. apply Hn. apply in_or_app. now left.
        -- intros ([<-|Hx] & Hn); [now left|].
           destruct (String.eqb_spec y x) as [->|Hne]; [now left|]. right.
           split; [exact Hx|]. intros Hs. apply in_app_or in Hs as [Hs|[Hs|[]]]; tauto.
Qed.

Lemma search_ids_length (q : string) :
  (3 <= length (setOf [] [q; "M1jEez78PEfVfbQLvlWMvQ"; "5h0kNbk3ii97rmfY6CdgAA";
                          "6AAys3t42mosm_yTI_QENg"]) <= 4)%nat
  /\ (length (setOf [] [q; "M1jEez78PEfVfbQLvlWMvQ"; "5h0kNbk3ii97rmfY6CdgAA";
                        "6AAys3t42mosm_yTI_QENg"]) = 3%nat <->
      In q ["M1jEez78PEfVfbQLvlWMvQ"; "5h0kNbk3ii97rmfY6CdgAA";
            "6AAys3t42mosm_yTI_QENg"]).
Proof.
  cbn [setOf existsb app orb].
  destruct (String.eqb_spec "M1jEez78PEfVfbQLvlWMvQ" q) as [<-|N1].
  - cbn. split; [lia|]. split; [tauto | reflexivity].
  - cbn [setOf existsb app orb].
    destruct (String.eqb_spec "5h0kNbk3ii97rmfY6CdgAA" q) as [<-|N2].
    + cbn. split; [lia|]. split; [tauto | reflexivity].
    + change (String.eqb "5h0kNbk3ii97rmfY6CdgAA" "M1jEez78PEfVfbQLvlWMvQ") with false.
      cbn [setOf existsb app orb].
      destruct (String.eqb_spec "6AAys3t42mosm_yTI_QENg" q) as [<-|N3].
      * cbn. split; [lia|]. split; [tauto | reflexivity].
      * cbn. split; [lia|]. split; [discriminate|].
        intros [E|[E|[E|[]]]]; congruence.
Qed.

Section Ids.
Variable QUERY_IDS : string -> option string.

(** X16: the query ids [search] and [getHomeTimeline] go through hold no
    id twice, open with the configured id (the empty text when none is
    configured) and hold every built-in fallback, so that a configured id
    that equals a fallback is requested once. *)
Theorem query_ids_distinct :
  let ids := getSearchQueryIds QUERY_IDS in
  let home := getHomeQueryIds QUERY_IDS in
  List.NoDup ids
  /\ hd_error ids = Some (getQueryId QUERY_IDS "SearchTimeline")
  /\ (forall x, In x ids <->
                x = getQueryId QUERY_IDS "SearchTimeline"
                \/ In x ["M1jEez78PEfVfbQLvlWMvQ"; "5h0kNbk3ii97rmfY6CdgAA";
                         "6AAys3t42mosm_yTI_QENg"])
  /\ (3 <= length ids <= 4)%nat
  /\ (length ids = 3%nat <->
      In (getQueryId QUERY_IDS "SearchTimeline")
        ["M1jEez78PEfVfbQLvlWMvQ"; "5h0kNbk3ii97rmfY6CdgAA"; "6AAys3t42mosm_yTI_QENg"])
  /\ List.NoDup home
  /\ hd_error home = Some (getQueryId QUERY_IDS "HomeTimeline")
  /\ (forall x, In x home <->
                x = getQueryId QUERY_IDS "HomeTimeline" \/ x = "edseUwk9sP5Phz__9TIRnA")
  /\ (QUERY_IDS "SearchTimeline" = None ->
      ids = [""; "M1jEez78PEfVfbQLvlWMvQ"; "5h0kNbk3ii97rmfY6CdgAA";
             "6AAys3t42mosm_yTI_QENg"]).
Proof.
  intros ids home. subst ids home. unfold getSearchQueryIds, getHomeQueryIds.
  set (q := getQueryId QUERY_IDS "SearchTimeline").
  set (h := getQueryId QUERY_IDS "HomeTimeline").
  destruct (setOf_spec [q; "M1jEez78PEfVfbQLvlWMvQ"; "5h0kNbk3ii97rmfY6CdgAA";
                        "6AAys3t42mosm_yTI_QENg"] []) as (Hnd & Hin).
  destruct (setOf_spec [h; "edseUwk9sP5Phz__9TIRnA"] []) as (Hnd' & Hin').
  pose proof (search_ids_length q) as Hlen.
  split; [exact Hnd|]. split; [reflexivity|]. split.
  { intros x. rewrite Hin. cbn. intuition. }
  split; [exact (proj1 Hlen)|]. split; [exact (proj2 Hlen)|].
  split; [exact Hnd'|]. split; [reflexivity|]. split.
  { intros x. rewrite Hin'. cbn. intuition. }
  intros E. subst q. unfold getQueryId. rewrite E. reflexivity.
Qed.

End Ids.

Section Loops.
Variable QUERY_IDS : string -> option string.
Context {Tweet S : Type}.
Variable fetch : Request -> S -> Reply Tweet * S.

Lemma searchLoop_spec (ids : list string) :
  forall (lastError : string) (n : Net Tweet S),
    exists turns : list (string * Reply Tweet),
      exchanges (snd (searchLoop fetch ids lastError n))
      = exchanges n ++ map searchExchange turns
      /\ ((exists pre id reply rest,
             turns = pre ++ [(id, reply)]
             /\ ids = map fst pre ++ id :: rest
             /\ Forall goesOn pre
             /\ searchTurn id reply = Return (fst (searchLoop fetch ids lastError n)))
          \/ (ids = map fst turns
              /\ Forall goesOn turns
              /\ fst (searchLoop fetch ids lastError n)
                 = failure (if String.eqb (lastErrorOf lastError turns) ""
                            then "All query IDs failed"
                            else lastErrorOf lastError turns))).
Proof.
  induction ids as [|id rest IH]; intros lastError n.
  - exists []. cbn. rewrite app_nil_r. split; [reflexivity|]. right.
    split; [reflexivity|]. split; [constructor | reflexivity].
  - cbn [searchLoop]. unfold send.
    destruct (fetch (searchRequest id) (server n)) as [reply s1].
    destruct (searchTurn id reply) as [e|result] eqn:Et.
    + destruct (IH e {| server := s1;
                        exchanges := exchanges n ++ [(searchRequest id, reply)] |})
        as (turns & Hex & Hcase).
      exists ((id, reply) :: turns). split.
      * rewrite Hex. cbn [exchanges map]. now rewrite <- app_assoc.
      * destruct Hcase as [(pre & id' & reply' & rest' & -> & -> & Hpre & Hret)
                          |(-> & Hall & Hres)].
        -- left. exists ((id, reply) :: pre), id', reply', rest'.
           split; [reflexivity|]. split; [reflexivity|]. split; [|exact Hret].
           constructor; [|exact Hpre]. exists e. exact Et.
        -- right. split; [reflexivity|]. split.
           ++ constructor; [|exact Hall]. exists e. exact Et.
           ++ rewrite Hres. unfold lastErrorOf. cbn [fold_left fst snd].
              now rewrite Et.
    + exists [(id, reply)]. split; [reflexivity|]. left.
      exists [], id, reply, rest.
      split; [reflexivity|]. split; [reflexivity|]. split; [apply List.Forall_nil | exact Et].
Qed.

Lemma homeLoop_spec (ids : list string) :
  forall n : Net Tweet S,
    exists turns : list (string * Reply Tweet),
      exchanges (snd (homeLoop fetch ids n)) = exchanges n ++ map homeExchange turns
      /\ ((exists pre id reply rest,
             turns = pre ++ [(id, reply)]
             /\ ids = map fst pre ++ id :: rest
             /\ Forall (fun p => homeTurn (snd p) = None) pre
             /\ homeTurn reply = Some (fst (homeLoop fetch ids n)))
          \/ (ids = map fst turns
              /\ Forall (fun p => homeTurn (snd p) = None) turns
              /\ fst (homeLoop fetch ids n) = failure "All query IDs failed")).
Proof.
  induction ids as [|id rest IH]; intros n.
  - exists []. cbn. rewrite app_nil_r. split; [reflexivity|]. right.
    split; [reflexivity|]. split; [constructor | reflexivity].
  - cbn [homeLoop]. unfold send.
    destruct (fetch (homeRequest id) (server n)) as [reply s1].
    destruct (homeTurn reply) as [result|] eqn:Et.
    + exists [(id, reply)]. split; [reflexivity|]. left.
      exists [], id, reply, rest.
      split; [reflexivity|]. split; [reflexivity|]. split; [apply List.Forall_nil | exact Et].
    + destruct (IH {| server := s1;
                      exchanges := exchanges n ++ [(homeRequest id, reply)] |})
        as (turns & Hex & Hcase).
      exists ((id, reply) :: turns). split.
      * rewrite Hex. cbn [exchanges map]. now rewrite <- app_assoc.
      * destruct Hcase as [(pre & id' & reply' & rest' & -> & -> & Hpre & Hret)
                          |(-> & Hall & Hres)].
        -- left. exists ((id, reply) :: pre), id', reply', rest'.
           split; [reflexivity|]. split; [reflexivity|]. split; [|exact Hret].
           constructor; [exact Et | exact Hpre].
        -- right. split; [reflexivity|]. split; [|exact Hres].
           constructor; [exact Et | exact Hall].
Qed.

Lemma searchTurn_result (id : string) (reply : Reply Tweet) (r : SearchResult Tweet) :
  searchTurn id reply = Return r ->
  if sr_success r then sr_error r = None
  else sr_tweets r = [] /\ exists e, sr_error r = Some e.
Proof.
  unfold searchTurn. intros E.
  repeat match type of E with
         | match ?x with _ => _ end = _ => destruct x
         | (let (_, _) := ?x in _) = _ => destruct x
         end; try discriminate E; injection E as <-; cbn; eauto.
Qed.

Lemma homeTurn_result (reply : Reply Tweet) (r : SearchResult Tweet) :
  homeTurn reply = Some r ->
  if sr_success r then sr_error r = None /\ sr_nextCursor r = None
  else sr_tweets r = [] /\ exists e, sr_error r = Some e.
Proof.
  unfold homeTurn. intros E.
  repeat match type of E with
         | match ?x with _ => _ end = _ => destruct x
         | (let (_, _) := ?x in _) = _ => destruct x
         end; try discriminate E; injection E as <-; cbn; eauto.
Qed.


(** X18: [getHomeTimeline] goes through its one or two query ids in the
    same way but retries less: it goes on only after a rejection, a 404, a
    body that cannot be read or a parser exception, and whatever makes it
    go on makes [search] go on as well; any other HTTP error and any
    GraphQL error, a validation failure included, ends it at once; when
    every id has been retried the error is "All query IDs failed",
    whatever the replies were. *)
Theorem home_timeline_falls_back (n : Net Tweet S) :
  let r := getHomeTimeline QUERY_IDS fetch n in
  (exists turns : list (string * Reply Tweet),
     exchanges (snd r) = exchanges n ++ map homeExchange turns
     /\ (1 <= length turns <= 2)%nat
     /\ ((exists pre id reply rest,
            turns = pre ++ [(id, reply)]
            /\ getHomeQueryIds QUERY_IDS = map fst pre ++ id :: rest
            /\ Forall (fun p => homeTurn (snd p) = None) pre
            /\ homeTurn reply = Some (fst r))
         \/ (getHomeQueryIds QUERY_IDS = map fst turns
             /\ Forall (fun p => homeTurn (snd p) = None) turns
             /\ fst r = failure "All query IDs failed")))
  /\ (forall (id : string) (reply : Reply Tweet),
        homeTurn reply = None -> goesOn (id, reply))
  /\ (forall (status : Z) (t : string) (json : Settled (Data Tweet)),
        status = 400 \/ status = 422 ->
        goesOn ("", Responded status (Fulfilled t) json)
        /\ exists e, homeTurn (Responded status (Fulfilled t) json) = Some (failure e))
  /\ (forall (status : Z) (text : Settled string) (d : Data Tweet),
        ok status = true -> errors d <> [] ->
        exists e, homeTurn (Responded status text (Fulfilled d)) = Some (failure e)).
Proof.
  intros r. subst r. unfold getHomeTimeline. split; [|split; [|split]].
  - destruct (homeLoop_spec (getHomeQueryIds QUERY_IDS) n) as (turns & Hex & Hcase).
    exists turns. split; [exact Hex|]. split; [|exact Hcase].
    assert (1 <= length (getHomeQueryIds QUERY_IDS) <= 2)%nat as Hlen.
    { unfold getHomeQueryIds. cbn [setOf existsb app orb].
      destruct (String.eqb _ _); cbn; lia. }
    destruct Hcase as [(pre & id & reply & rest & -> & Hids & _)|(Hids & _)];
      rewrite Hids in Hlen.
    + rewrite length_app, length_map in Hlen. rewrite length_app. cbn in *. lia.
    + rewrite length_map in Hlen. lia.
  - intros id reply E. unfold goesOn, homeTurn, searchTurn in *. cbn [fst snd].
    repeat match type of E with
           | match ?x with _ => _ end = _ => destruct x eqn:?
           | (let (_, _) := ?x in _) = _ => destruct x eqn:?
           end; try discriminate E; eauto.
  - intros status t json Hs. unfold goesOn, homeTurn, searchTurn. cbn [fst snd].
    destruct Hs as [-> | ->]; cbn; eauto.
  - intros status text d Hok Hne. unfold homeTurn.
    assert ((status =? 404)%Z = false) as ->.
    { unfold ok in Hok. apply andb_true_iff in Hok as (_ & Hle).
      apply Z.leb_le in Hle. apply Z.eqb_neq. lia. }
    rewrite Hok. cbn [negb]. destruct (errors d); [contradiction|]. eauto.
Qed.

End Loops.

(** X19: [createClientFromEnv] takes each cookie from its first variable
    that is set and not empty ([AUTH_TOKEN] before
    [SOCIALCRABS_AUTH_TOKEN], [CT0] before [SOCIALCRABS_CT0]); without one
    of the two cookies it throws its own error, and the constructor's check
    never fires; the client it builds sends both cookies in its cookie
    header and arms a timer of 30 seconds. *)
Theorem client_from_env (env : Config.Env) :
  match createClientFromEnv env with
  | inl e =>
      message e = "AUTH_TOKEN and CT0 environment variables are required. Set them in .env or pass --auth-token and --ct0."
      /\ ((Settings.truthyVar env "AUTH_TOKEN" = None
           /\ Settings.truthyVar env "SOCIALCRABS_AUTH_TOKEN" = None)
          \/ (Settings.truthyVar env "CT0" = None
              /\ Settings.truthyVar env "SOCIALCRABS_CT0" = None))
  | inr c =>
      authToken c <> "" /\ ct0 c <> ""
      /\ (Settings.truthyVar env "AUTH_TOKEN" = Some (authToken c)
          \/ (Settings.truthyVar env "AUTH_TOKEN" = None
              /\ Settings.truthyVar env "SOCIALCRABS_AUTH_TOKEN" = Some (authToken c)))
      /\ (Settings.truthyVar env "CT0" = Some (ct0 c)
          \/ (Settings.truthyVar env "CT0" = None
              /\ Settings.truthyVar env "SOCIALCRABS_CT0" = Some (ct0 c)))
      /\ cookieHeader c = "auth_token=" +:+ authToken c +:+ "; ct0=" +:+ ct0 c
      /\ userAgent c = defaultUserAgent
      /\ timeoutMs c = Some 30000
      /\ armsTimeout c = true
      /\ quoteDepth c = 1
  end.
Proof.
  unfold createClientFromEnv, Settings.truthyVar.
  destruct (env !! "AUTH_TOKEN") as [a|] eqn:Ea;
    destruct (env !! "SOCIALCRABS_AUTH_TOKEN") as [a'|] eqn:Ea';
    destruct (env !! "CT0") as [c|] eqn:Ec;
    destruct (env !! "SOCIALCRABS_CT0") as [c'|] eqn:Ec';
    cbn [orElse];
    repeat match goal with
           | |- context [String.eqb ?x ""] =>
               is_var x; destruct (String.eqb_spec x "") as [->|?]
           end;
    cbn [orElse orb String.eqb];
    repeat match goal with
           | |- context [String.eqb ?x ""] =>
               is_var x; destruct (String.eqb_spec x ""); [congruence|]
           end;
    cbn [orb];
    try (split; [reflexivity | tauto]).
  all: unfold newClient, missing; cbn [opt_authToken opt_ct0 orElse];
    repeat match goal with
           | |- context [String.eqb ?x ""] =>
               is_var x; destruct (String.eqb_spec x ""); [congruence|]
           end;
    cbn [orb authToken ct0 cookieHeader userAgent timeoutMs quoteDepth armsTimeout
         opt_cookieHeader opt_userAgent opt_timeoutMs opt_quoteDepth orElse default].
  all: repeat split; auto.
Qed.

Section ClientExamples.
Import Js Cli Graphql ClientSamples.

(** With a stale configured id every id is tried once and the last 404
    is the error reported; with the current id one request is enough. *)
Example search_sample :
  sr_error (fst (search staleIds sampleServer offline))
  = Some "404 for queryId 6AAys3t42mosm_yTI_QENg"
  /\ server (snd (search staleIds sampleServer offline)) = 4%nat
  /\ sr_tweets (fst (search currentIds sampleServer offline)) = ["hello"]
  /\ server (snd (search currentIds sampleServer offline)) = 1%nat
  /\ sr_error (fst (getHomeTimeline staleIds sampleServer offline))
     = Some "All query IDs failed".
Proof. repeat split; vm_compute; reflexivity. Qed.

End ClientExamples.

End GraphqlFacts.

Section ScrollFacts.
Import Scroll.

Lemma scrollFrom_spec (scrollHeight : Z) (draws : nat -> Draw) :
  inRange draws ->
  forall (fuel turn : nat) (p : Z),
    (Z.to_nat (scrollHeight - p) <= fuel)%nat ->
    exists steps,
      scrollFrom scrollHeight draws fuel turn p = Some steps
      /\ Forall (fun s => 500 <= waited s <= 1499) steps
      /\ 200 * Z.of_nat (length steps) <= positionAfter p steps - p
         <= 399 * Z.of_nat (length steps)
      /\ (scrollHeight <= p -> steps = [])
      /\ (p < scrollHeight ->
          scrollHeight <= positionAfter p steps < scrollHeight + 399
          /\ 200 * (Z.of_nat (length steps) - 1) < scrollHeight - p).
Proof.
  intros Hr. induction fuel as [|k IH]; intros turn p Hfuel.
  - cbn [scrollFrom]. assert (scrollHeight <= p) as Hle by lia.
    rewrite (proj2 (Z.ltb_ge p scrollHeight) Hle).
    exists []. cbn. repeat split; auto; lia.
  - cbn [scrollFrom]. destruct (Z.ltb_spec p scrollHeight) as [Hlt|Hge].
    + destruct (Hr turn) as (Ha & Hd).
      set (q := p + (amountDraw (draws turn) + 200)) in *.
      destruct (IH (S turn) q ltac:(lia)) as (rest & E & Hw & Hpos & Hdone & Hmore).
      rewrite E. eexists. split; [reflexivity|].
      split; [constructor; [cbn; lia | exact Hw]|].
      cbn [length positionAfter fold_left position].
      change (fold_left (fun _ s => position s) rest q) with (positionAfter q rest) in *.
      split; [lia|]. split; [lia|]. intros _.
      destruct (Z.ltb_spec q scrollHeight) as [Hq|Hq].
      * destruct (Hmore Hq) as (H1 & H2). lia.
      * rewrite (Hdone Hq) in *. cbn in *. lia.
    + exists []. cbn. repeat split; auto; lia.
Qed.

(** X20: with draws in their ranges, the scroll of the scraper ends: every
    turn moves down by 200 to 399 pixels and waits 500 to 1499 ms, the
    height of the page is read once, so the loop makes at least
    [scrollHeight / 399] and fewer than [scrollHeight / 200 + 1] turns,
    stops less than 399 pixels past that height, and a page without
    height is not scrolled; the whole wait is between [500 n + 2000] and
    [1499 n + 2000] ms for [n] turns. *)
Theorem human_scroll_ends (scrollHeight : Z) (draws : nat -> Draw) (fuel : nat) :
  inRange draws ->
  (Z.to_nat scrollHeight <= fuel)%nat ->
  exists steps,
    humanScroll scrollHeight draws fuel = Some steps
    /\ Forall (fun s => 500 <= waited s <= 1499) steps
    /\ (scrollHeight <= 0 -> steps = [])
    /\ (0 < scrollHeight ->
        scrollHeight <= positionAfter 0 steps < scrollHeight + 399
        /\ scrollHeight <= 399 * Z.of_nat (length steps)
        /\ 200 * (Z.of_nat (length steps) - 1) < scrollHeight)
    /\ 500 * Z.of_nat (length steps) + 2000 <= totalWait steps
       <= 1499 * Z.of_nat (length steps) + 2000.
Proof.
  intros Hr Hfuel. unfold humanScroll.
  destruct (scrollFrom_spec scrollHeight draws Hr fuel 0 0 ltac:(lia))
    as (steps & E & Hw & Hpos & Hdone & Hmore).
  exists steps. split; [exact E|]. split; [exact Hw|]. split; [exact Hdone|]. split.
  - intros Hh. destruct (Hmore Hh) as (H1 & H2). lia.
  - unfold totalWait, finalPause. clear - Hw.
    induction Hw as [|s l Hs Hl IH]; cbn [map fold_right length]; lia.
Qed.

Lemma human_scroll_ends_witness :
  exists steps,
    humanScroll 900 (fun _ => {| amountDraw := 100; delayDraw := 0 |}) 900 = Some steps.
Proof.
  destruct (human_scroll_ends 900 (fun _ => {| amountDraw := 100; delayDraw := 0 |}) 900)
    as (steps & E & _).
  - intros i. cbn. lia.
  - lia.
  - exists steps. exact E.
Defined.

End ScrollFacts.

Section FailureFacts.
Import Js Cli Plain.
Context {S : Type} `{Collaborators S}.

Lemma withRetry_succeeds {T} (action : S -> Outcome T * S) (o : RetryOptions) (w : World S) :
  1 <= retries o ->
  (forall s, exists res s', action s = (Returned res, s')) ->
  exists (r : Outcome T) (s : S) (errs : list Thrown),
    withRetry action o w =
    (r, {| claw := s; env := env w;
           trace := trace w ++ retryBlocks o 1 errs
                    ++ [Attempt (1 + Z.of_nat (length errs))] |})
    /\ errs = []
    /\ exists res, r = Returned res.
Proof.
  intros Hpos Hok. destruct (Hok (claw w)) as (res & s' & E).
  exists (Returned res), s', []. split; [|split; [reflexivity | eauto]].
  unfold withRetry. destruct (Z.to_nat (retries o)) as [|k] eqn:Ek; [lia|].
  rewrite withRetry_from_step, E. reflexivity.
Qed.

Ltac throws_by Hc call E :=
  let s' := fresh in let E' := fresh in
  destruct call as (s' & E'); rewrite E' in E; clear E'; inversion E; subst; clear E.

Ltac contradict_call :=
  repeat match goal with
         | Hc : forall s, exists s', ?f s = (Threw ?t, s'), E : ?f ?s0 = (_, _) |- _ =>
             throws_by Hc (Hc s0) E
         | Hc : forall p s, exists s', ?f p s = (Threw ?t, s'), E : ?f ?p0 ?s0 = (_, _) |- _ =>
             throws_by Hc (Hc p0 s0) E
         end.

(** X21: when the browser session fails to start, an action command makes
    no attempt, yet prints its "Failed to ... after N attempts" line with
    the error of the initialization, shuts the session down once and
    exits with status 1. *)
Theorem failed_initialization (c : ActionCommand) (options : ActionOptions) (w : World S)
    (t : Thrown) :
  trace w = [] ->
  wellBehaved ->
  (forall s, exists s', initialize s = (Threw t, s')) ->
  let r := runAction c options w in
  attempts (trace (snd r)) = []
  /\ fst r = Exited 1
  /\ last (stdout (trace (snd r)))
     = Some (failedLine c (parseRetries (opt_retries options)) (messageOf t))
  /\ shutdowns (trace (snd r)) = [Shutdown]
  /\ (length (notifications (trace (snd r))) <= 1)%nat.
Proof.
  intros Hw Hwb Hinit r. subst r.
  set (o := {| retries := parseRetries (opt_retries options);
               actionName := cmd_name c; target_ := cmd_retryTarget c |}).
  pose proof (fun w => withRetry_result (unitOfWork c) o w (parseRetries_pos _)) as HR.
  destruct w as [s0 e0 tr0]. cbn [trace] in Hw. subst tr0.
  unfold_run. fold o.
  exec HR.
  all: cbv beta iota; cbn [trace claw env fst snd].
  all: cbn [app]; rewrite <- ?app_assoc; cbn [app].
  all: contradict_call.
  all: try absurd_collaborator.
  all: repeat match goal with u : unit |- _ => destruct u end.
  all: repeat split; try reflexivity; cbn; lia.
Qed.

(** X22: the notifications of an action command are not protected: when
    the notifier throws, a command whose action succeeded at the first
    attempt prints its success line, then its failure line with the
    notifier's error, tries the error notification, and ends with that
    exception uncaught, without shutting the session down. *)
Theorem notifier_failure_is_uncaught (c : ActionCommand) (options : ActionOptions)
    (w : World S) (context : JsValue) (t : Thrown) :
  trace w = [] ->
  fst (parseContext (opt_context options) w) = Returned context ->
  truthy context = true ->
  (forall s, isEnabled s = true) ->
  (forall p s, exists s', notify p s = (Threw t, s')) ->
  (forall e, returns (construct e)) ->
  returns initialize ->
  (forall s, exists res s', unitOfWork c s = (Returned res, s')) ->
  let r := runAction c options w in
  fst r = Threw t
  /\ attempts (trace (snd r)) = [1]
  /\ stdout (trace (snd r))
     = [cmd_done c; failedLine c (parseRetries (opt_retries options)) (messageOf t)]
  /\ map success (notifications (trace (snd r))) = [true; false]
  /\ shutdowns (trace (snd r)) = [].
Proof.
  intros Hw Hctx Ht Hen Hnotify Hcons Hinit Hok r. subst r.
  set (o := {| retries := parseRetries (opt_retries options);
               actionName := cmd_name c; target_ := cmd_retryTarget c |}).
  pose proof (fun w => withRetry_succeeds (unitOfWork c) o w (parseRetries_pos _) Hok) as HR.
  destruct w as [s0 e0 tr0]. cbn [trace] in Hw. subst tr0.
  revert Hctx. unfold_run. fold o.
  exec HR.
  all: cbv beta iota; cbn [trace claw env fst snd].
  all: cbn [app]; rewrite <- ?app_assoc; cbn [app].
  all: intros Hctx; try discriminate Hctx; injection Hctx as <-.
  all: cbn [truthy] in *; try congruence.
  all: rewrite ?Hen in *; cbn [negb] in *; try discriminate.
  all: repeat match goal with
              | Hx : exists res, _ = Returned res |- _ => destruct Hx as (? & ?)
              end; try discriminate.
  all: subst; cbn [retryBlocks app length] in *.
  all: contradict_call.
  all: try match goal with
           | E : construct ?e ?s = (_, _) |- _ =>
               destruct (Hcons e s) as (? & ? & ?); congruence
           | E : initialize ?s = (_, _) |- _ =>
               destruct (Hinit s) as (? & ? & ?); congruence
           end.
  all: repeat split; reflexivity.
Qed.

End FailureFacts.

Section FailureExamples.
Import Js Cli Plain Samples FailureSamples.

Lemma noBrowser_wellBehaved : @wellBehaved Sim noBrowser.
Proof.
  repeat split; try (intros; eexists _, _; reflexivity).
  - intros s code s'. discriminate.
  - intros c s code s'. cbn. unfold simInvoke. destruct (sim_failures s); discriminate.
Qed.

Lemma failed_initialization_witness :
  attempts (trace (snd (@runAction Sim noBrowser (ig_like sampleUrl) (threeRetries None)
                          (world0 noFailures)))) = [].
Proof.
  exact (proj1 (@failed_initialization Sim noBrowser (ig_like sampleUrl) (threeRetries None)
                  (world0 noFailures) (ThrownError (newError "browser not installed"))
                  eq_refl noBrowser_wellBehaved
                  (fun s => ex_intro _ s eq_refl))).
Defined.

Lemma notifier_failure_is_uncaught_witness :
  fst (@runAction Sim noNotifier (ig_like sampleUrl) (threeRetries (Some "{}"))
         (world0 noFailures))
  = Threw (ThrownError (newError "webhook unreachable")).
Proof.
  assert (Hctx : fst (@parseContext Sim noNotifier (opt_context (threeRetries (Some "{}")))
                        (world0 noFailures)) = Returned (JObject [])) by reflexivity.
  exact (proj1 (@notifier_failure_is_uncaught Sim noNotifier (ig_like sampleUrl)
                   (threeRetries (Some "{}")) (world0 noFailures) (JObject [])
                   (ThrownError (newError "webhook unreachable"))
                   eq_refl Hctx eq_refl (fun _ => eq_refl)
                   (fun p s => ex_intro _ s eq_refl)
                   (fun e s => ex_intro _ tt (ex_intro _ s eq_refl))
                   (fun s => ex_intro _ tt (ex_intro _ s eq_refl))
                   (fun s => ex_intro _ _ (ex_intro _ s eq_refl)))).
Defined.

End FailureExamples.
